(** * Synapse backend: physics engine, clustering service, socket manager

    A shallow embedding of three services of the Synapse backend,

    - [src/services/physics_engine.py]      (modules [Physics]
                                             and [Physics64]),
    - [src/services/clustering_service.py]
      and the request schema of [src/api/cluster_routes.py]
                                            (module [Clustering]),
    - [src/websocket/socket_manager.py]     (module [Sockets]),

    together with the properties the design document states about them.
    The first part is the program; the second part, from [Properties] on,
    is what is proved about it.

    Conventions.  Module [Physics] reads Python [float]s as real numbers
    ([R]) and leaves rounding out; it carries the properties of the
    engine that are about its structure: which bodies there are, which
    force acts on which, what a step keeps.  Module [Physics64] is the
    force computation and the step again with the binary64 numbers the
    program computes with; the velocity cap, which rounding decides, is
    settled there.  A Python exception is a value [Raise e] of the
    [result] type.  A [dict] whose iteration order matters (the body
    registry) is an association list in insertion order; the dictionaries
    and sets of the socket manager are [gmap]s and [gset]s.  Each handler
    of the socket manager is taken to run to its end before the next event
    is handled; interleaving at its [await]s is outside the model. *)

From Stdlib Require Import Reals Lra Lia List Ascii String ZArith Bool.
From Stdlib Require Import Permutation Sorted.
From Stdlib Require PrimFloat FloatOps SpecFloat QArith.
From stdpp Require Import gmap strings pretty.
Import ListNotations.

(** ** Python exceptions *)

Inductive exn : Type :=
| ZeroDivisionError
| ValueError
| KeyError
| IndexError
| TypeError.

Inductive result (A : Type) : Type :=
| Ok (a : A)
| Raise (e : exn).

Arguments Ok {A} a.
Arguments Raise {A} e.

Definition bind {A B : Type} (c : result A) (k : A -> result B) : result B :=
  match c with
  | Ok a => k a
  | Raise e => Raise e
  end.

Notation "'let*' x ':=' c 'in' k" := (bind c (fun x => k))
  (at level 10, x name, c at level 100, k at level 200, only parsing).

(** ** Real-number helpers *)

Module RealAux.
Local Open Scope R_scope.

(** Python's [a / b] on floats: raises on a zero divisor. *)
Definition pydiv (a b : R) : result R :=
  if Req_dec_T b 0 then Raise ZeroDivisionError else Ok (a / b).

End RealAux.

(** ** The physics engine ([physics_engine.py]) *)

Module Physics.
Import RealAux.
Local Open Scope R_scope.

(** [class PhysicsBody] (a dataclass). *)
Record PhysicsBody : Type := mkBody {
  id : string;
  x : R;
  y : R;
  vx : R;
  vy : R;
  mass : R;
  radius : R;
  embedding : option (list R);
  cluster_id : option string
}.

(** The registry [self.bodies : Dict[str, PhysicsBody]], in insertion order. *)
Definition registry : Type := list (string * PhysicsBody).

(** [class PhysicsEngine]: the attributes set by [__init__]. *)
Record PhysicsEngine : Type := mkEngine {
  gravity_strength : R;
  repulsion_strength : R;
  similarity_threshold : R;
  max_attraction_distance : R;
  min_repulsion_distance : R;
  damping : R;
  max_velocity : R;
  time_step : R;
  cluster_gravity : R;
  bodies : registry
}.

(** [PhysicsEngine.__init__]. *)
Definition init : PhysicsEngine := {|
  gravity_strength := 5000;
  repulsion_strength := 2000;
  similarity_threshold := 0.7;
  max_attraction_distance := 800;
  min_repulsion_distance := 100;
  damping := 0.80;
  max_velocity := 15;
  time_step := 0.016;
  cluster_gravity := 0.5;
  bodies := []
|}.

Definition set_bodies (self : PhysicsEngine) (bs : registry) : PhysicsEngine := {|
  gravity_strength := gravity_strength self;
  repulsion_strength := repulsion_strength self;
  similarity_threshold := similarity_threshold self;
  max_attraction_distance := max_attraction_distance self;
  min_repulsion_distance := min_repulsion_distance self;
  damping := damping self;
  max_velocity := max_velocity self;
  time_step := time_step self;
  cluster_gravity := cluster_gravity self;
  bodies := bs
|}.

(** [body_id in self.bodies] and [self.bodies[body_id]]. *)
Fixpoint lookup_body (body_id : string) (bs : registry) : option PhysicsBody :=
  match bs with
  | [] => None
  | (k, b) :: rest => if String.eqb k body_id then Some b else lookup_body body_id rest
  end.

(** [self.bodies[key] = body]: an existing key keeps its place. *)
Fixpoint assign (key : string) (body : PhysicsBody) (bs : registry) : registry :=
  match bs with
  | [] => [(key, body)]
  | (k, b) :: rest =>
      if String.eqb k key then (k, body) :: rest else (k, b) :: assign key body rest
  end.

Definition add_body (self : PhysicsEngine) (body : PhysicsBody) : PhysicsEngine :=
  set_bodies self (assign (id body) body (bodies self)).

Definition remove_body (self : PhysicsEngine) (body_id : string) : PhysicsEngine :=
  set_bodies self (filter (fun kb => negb (String.eqb (fst kb) body_id)) (bodies self)).

Definition update_body_position (self : PhysicsEngine) (body_id : string) (x' y' : R)
  : PhysicsEngine :=
  match lookup_body body_id (bodies self) with
  | Some b =>
      set_bodies self
        (assign body_id
           (mkBody (id b) x' y' 0 0 (mass b) (radius b) (embedding b) (cluster_id b))
           (bodies self))
  | None => self
  end.

(** Truth value of [body.embedding]: [None] and the empty list are false. *)
Definition truthy (emb : option (list R)) : bool :=
  match emb with
  | Some (_ :: _) => true
  | _ => false
  end.

Definition vector (emb : option (list R)) : list R :=
  match emb with
  | Some v => v
  | None => []
  end.

(** [np.linalg.norm] of a one-dimensional array. *)
Definition norm (v : list R) : R :=
  sqrt (fold_right (fun a acc => a * a + acc) 0 v).

(** [np.dot] of two one-dimensional arrays: the shapes must agree. *)
Fixpoint dot (u v : list R) : result R :=
  match u, v with
  | [], [] => Ok 0
  | a :: u', b :: v' => let* s := dot u' v' in Ok (a * b + s)
  | _, _ => Raise ValueError
  end.

(** [PhysicsEngine.compute_similarity]. *)
Definition compute_similarity (embedding1 embedding2 : list R) : result R :=
  let vec1 := embedding1 in
  let vec2 := embedding2 in
  let vec1_norm := map (fun a => a / (norm vec1 + 1e-8)) vec1 in
  let vec2_norm := map (fun a => a / (norm vec2 + 1e-8)) vec2 in
  let* similarity := dot vec1_norm vec2_norm in
  Ok ((similarity + 1) / 2).

(** The body of the loop of [compute_forces], in three parts. *)

(** Lines 95-105: clamped distance and unit vector from [body] to [other]. *)
Definition geometry (body other : PhysicsBody) : result (R * R * R) :=
  let dx := x other - x body in
  let dy := y other - y body in
  let distance := sqrt (dx * dx + dy * dy) in
  let distance := if Rlt_dec distance 1 then 1 else distance in
  let* ux := pydiv dx distance in
  let* uy := pydiv dy distance in
  Ok (distance, ux, uy).

(** Lines 107-111: the repulsion block. *)
Definition repulsion (self : PhysicsEngine) (distance ux uy : R) (f : R * R)
  : result (R * R) :=
  let '(fx, fy) := f in
  if Rlt_dec distance (min_repulsion_distance self) then
    let* q := pydiv distance (min_repulsion_distance self) in
    let repulsion_force := repulsion_strength self * (1 - q) in
    Ok (fx - ux * repulsion_force, fy - uy * repulsion_force)
  else Ok (fx, fy).

(** Lines 113-128: the attraction block. *)
Definition attraction (self : PhysicsEngine) (body other : PhysicsBody)
    (distance ux uy : R) (f : R * R) : result (R * R) :=
  let '(fx, fy) := f in
  if truthy (embedding body) && truthy (embedding other)
     && (if Rlt_dec distance (max_attraction_distance self) then true else false)
  then
    let* similarity := compute_similarity (vector (embedding body)) (vector (embedding other)) in
    if Rgt_dec similarity (similarity_threshold self) then
      let* g := pydiv (gravity_strength self * (similarity - similarity_threshold self))
                  (1 - similarity_threshold self) in
      let* q := pydiv distance (max_attraction_distance self) in
      let attraction_force := g * (1 - q) in
      Ok (fx + ux * attraction_force, fy + uy * attraction_force)
    else Ok (fx, fy)
  else Ok (fx, fy).

(** One iteration of [for other_id, other in self.bodies.items()]. *)
Definition force_on (self : PhysicsEngine) (body : PhysicsBody) (f : R * R)
    (entry : string * PhysicsBody) : result (R * R) :=
  let '(other_id, other) := entry in
  if String.eqb other_id (id body) then Ok f
  else
    let* g := geometry body other in
    let '(distance, ux, uy) := g in
    let* f1 := repulsion self distance ux uy f in
    attraction self body other distance ux uy f1.

Fixpoint compute_forces_loop (self : PhysicsEngine) (body : PhysicsBody)
    (items : registry) (f : R * R) : result (R * R) :=
  match items with
  | [] => Ok f
  | entry :: rest =>
      let* f' := force_on self body f entry in
      compute_forces_loop self body rest f'
  end.

(** [PhysicsEngine.compute_forces]. *)
Definition compute_forces (self : PhysicsEngine) (body : PhysicsBody) : result (R * R) :=
  compute_forces_loop self body (bodies self) (0, 0).

(** Lines 158-165 of [step]: stop if slow, else cap the speed.  Over the
    reals; [Physics64.cap_velocity] is the same lines in binary64. *)
Definition cap_velocity (self : PhysicsEngine) (vx' vy' : R) : result (R * R) :=
  let velocity := sqrt (vx' * vx' + vy' * vy') in
  if Rlt_dec velocity 0.1 then Ok (0, 0)
  else if Rgt_dec velocity (max_velocity self) then
    let* scale := pydiv (max_velocity self) velocity in
    Ok (vx' * scale, vy' * scale)
  else Ok (vx', vy').

(** Lines 146-155 of [step]: the velocity of [body] after the force is
    applied and damped. *)
Definition damped_velocity (self : PhysicsEngine) (body : PhysicsBody) (f : R * R)
  : result (R * R) :=
  let '(fx, fy) := f in
  let* ax := pydiv fx (mass body) in
  let* ay := pydiv fy (mass body) in
  let vx1 := vx body + ax * time_step self in
  let vy1 := vy body + ay * time_step self in
  Ok (vx1 * damping self, vy1 * damping self).

(** Lines 146-169 of [step]: what one iteration does to [body].  Over the
    reals; [Physics64.integrate] is the same lines in binary64. *)
Definition integrate (self : PhysicsEngine) (body : PhysicsBody) (f : R * R)
  : result PhysicsBody :=
  let* v := damped_velocity self body f in
  let* w := cap_velocity self (fst v) (snd v) in
  let '(vx', vy') := w in
  Ok (mkBody (id body)
        (x body + vx' * time_step self * 60)
        (y body + vy' * time_step self * 60)
        vx' vy' (mass body) (radius body) (embedding body) (cluster_id body)).

(** An entry of the dictionary [step] returns. *)
Record Update : Type := mkUpdate {
  u_x : R;
  u_y : R;
  u_vx : R;
  u_vy : R
}.

Definition update_of (b : PhysicsBody) : Update :=
  mkUpdate (x b) (y b) (vx b) (vy b).

(** The loop of [step].  Bodies are updated in place, one after the other:
    [done] holds the entries already moved, [todo] those still to come, and
    the registry an iteration sees is [done ++ todo].  [n] bounds the number
    of iterations; [step] runs them all.  When an iteration raises, the
    bodies moved so far stay moved. *)
Fixpoint step_loop (n : nat) (self : PhysicsEngine) (done todo : registry)
    (updates : list (string * Update)) : registry * result (list (string * Update)) :=
  match n, todo with
  | S n', (body_id, body) :: rest =>
      match (let* f := compute_forces (set_bodies self (done ++ todo)) body in
             integrate self body f) with
      | Ok body' =>
          step_loop n' self (done ++ [(body_id, body')]) rest
            (updates ++ [(body_id, update_of body')])
      | Raise e => (done ++ todo, Raise e)
      end
  | _, _ => (done ++ todo, Ok updates)
  end.

(** [PhysicsEngine.step]: the engine afterwards and the returned updates. *)
Definition step (self : PhysicsEngine)
  : PhysicsEngine * result (list (string * Update)) :=
  let '(bs, r) := step_loop (length (bodies self)) self [] (bodies self) [] in
  (set_bodies self bs, r).

(** Lines 210-212 of [get_nearest_neighbors]: the similarity is [0.0]
    unless both embeddings are present. *)
Definition neighbor_similarity (body other : PhysicsBody) : result R :=
  if truthy (embedding body) && truthy (embedding other) then
    compute_similarity (vector (embedding body)) (vector (embedding other))
  else Ok 0.

(** Lines 203-205: the distance between two bodies, not clamped. *)
Definition distance_between (body other : PhysicsBody) : R :=
  let dx := x other - x body in
  let dy := y other - y body in
  sqrt (dx * dx + dy * dy).

(** The dictionaries [get_nearest_neighbors] returns. *)
Record Neighbor : Type := mkNeighbor {
  n_id : string;
  n_distance : R;
  n_similarity : R;
  n_x : R;
  n_y : R
}.

(** The loop of [get_nearest_neighbors] (lines 199-221). *)
Fixpoint neighbors_loop (body_id : string) (body : PhysicsBody)
    (max_distance min_similarity : R) (items : registry) (neighbors : list Neighbor)
  : result (list Neighbor) :=
  match items with
  | [] => Ok neighbors
  | (other_id, other) :: rest =>
      if String.eqb other_id body_id then
        neighbors_loop body_id body max_distance min_similarity rest neighbors
      else
        let distance := distance_between body other in
        if Rgt_dec distance max_distance then
          neighbors_loop body_id body max_distance min_similarity rest neighbors
        else
          let* similarity := neighbor_similarity body other in
          if Rge_dec similarity min_similarity then
            neighbors_loop body_id body max_distance min_similarity rest
              (neighbors ++ [mkNeighbor other_id distance similarity (x other) (y other)])
          else
            neighbors_loop body_id body max_distance min_similarity rest neighbors
  end.

(** [neighbors.sort(key=lambda n: n["similarity"], reverse=True)]: a stable
    sort, largest similarity first; entries of equal similarity keep their
    order. *)
Fixpoint insert_desc (n : Neighbor) (l : list Neighbor) : list Neighbor :=
  match l with
  | [] => [n]
  | m :: l' =>
      if Rgt_dec (n_similarity m) (n_similarity n) then m :: insert_desc n l'
      else n :: m :: l'
  end.

Definition sort_by_similarity (l : list Neighbor) : list Neighbor :=
  fold_right insert_desc [] l.

(** [PhysicsEngine.get_nearest_neighbors]. *)
Definition get_nearest_neighbors (self : PhysicsEngine) (body_id : string)
    (max_distance min_similarity : R) : result (list Neighbor) :=
  match lookup_body body_id (bodies self) with
  | None => Ok []
  | Some body =>
      let* neighbors :=
        neighbors_loop body_id body max_distance min_similarity (bodies self) [] in
      Ok (sort_by_similarity neighbors)
  end.

(** *** One tick, entry by entry *)

(** What one iteration of [step] does to an entry of the registry: the
    force comes from [compute_forces] on the registry of that moment, and
    the new body is [integrate] of the old one. *)
Definition moved (self : PhysicsEngine) (old new : string * PhysicsBody) : Prop :=
  fst new = fst old /\
  exists (seen : registry) (f v : R * R),
    compute_forces (set_bodies self seen) (snd old) = Ok f /\
    damped_velocity self (snd old) f = Ok v /\
    cap_velocity self (fst v) (snd v) = Ok (vx (snd new), vy (snd new)) /\
    integrate self (snd old) f = Ok (snd new).

(** The registry seen by the iteration of [step] that handles entry [i]:
    the entries before [i] have already been moved. *)
Definition registry_at_turn (self : PhysicsEngine) (i : nat) : registry :=
  fst (step_loop i self [] (bodies self) []).

(** *** Pair forces *)

(** The force [body] receives on account of one other entry: the
    contribution of that iteration of [compute_forces] to the sum. *)
Definition pair_force (self : PhysicsEngine) (body : PhysicsBody)
    (entry : string * PhysicsBody) : result (R * R) :=
  force_on self body (0, 0) entry.

Definition opposite (r : result (R * R)) : result (R * R) :=
  match r with
  | Ok (fx, fy) => Ok (- fx, - fy)
  | Raise e => Raise e
  end.

(** The force entry [i] receives from entry [j] within one call of [step]:
    the pair force at the time entry [i] is handled. *)
Definition force_in_step (self : PhysicsEngine) (i j : nat) : option (result (R * R)) :=
  let seen := registry_at_turn self i in
  match nth_error seen i, nth_error seen j with
  | Some (_, body), Some other => Some (pair_force (set_bodies self seen) body other)
  | _, _ => None
  end.

(** The statement of the design document: within one [step], the force
    [i] receives from [j] is the opposite of the force [j] receives from
    [i]. *)
Definition forces_opposite_within_step : Prop :=
  forall (self : PhysicsEngine) (i j : nat) (fi fj : result (R * R)),
    i <> j ->
    force_in_step self i j = Some fi ->
    force_in_step self j i = Some fj ->
    fj = opposite fi.

(** The distance [geometry] returns: floored at [1]. *)
Definition clamped_distance (body other : PhysicsBody) : R :=
  let dx := x other - x body in
  let dy := y other - y body in
  let distance := sqrt (dx * dx + dy * dy) in
  if Rlt_dec distance 1 then 1 else distance.

(** *** Bodies without a usable embedding *)

Definition no_embedding (body : PhysicsBody) : Prop :=
  truthy (embedding body) = false.

Definition zero_norm_embedding (body : PhysicsBody) : Prop :=
  truthy (embedding body) = true /\ norm (vector (embedding body)) = 0.

(** [np.dot] accepts the two embeddings whenever it is reached. *)
Definition same_dimension (body other : PhysicsBody) : Prop :=
  truthy (embedding other) = true ->
  length (vector (embedding other)) = length (vector (embedding body)).

(** The statement of the design document: a body whose embedding is absent
    or has zero norm has similarity [0] to every other body. *)
Definition degraded_similarity_is_zero : Prop :=
  forall (body other : PhysicsBody) (s : R),
    no_embedding body \/ zero_norm_embedding body ->
    neighbor_similarity body other = Ok s ->
    s = 0.

(** *** Nearest neighbours *)

(** [n] is the record [get_nearest_neighbors] builds for [entry], an entry
    other than [body_id], no farther than [max_distance], whose similarity
    to [body] is related to [min_similarity] by [cmp]. *)
Definition neighbor_of (cmp : R -> R -> Prop) (body_id : string) (body : PhysicsBody)
    (max_distance min_similarity : R) (entry : string * PhysicsBody) (n : Neighbor) : Prop :=
  fst entry <> body_id /\
  distance_between body (snd entry) <= max_distance /\
  exists s,
    neighbor_similarity body (snd entry) = Ok s /\
    cmp s min_similarity /\
    n = mkNeighbor (fst entry) (distance_between body (snd entry)) s
          (x (snd entry)) (y (snd entry)).

(** The two embeddings can be compared: [np.dot] gets equal lengths. *)
Definition comparable (body other : PhysicsBody) : Prop :=
  truthy (embedding body) = true -> truthy (embedding other) = true ->
  length (vector (embedding body)) = length (vector (embedding other)).

Definition descending (a b : Neighbor) : Prop := n_similarity a >= n_similarity b.

(** The statement of the design document: the neighbours are exactly the
    other bodies in range whose similarity exceeds [min_similarity]. *)
Definition neighbors_exceed_min_similarity : Prop :=
  forall (self : PhysicsEngine) (body_id : string) (body : PhysicsBody)
         (max_distance min_similarity : R) (l : list Neighbor),
    lookup_body body_id (bodies self) = Some body ->
    get_nearest_neighbors self body_id max_distance min_similarity = Ok l ->
    forall n, In n l <->
      exists entry, In entry (bodies self) /\
        neighbor_of Rgt body_id body max_distance min_similarity entry n.

(** *** When [step] completes *)

(** The mass and the embedding of a body: what [step] leaves alone. *)
Definition shape (entry : string * PhysicsBody) : R * option (list R) :=
  (mass (snd entry), embedding (snd entry)).

(** A registry [step] cannot fail on: no zero mass, and all the
    embeddings present have one dimension. *)
Definition steppable (shapes : list (R * option (list R))) : Prop :=
  (forall s, In s shapes -> fst s <> 0) /\
  (forall s t, In s shapes -> In t shapes ->
     truthy (snd s) = true -> truthy (snd t) = true ->
     length (vector (snd s)) = length (vector (snd t))).

(** *** The registry as a dictionary *)

(** What a Python [dict] guarantees of the registry, and what [add_body]
    adds to it: no key occurs twice, and every body is stored under its
    own id. *)
Definition well_keyed (bs : registry) : Prop :=
  NoDup (map fst bs) /\ Forall (fun kb => fst kb = id (snd kb)) bs.

(** The calls the application makes on the engine. *)
Inductive command : Type :=
| AddBody (body : PhysicsBody)
| RemoveBody (body_id : string)
| UpdateBodyPosition (body_id : string) (x y : R)
| Step.

Definition exec (c : command) (self : PhysicsEngine) : PhysicsEngine :=
  match c with
  | AddBody body => add_body self body
  | RemoveBody body_id => remove_body self body_id
  | UpdateBodyPosition body_id x' y' => update_body_position self body_id x' y'
  | Step => fst (step self)
  end.

Definition exec_all (cs : list command) (self : PhysicsEngine) : PhysicsEngine :=
  fold_left (fun s c => exec c s) cs self.

(** The constants [__init__] sets. *)
Definition constants (self : PhysicsEngine) : list R :=
  [gravity_strength self; repulsion_strength self; similarity_threshold self;
   max_attraction_distance self; min_repulsion_distance self; damping self;
   max_velocity self; time_step self; cluster_gravity self].

(** The body [update_body_position] leaves at [body_id]. *)
Definition dragged (x' y' : R) (b : PhysicsBody) : PhysicsBody :=
  mkBody (id b) x' y' 0 0 (mass b) (radius b) (embedding b) (cluster_id b).

(** What [step] never touches: the key of an entry and the id, mass,
    radius, embedding and cluster of its body. *)
Definition identity (entry : string * PhysicsBody)
  : string * string * R * R * option (list R) * option string :=
  (fst entry, id (snd entry), mass (snd entry), radius (snd entry),
   embedding (snd entry), cluster_id (snd entry)).

(** The entry of the dictionary [step] returns for an entry of the
    registry. *)
Definition reported (entry : string * PhysicsBody) : string * Update :=
  (fst entry, update_of (snd entry)).

(** *** Bodies out of each other's range *)

(** [other] is too far from [body] for either force: the clamped distance
    reaches both [min_repulsion_distance] and [max_attraction_distance]. *)
Definition out_of_range (self : PhysicsEngine) (body other : PhysicsBody) : Prop :=
  min_repulsion_distance self <= clamped_distance body other /\
  max_attraction_distance self <= clamped_distance body other.

Definition at_rest (body : PhysicsBody) : Prop := vx body = 0 /\ vy body = 0.

(** *** Placing a new item *)

(** An entry of [existing_items]: a dictionary read at ["embedding"] with
    [item.get] and at ["position_x"] and ["position_y"] with [item[...]],
    which raises [KeyError] on a missing key. *)
Record ExistingItem : Type := mkExisting {
  e_embedding : option (list R);
  e_position_x : option R;
  e_position_y : option R
}.

(** Lines 243-247 of [suggest_position_for_new_item]: the similarity of
    every item that has an embedding. *)
Fixpoint similarities_loop (embedding : list R) (items : list ExistingItem)
    (similarities : list (ExistingItem * R)) : result (list (ExistingItem * R)) :=
  match items with
  | [] => Ok similarities
  | item :: rest =>
      if truthy (e_embedding item) then
        let* sim := compute_similarity embedding (vector (e_embedding item)) in
        similarities_loop embedding rest (similarities ++ [(item, sim)])
      else similarities_loop embedding rest similarities
  end.

(** [similarities.sort(key=lambda x: x[1], reverse=True)]: stable, largest
    similarity first. *)
Fixpoint insert_similar (p : ExistingItem * R) (l : list (ExistingItem * R))
  : list (ExistingItem * R) :=
  match l with
  | [] => [p]
  | q :: l' =>
      if Rgt_dec (snd q) (snd p) then q :: insert_similar p l'
      else p :: q :: l'
  end.

Definition sort_similarities (l : list (ExistingItem * R)) : list (ExistingItem * R) :=
  fold_right insert_similar [] l.

(** Lines 259-267: the weighted sums over [top_similar], as
    [(total_weight, x_sum, y_sum)]. *)
Fixpoint weighted_sums (top_similar : list (ExistingItem * R)) (sums : R * R * R)
  : result (R * R * R) :=
  match top_similar with
  | [] => Ok sums
  | (item, similarity) :: rest =>
      let '(total_weight, x_sum, y_sum) := sums in
      let weight := similarity ^ 2 in
      match e_position_x item, e_position_y item with
      | Some position_x, Some position_y =>
          weighted_sums rest
            (total_weight + weight, x_sum + position_x * weight, y_sum + position_y * weight)
      | _, _ => Raise KeyError
      end
  end.


(** [PhysicsEngine.suggest_position_for_new_item].  The two numbers drawn
    with [random.uniform(-50, 50)] are the arguments [jitter_x] and
    [jitter_y]. *)
Definition suggest_position_for_new_item (embedding : list R)
    (existing_items : list ExistingItem) (jitter_x jitter_y : R) : result (R * R) :=
  match existing_items with
  | [] => Ok (0, 0)
  | _ =>
      let* similarities := similarities_loop embedding existing_items [] in
      match similarities with
      | [] => Ok (0, 0)
      | _ =>
          let top_similar := firstn 3 (sort_similarities similarities) in
          let* sums := weighted_sums top_similar (0, 0, 0) in
          let '(total_weight, x_sum, y_sum) := sums in
          if Rgt_dec total_weight 0 then
            let* qx := pydiv x_sum total_weight in
            let* qy := pydiv y_sum total_weight in
            Ok (qx + jitter_x, qy + jitter_y)
          else Ok (0, 0)
      end
  end.


(** *** Example registries *)

(** Two bodies without embeddings, 50 units apart on the x axis, at rest. *)
Definition body_a : PhysicsBody := mkBody "a" 0 0 0 0 1 40 None None.
Definition body_b : PhysicsBody := mkBody "b" 50 0 0 0 1 40 None None.
Definition two_bodies : PhysicsEngine :=
  add_body (add_body init body_a) body_b.

(** The same bodies after one tick. *)
Definition body_a' : PhysicsBody := mkBody "a" (-12.288) 0 (-12.8) 0 1 40 None None.
Definition body_b' : PhysicsBody := mkBody "b" 59.26810112 0 9.654272 0 1 40 None None.

(** The registry as the second iteration sees it: [a] has already moved. *)
Definition after_a : registry := [("a"%string, body_a'); ("b"%string, body_b)].

(** A body whose embedding is the zero vector, and one with a unit vector. *)
Definition body_zero : PhysicsBody := mkBody "z" 0 0 0 0 1 40 (Some [0; 0]) None.
Definition body_unit : PhysicsBody := mkBody "u" 10 0 0 0 1 40 (Some [1; 0]) None.

(** Two bodies without embeddings, 1000 units apart, at rest. *)
Definition body_far : PhysicsBody := mkBody "f" 1000 0 0 0 1 40 None None.
Definition far_apart : PhysicsEngine :=
  add_body (add_body init body_a) body_far.

Definition placed_2 : ExistingItem := mkExisting None (Some 300) (Some 400).

End Physics.

(** ** The physics step in binary64 ([physics_engine.py], lines 82-179) *)

(** [compute_forces] and [step] once more, line by line as in module
    [Physics], with the numbers the program computes with: every [float]
    is an IEEE 754 binary64 number and every operation rounds to nearest. *)
Module Physics64.
Import PrimFloat FloatOps SpecFloat.
#[local] Set Warnings "-inexact-float".
Local Open Scope float_scope.

(** Python's [a / b] on floats: raises on a zero divisor, [0.0] or [-0.0]. *)
Definition pydiv (a b : float) : result float :=
  if b =? 0 then Raise ZeroDivisionError else Ok (a / b).

(** [class PhysicsBody] (a dataclass). *)
Record PhysicsBody : Type := mkBody {
  id : string;
  x : float;
  y : float;
  vx : float;
  vy : float;
  mass : float;
  radius : float;
  embedding : option (list float);
  cluster_id : option string
}.

(** The [PhysicsBody(id=..., x=..., y=...)] of the callers: the other
    fields take the defaults of the dataclass. *)
Definition new_body (id : string) (x y : float) : PhysicsBody :=
  mkBody id x y 0.0 0.0 1.0 40.0 None None.

(** The registry [self.bodies : Dict[str, PhysicsBody]], in insertion order. *)
Definition registry : Type := list (string * PhysicsBody).

(** [class PhysicsEngine]: the attributes set by [__init__]. *)
Record PhysicsEngine : Type := mkEngine {
  gravity_strength : float;
  repulsion_strength : float;
  similarity_threshold : float;
  max_attraction_distance : float;
  min_repulsion_distance : float;
  damping : float;
  max_velocity : float;
  time_step : float;
  cluster_gravity : float;
  bodies : registry
}.

(** [PhysicsEngine.__init__]. *)
Definition init : PhysicsEngine := {|
  gravity_strength := 5000.0;
  repulsion_strength := 2000.0;
  similarity_threshold := 0.7;
  max_attraction_distance := 800.0;
  min_repulsion_distance := 100.0;
  damping := 0.80;
  max_velocity := 15.0;
  time_step := 0.016;
  cluster_gravity := 0.5;
  bodies := []
|}.

Definition set_bodies (self : PhysicsEngine) (bs : registry) : PhysicsEngine := {|
  gravity_strength := gravity_strength self;
  repulsion_strength := repulsion_strength self;
  similarity_threshold := similarity_threshold self;
  max_attraction_distance := max_attraction_distance self;
  min_repulsion_distance := min_repulsion_distance self;
  damping := damping self;
  max_velocity := max_velocity self;
  time_step := time_step self;
  cluster_gravity := cluster_gravity self;
  bodies := bs
|}.

(** [self.bodies[body_id]]. *)
Fixpoint lookup_body (body_id : string) (bs : registry) : option PhysicsBody :=
  match bs with
  | [] => None
  | (k, b) :: rest => if String.eqb k body_id then Some b else lookup_body body_id rest
  end.

(** [self.bodies[key] = body]: an existing key keeps its place. *)
Fixpoint assign (key : string) (body : PhysicsBody) (bs : registry) : registry :=
  match bs with
  | [] => [(key, body)]
  | (k, b) :: rest =>
      if String.eqb k key then (k, body) :: rest else (k, b) :: assign key body rest
  end.

(** [PhysicsEngine.add_body]. *)
Definition add_body (self : PhysicsEngine) (body : PhysicsBody) : PhysicsEngine :=
  set_bodies self (assign (id body) body (bodies self)).

(** The truth value of [body.embedding]: [None] and [[]] are false. *)
Definition truthy (emb : option (list float)) : bool :=
  match emb with
  | Some (_ :: _) => true
  | _ => false
  end.

Definition vector (emb : option (list float)) : list float :=
  match emb with
  | Some v => v
  | None => []
  end.

(** [PhysicsEngine.compute_similarity] is NumPy's work ([np.dot],
    [np.linalg.norm]); the step takes whatever it returns. *)
Class NumPy : Type := {
  compute_similarity : list float -> list float -> result float
}.

Section Engine.
Context {np : NumPy}.

(** One iteration of [for other_id, other in self.bodies.items()]
    (lines 92-128). *)
Definition force_on (self : PhysicsEngine) (body : PhysicsBody) (f : float * float)
    (entry : string * PhysicsBody) : result (float * float) :=
  let '(fx, fy) := f in
  let '(other_id, other) := entry in
  if String.eqb other_id (id body) then Ok (fx, fy)
  else
    let dx := x other - x body in
    let dy := y other - y body in
    let distance := sqrt (dx * dx + dy * dy) in
    let distance := if distance <? 1.0 then 1.0 else distance in
    let* ux := pydiv dx distance in
    let* uy := pydiv dy distance in
    let* f1 :=
      if distance <? min_repulsion_distance self then
        let* q := pydiv distance (min_repulsion_distance self) in
        let repulsion_force := repulsion_strength self * (1 - q) in
        Ok (fx - ux * repulsion_force, fy - uy * repulsion_force)
      else Ok (fx, fy) in
    let '(fx, fy) := f1 in
    if truthy (embedding body) && truthy (embedding other)
       && (distance <? max_attraction_distance self)
    then
      let* similarity :=
        compute_similarity (vector (embedding body)) (vector (embedding other)) in
      if similarity_threshold self <? similarity then
        let* g := pydiv (gravity_strength self * (similarity - similarity_threshold self))
                    (1 - similarity_threshold self) in
        let* q := pydiv distance (max_attraction_distance self) in
        let attraction_force := g * (1 - q) in
        Ok (fx + ux * attraction_force, fy + uy * attraction_force)
      else Ok (fx, fy)
    else Ok (fx, fy).

Fixpoint compute_forces_loop (self : PhysicsEngine) (body : PhysicsBody)
    (items : registry) (f : float * float) : result (float * float) :=
  match items with
  | [] => Ok f
  | entry :: rest =>
      let* f' := force_on self body f entry in
      compute_forces_loop self body rest f'
  end.

(** [PhysicsEngine.compute_forces]. *)
Definition compute_forces (self : PhysicsEngine) (body : PhysicsBody)
  : result (float * float) :=
  compute_forces_loop self body (bodies self) (0.0, 0.0).

(** Lines 146-155 of [step]: the velocity of [body] after the force is
    applied and damped. *)
Definition damped_velocity (self : PhysicsEngine) (body : PhysicsBody) (f : float * float)
  : result (float * float) :=
  let '(fx, fy) := f in
  let* ax := pydiv fx (mass body) in
  let* ay := pydiv fy (mass body) in
  let vx1 := vx body + ax * time_step self in
  let vy1 := vy body + ay * time_step self in
  Ok (vx1 * damping self, vy1 * damping self).

(** Lines 158-165 of [step], "Cap velocity and Stop if slow". *)
Definition cap_velocity (self : PhysicsEngine) (vx' vy' : float) : result (float * float) :=
  let velocity := sqrt (vx' * vx' + vy' * vy') in
  if velocity <? 0.1 then Ok (0.0, 0.0)
  else if max_velocity self <? velocity then
    let* scale := pydiv (max_velocity self) velocity in
    Ok (vx' * scale, vy' * scale)
  else Ok (vx', vy').

(** Lines 146-169 of [step]: what one iteration does to [body]. *)
Definition integrate (self : PhysicsEngine) (body : PhysicsBody) (f : float * float)
  : result PhysicsBody :=
  let* v := damped_velocity self body f in
  let* w := cap_velocity self (fst v) (snd v) in
  let '(vx', vy') := w in
  Ok (mkBody (id body)
        (x body + vx' * time_step self * 60)
        (y body + vy' * time_step self * 60)
        vx' vy' (mass body) (radius body) (embedding body) (cluster_id body)).

(** An entry of the dictionary [step] returns. *)
Record Update : Type := mkUpdate {
  u_x : float;
  u_y : float;
  u_vx : float;
  u_vy : float
}.

Definition update_of (b : PhysicsBody) : Update :=
  mkUpdate (x b) (y b) (vx b) (vy b).

(** The loop of [step]: bodies are updated in place, one after the other,
    and the registry an iteration sees is [done ++ todo]. *)
Fixpoint step_loop (n : nat) (self : PhysicsEngine) (done todo : registry)
    (updates : list (string * Update)) : registry * result (list (string * Update)) :=
  match n, todo with
  | S n', (body_id, body) :: rest =>
      match (let* f := compute_forces (set_bodies self (done ++ todo)) body in
             integrate self body f) with
      | Ok body' =>
          step_loop n' self (done ++ [(body_id, body')]) rest
            (updates ++ [(body_id, update_of body')])
      | Raise e => (done ++ todo, Raise e)
      end
  | _, _ => (done ++ todo, Ok updates)
  end.

(** [PhysicsEngine.step]: the engine afterwards and the returned updates. *)
Definition step (self : PhysicsEngine)
  : PhysicsEngine * result (list (string * Update)) :=
  let '(bs, r) := step_loop (length (bodies self)) self [] (bodies self) [] in
  (set_bodies self bs, r).

(** The speed of a body as line 158 computes it. *)
Definition speed (b : PhysicsBody) : float := sqrt (vx b * vx b + vy b * vy b).

End Engine.

(** The rational number a finite float is: [m * 2^e], with its sign. *)
Definition exact (f : float) : option QArith_base.Q :=
  match Prim2SF f with
  | S754_zero _ => Some (QArith_base.inject_Z 0)
  | S754_finite s m e =>
      Some (QArith_base.Qmult
              (QArith_base.inject_Z (if s then Z.neg m else Z.pos m))
              (QArith_base.Qpower (QArith_base.inject_Z 2) e))
  | S754_infinity _ | S754_nan => None
  end.

(** *** Two bodies close to each other *)

(** Bodies without embeddings never ask for a similarity. *)
Definition no_embeddings : NumPy := {| compute_similarity := fun _ _ => Raise TypeError |}.

Definition body_a : PhysicsBody := new_body "a" 0.0 0.0.
Definition body_b : PhysicsBody := new_body "b" 1.0 6.0.

(** [engine = PhysicsEngine(); engine.add_body(a); engine.add_body(b)]. *)
Definition close_pair : PhysicsEngine := add_body (add_body init body_a) body_b.

(** The two bodies after one [step]. *)
Definition body_a' : PhysicsBody :=
  mkBody "a" (-2.3673454171971451) (-14.204072503182873)
    (-2.4659848095803594) (-14.795908857482159) 1.0 40.0 None None.

Definition body_b' : PhysicsBody :=
  mkBody "b" 3.3673454171971451 20.204072503182871
    2.4659848095803594 14.795908857482157 1.0 40.0 None None.

End Physics64.

(** ** The clustering service ([clustering_service.py]) and its request
    schema ([cluster_routes.py]) *)

Module Clustering.
Import RealAux.
Local Open Scope R_scope.

(** [class Cluster] (a dataclass). *)
Record Cluster : Type := mkCluster {
  id : string;
  name : string;
  color : string;
  center_x : R;
  center_y : R;
  radius : R;
  item_ids : list string;
  keywords : list string
}.

Definition CLUSTER_COLORS : list string :=
  ["#FF6B6B"; "#4ECDC4"; "#45B7D1"; "#96CEB4"; "#FFEAA7";
   "#DDA0DD"; "#98D8C8"; "#F7DC6F"; "#BB8FCE"; "#85C1E9"]%string.

(** An item dictionary: ['id'] is read with [item['id']], the other keys
    with [item.get], so they may be absent. *)
Record Item : Type := mkItem {
  item_id : string;
  content : option string;
  title : option string;
  position_x : option R;
  position_y : option R
}.

(** [class ClusteringService]: the attributes set by [__init__]. *)
Record ClusteringService : Type := mkService {
  algorithm : string;
  eps : R;
  min_samples : Z;
  n_clusters : option Z
}.

(** [ClusteringService()] with the default arguments. *)
Definition default_service : ClusteringService := mkService "dbscan" 0.5 2 None.

(** The calls into scikit-learn a run makes, in order. *)
Inductive call : Type :=
| StandardScaler_fit_transform
| DBSCAN_fit_predict (eps : R) (min_samples : Z)
| KMeans_fit_predict (n_clusters : Z).

(** [str.capitalize] on ASCII text. *)
Definition is_lower (c : ascii) : bool :=
  (97 <=? nat_of_ascii c)%nat && (nat_of_ascii c <=? 122)%nat.
Definition is_upper (c : ascii) : bool :=
  (65 <=? nat_of_ascii c)%nat && (nat_of_ascii c <=? 90)%nat.
Definition to_upper (c : ascii) : ascii :=
  if is_lower c then ascii_of_nat (nat_of_ascii c - 32) else c.
Definition to_lower (c : ascii) : ascii :=
  if is_upper c then ascii_of_nat (nat_of_ascii c + 32) else c.

Fixpoint lower (s : string) : string :=
  match s with
  | EmptyString => EmptyString
  | String c s' => String (to_lower c) (lower s')
  end.

Definition capitalize (s : string) : string :=
  match s with
  | EmptyString => EmptyString
  | String c s' => String (to_upper c) (lower s')
  end.

(** [ClusteringService._generate_cluster_name]. *)
Definition _generate_cluster_name (keywords : list string) : string :=
  match keywords with
  | [] => "Miscellaneous"%string
  | _ =>
      let name_words := firstn 3 keywords in
      String.concat " & " (map capitalize name_words)
  end.

(** [[items[i] for i in range(len(items)) if labels[i] == label]]:
    [labels[i]] raises when there are fewer labels than items. *)
Fixpoint select_items (items : list Item) (labels : list Z) (label : Z)
  : result (list Item) :=
  match items with
  | [] => Ok []
  | item :: items' =>
      match labels with
      | [] => Raise IndexError
      | l :: labels' =>
          let* rest := select_items items' labels' label in
          Ok (if (l =? label)%Z then item :: rest else rest)
      end
  end.

(** [item.get('position_x', 0), item.get('position_y', 0)]. *)
Definition position (item : Item) : R * R :=
  (default 0 (position_x item), default 0 (position_y item)).

(** [sum(...) / len(positions)]. *)
Definition mean (values : list R) : result R :=
  pydiv (fold_left Rplus values 0) (INR (length values)).

(** Python's [max] of a sequence: the empty sequence raises. *)
Fixpoint max_from (current : R) (values : list R) : R :=
  match values with
  | [] => current
  | v :: rest => max_from (if Rgt_dec v current then v else current) rest
  end.

Definition py_max (values : list R) : result R :=
  match values with
  | [] => Raise ValueError
  | v :: rest => Ok (max_from v rest)
  end.

(** [np.sqrt((p[0] - center_x)**2 + (p[1] - center_y)**2)]. *)
Definition distance_to (center_x center_y : R) (p : R * R) : R :=
  sqrt ((fst p - center_x) ^ 2 + (snd p - center_y) ^ 2).

(** What the service relies on and this development takes as given:
    scikit-learn's scaler and its two clusterers, which return one label
    per row or raise; the order in which Python iterates over
    [set(labels)]; and [ClusteringService._extract_keywords], on which the
    geometry of a cluster does not depend (it raises [TypeError] on an
    item whose content or title is [None]). *)
Class Environment : Type := {
  fit_transform : list (list R) -> result (list (list R));
  dbscan_fit_predict : R -> Z -> list (list R) -> result (list Z);
  kmeans_fit_predict : Z -> list (list R) -> result (list Z);
  unique_labels : list Z -> list Z;
  _extract_keywords : list Item -> result (list string)
}.

Section Service.

Context {env : Environment}.

(** [ClusteringService._dbscan_cluster]. *)
Definition _dbscan_cluster (self : ClusteringService) (X : list (list R))
  : list call * result (list Z) :=
  ([DBSCAN_fit_predict (eps self) (min_samples self)],
   dbscan_fit_predict (eps self) (min_samples self) X).

(** [ClusteringService._kmeans_cluster]. *)
Definition _kmeans_cluster (self : ClusteringService) (X : list (list R)) (n_items : nat)
  : list call * result (list Z) :=
  let auto := Z.min (Z.max 2 (Z.of_nat n_items / 5)) 10 in
  let n_clusters :=
    match n_clusters self with
    | Some k => if (k =? 0)%Z then auto else k
    | None => auto
    end in
  ([KMeans_fit_predict n_clusters], kmeans_fit_predict n_clusters X).

(** One iteration of the loop of [_build_clusters]: [None] when the label
    is skipped. *)
Definition build_cluster (items : list Item) (labels : list Z)
    (label_idx : nat) (label : Z) : result (option Cluster) :=
  if (label =? -1)%Z then Ok None
  else
    let* cluster_items := select_items items labels label in
    if (length cluster_items <? 2)%nat then Ok None
    else
      let positions := map position cluster_items in
      let* center_x := mean (map fst positions) in
      let* center_y := mean (map snd positions) in
      let* max_dist := py_max (map (distance_to center_x center_y) positions) in
      let radius := max_dist + 100 in
      let* keywords := _extract_keywords cluster_items in
      let cluster_name := _generate_cluster_name keywords in
      Ok (Some
            (mkCluster
               ("cluster-" +:+ pretty label)
               cluster_name
               (nth (label_idx mod length CLUSTER_COLORS) CLUSTER_COLORS ""%string)
               center_x center_y radius
               (map item_id cluster_items)
               (firstn 5 keywords))).

Fixpoint build_loop (items : list Item) (labels : list Z) (label_idx : nat)
    (todo : list Z) (clusters : list Cluster) : result (list Cluster) :=
  match todo with
  | [] => Ok clusters
  | label :: rest =>
      let* c := build_cluster items labels label_idx label in
      build_loop items labels (S label_idx) rest
        (match c with
         | Some cluster => clusters ++ [cluster]
         | None => clusters
         end)
  end.

(** [ClusteringService._build_clusters]. *)
Definition _build_clusters (items : list Item) (labels : list Z) : result (list Cluster) :=
  build_loop items labels 0 (unique_labels labels) [].

(** [ClusteringService.compute_clusters]: the scikit-learn calls made, and
    the clusters returned. *)
Definition compute_clusters (self : ClusteringService) (items : list Item)
    (embeddings : list (list R)) : list call * result (list Cluster) :=
  if (length items <? 2)%nat || (length embeddings <? 2)%nat then ([], Ok [])
  else
    let X := embeddings in
    match fit_transform X with
    | Raise e => ([StandardScaler_fit_transform], Raise e)
    | Ok X_scaled =>
        let '(calls, labels) :=
          if String.eqb (algorithm self) "dbscan" then _dbscan_cluster self X_scaled
          else _kmeans_cluster self X_scaled (length items) in
        (StandardScaler_fit_transform :: calls,
         let* labels := labels in _build_clusters items labels)
    end.

(** *** The request schema and the endpoint ([cluster_routes.py]) *)

(** The patterns the schema uses: literals and alternatives, anchored at
    both ends. *)
Inductive pattern : Type :=
| Lit (s : string)
| Alt (p q : pattern).

Fixpoint full_match (p : pattern) (s : string) : bool :=
  match p with
  | Lit l => String.eqb l s
  | Alt p1 p2 => full_match p1 s || full_match p2 s
  end.

(** [r"^(dbscan|kmeans)$"]. *)
Definition algorithm_pattern : pattern := Alt (Lit "dbscan") (Lit "kmeans").

(** The body of a request as it arrives: every field may be left out. *)
Record RequestBody : Type := mkBody {
  body_algorithm : option string;
  body_eps : option R;
  body_min_samples : option Z;
  body_n_clusters : option Z;
  body_use_llm_naming : option bool
}.

(** [class ComputeClustersRequest]: a validated request. *)
Record ComputeClustersRequest : Type := mkRequest {
  req_algorithm : string;
  req_eps : R;
  req_min_samples : Z;
  req_n_clusters : option Z;
  req_use_llm_naming : bool
}.

(** Validation against the [Field] constraints of [ComputeClustersRequest]:
    defaults for missing fields, then [pattern], [ge] and [le]. *)
Definition validate (body : RequestBody) : option ComputeClustersRequest :=
  let algorithm := default "dbscan"%string (body_algorithm body) in
  let eps := default 0.5 (body_eps body) in
  let min_samples := default 2%Z (body_min_samples body) in
  let n_clusters := body_n_clusters body in
  let use_llm_naming := default false (body_use_llm_naming body) in
  if full_match algorithm_pattern algorithm
     && (if Rle_dec 0.1 eps then true else false)
     && (if Rle_dec eps 2.0 then true else false)
     && (2 <=? min_samples)%Z && (min_samples <=? 10)%Z
     && match n_clusters with
        | Some k => (2 <=? k)%Z && (k <=? 20)%Z
        | None => true
        end
  then Some (mkRequest algorithm eps min_samples n_clusters use_llm_naming)
  else None.

(** What the endpoint answers. *)
Inductive response : Type :=
| Unprocessable              (* 422: the body fails validation *)
| BadRequest                 (* 400: fewer than two items with embeddings *)
| ServerError (e : exn)      (* the service raised *)
| Computed (clusters : list Cluster).

(** The handler [compute_clusters] of [cluster_routes.py], from the items
    and embeddings the database returned.  Storing the clusters and the
    optional renaming by a language model are not modelled. *)
Definition handler (request : ComputeClustersRequest) (items : list Item)
    (embeddings : list (list R)) : list call * response :=
  if (length items <? 2)%nat then ([], BadRequest)
  else
    let service :=
      mkService (req_algorithm request) (req_eps request) (req_min_samples request)
        (req_n_clusters request) in
    let '(calls, computed_clusters) := compute_clusters service items embeddings in
    (calls,
     match computed_clusters with
     | Ok clusters => Computed clusters
     | Raise e => ServerError e
     end).

(** The endpoint [POST /api/clusters/workspace/{workspace_id}/compute]:
    the body is validated before the handler is entered. *)
Definition compute_clusters_route (body : RequestBody) (items : list Item)
    (embeddings : list (list R)) : list call * response :=
  match validate body with
  | None => ([], Unprocessable)
  | Some request => handler request items embeddings
  end.

(** [d] is the largest of [values]. *)
Definition is_maximum (d : R) (values : list R) : Prop :=
  In d values /\ forall v, In v values -> v <= d.

(** What [_build_clusters] promises about a cluster [c] it returns for
    [items] labelled by [labels]: its members are the items of one label
    (not the noise label), at least two; its centre is the mean of their
    canvas positions; and its radius is the largest distance [d] of a
    member from that centre, plus [100]. *)
Definition cluster_geometry (items : list Item) (labels : list Z) (c : Cluster) : Prop :=
  exists (label : Z) (members : list Item) (d : R),
    label <> (-1)%Z /\
    select_items items labels label = Ok members /\
    (2 <= length members)%nat /\
    item_ids c = map item_id members /\
    mean (map fst (map position members)) = Ok (center_x c) /\
    mean (map snd (map position members)) = Ok (center_y c) /\
    is_maximum d (map (distance_to (center_x c) (center_y c)) (map position members)) /\
    radius c = d + 100 /\
    radius c >= d.

End Service.

(** *** What the schemas let through *)

(** The arguments within the bounds of [ComputeClustersRequest]: [eps]
    between [0.1] and [2.0], [min_samples] between [2] and [10],
    [n_clusters] between [2] and [20]. *)
Definition call_in_bounds (c : call) : Prop :=
  match c with
  | StandardScaler_fit_transform => True
  | DBSCAN_fit_predict eps min_samples => 0.1 <= eps <= 2 /\ (2 <= min_samples <= 10)%Z
  | KMeans_fit_predict n_clusters => (2 <= n_clusters <= 20)%Z
  end.

(** [r"^#[0-9A-Fa-f]{6}$"], the pattern [ClusterCreate] and [ClusterUpdate]
    put on a colour. *)
Definition is_hex_digit (c : ascii) : bool :=
  let n := nat_of_ascii c in
  ((48 <=? n)%nat && (n <=? 57)%nat)
  || ((65 <=? n)%nat && (n <=? 70)%nat)
  || ((97 <=? n)%nat && (n <=? 102)%nat).

Definition color_pattern (s : string) : bool :=
  match s with
  | String "#" digits =>
      (String.length digits =? 6)%nat && forallb is_hex_digit (list_ascii_of_string digits)
  | _ => false
  end.

(** What Python guarantees of [set(labels)]: every label once, and no
    others. *)
Definition is_set_of (unique labels : list Z) : Prop :=
  NoDup unique /\ forall l, In l unique <-> In l labels.

(** *** Worked examples, with stand-ins for scikit-learn *)

Definition scaler_stub (X : list (list R)) : result (list (list R)) := Ok X.
Definition dbscan_stub (eps : R) (min_samples : Z) (X : list (list R)) : result (list Z) :=
  Ok (map (fun _ => 0%Z) X).
Definition kmeans_stub (n_clusters : Z) (X : list (list R)) : result (list Z) :=
  Ok (map (fun _ => 0%Z) X).
Definition keywords_stub (items : list Item) : result (list string) := Ok [].

Definition stubs : Environment := {|
  fit_transform := scaler_stub;
  dbscan_fit_predict := dbscan_stub;
  kmeans_fit_predict := kmeans_stub;
  unique_labels := remove_dups;
  _extract_keywords := keywords_stub
|}.

Definition item_1 : Item := mkItem "1" (Some "a"%string) (Some "A"%string) (Some 0) (Some 0).
Definition item_2 : Item := mkItem "2" (Some "a"%string) (Some "B"%string) (Some 6) (Some 8).

Definition cluster_0 : Cluster :=
  mkCluster "cluster-0" "Miscellaneous" "#FF6B6B" 3 4 105 ["1"; "2"]%string [].

End Clustering.

(** ** The socket manager ([socket_manager.py]) *)

Module Sockets.

(** A JSON value carried through unchanged. *)
Definition json : Type := string.

(** A string or JSON [null] (Python [None]). *)
Definition nullable : Type := option string.

(** An entry of [self.user_info]: ['connected_at'] and ['workspace_id']
    are set on connect; the key ['user_name'] is absent until the first
    join, which stores the value the client sent, [null] included. *)
Record UserInfo : Type := mkInfo {
  connected_at : string;
  workspace_id : option string;
  user_name : option nullable
}.

(** [class SocketManager].  [rooms] is the room table of the Socket.IO
    server [self.sio]: the rooms entered with [enter_room] and, for every
    connection, the room named by its own id, which the server enters
    for it when it connects. *)
Record SocketManager : Type := mkManager {
  workspace_users : gmap string (gset string);
  user_info : gmap string UserInfo;
  rooms : gmap string (gset string);
  is_running : bool
}.

(** [SocketManager.__init__]. *)
Definition init : SocketManager := mkManager ∅ ∅ ∅ false.

(** What the handlers send. *)
Inductive payload : Type :=
| UserJoined (user_id : string) (user_name : nullable) (timestamp : string)
| UserLeft (user_id : string)
| ItemCreated (item : option json) (created_by timestamp : string)
| ItemUpdated (item_id updates : option json) (updated_by timestamp : string)
| ItemDeleted (item_id : option json) (deleted_by timestamp : string)
| ItemMoved (item_id x y : option json) (moved_by timestamp : string)
| CursorMove (user_id : string) (user_name : nullable) (x y : option json)
    (timestamp : string).

(** One call of [self.sio.emit(event, data, room=..., skip_sid=...)],
    with the connections it is delivered to. *)
Record emission : Type := mkEmission {
  em_event : string;
  em_data : payload;
  em_room : string;
  em_skip_sid : option string;
  em_to : gset string
}.

(** The truth value Python gives an optional string: [None] and [""] are
    false. *)
Definition truthy (o : option string) : option string :=
  match o with
  | Some s => if String.eqb s "" then None else Some s
  | None => None
  end.

(** The members of a workspace room, and of a Socket.IO room. *)
Definition members (self : SocketManager) (workspace : string) : gset string :=
  default ∅ (workspace_users self !! workspace).

Definition room (self : SocketManager) (name : string) : gset string :=
  default ∅ (rooms self !! name).

(** [self.user_info.get(sid, {}).get('workspace_id')]. *)
Definition current_workspace (self : SocketManager) (sid : string) : option string :=
  match user_info self !! sid with
  | Some info => workspace_id info
  | None => None
  end.

(** [self.user_info.get(uid, {}).get('user_name', 'Anonymous')]: the
    default stands in for a missing key only, not for a stored [null]. *)
Definition name_of (self : SocketManager) (uid : string) : nullable :=
  match user_info self !! uid with
  | Some info => default (Some "Anonymous"%string) (user_name info)
  | None => Some "Anonymous"%string
  end.

(** *** The Socket.IO server *)

Definition enter_room (sid name : string) (table : gmap string (gset string))
  : gmap string (gset string) :=
  <[name := {[sid]} ∪ default ∅ (table !! name)]> table.

Definition leave_room (sid name : string) (table : gmap string (gset string))
  : gmap string (gset string) :=
  match table !! name with
  | Some users => <[name := users ∖ {[sid]}]> table
  | None => table
  end.

(** On disconnection the server takes the connection out of every room. *)
Definition close_rooms (sid : string) (table : gmap string (gset string))
  : gmap string (gset string) :=
  (λ users, users ∖ {[sid]}) <$> table.

(** [await self.sio.emit(event, data, room=name, skip_sid=skip)]. *)
Definition emit (self : SocketManager) (event : string) (data : payload)
    (name : string) (skip : option string) : emission :=
  mkEmission event data name skip
    (room self name ∖ match skip with Some sid => {[sid]} | None => ∅ end).

(** *** The handlers *)

(** [self.workspace_users[workspace].discard(sid)], for a workspace known
    to be a key, and [.add(sid)] after the key is created if missing. *)
Definition discard_user (sid workspace : string) (table : gmap string (gset string))
  : gmap string (gset string) :=
  match table !! workspace with
  | Some users => <[workspace := users ∖ {[sid]}]> table
  | None => table
  end.

Definition add_user (sid workspace : string) (table : gmap string (gset string))
  : gmap string (gset string) :=
  <[workspace := default ∅ (table !! workspace) ∪ {[sid]}]> table.

Definition set_workspace (w : option string) (info : UserInfo) : UserInfo :=
  mkInfo (connected_at info) w (user_name info).

(** [connect(sid, environ)]. *)
Definition connect (sid now : string) (self : SocketManager) : SocketManager :=
  mkManager (workspace_users self)
    (<[sid := mkInfo now None None]> (user_info self))
    (rooms self) (is_running self).

(** What the server does when a connection is opened: it enters the
    connection into the room named by its id, then the handler runs. *)
Definition on_connect (sid now : string) (self : SocketManager) : SocketManager :=
  connect sid now
    (mkManager (workspace_users self) (user_info self)
       (enter_room sid sid (rooms self)) (is_running self)).

(** [disconnect(sid)]. *)
Definition disconnect (sid : string) (self : SocketManager)
  : SocketManager * list emission :=
  let workspace_id := current_workspace self sid in
  let '(users, sent) :=
    match truthy workspace_id with
    | Some w =>
        if decide (is_Some (workspace_users self !! w)) then
          let users := discard_user sid w (workspace_users self) in
          (users,
           [emit (mkManager users (user_info self) (rooms self) (is_running self))
              "user_left" (UserLeft sid) w (Some sid)])
        else (workspace_users self, [])
    | None => (workspace_users self, [])
    end in
  (mkManager users (delete sid (user_info self)) (rooms self) (is_running self), sent).

(** What the server does when a connection goes away: the handler runs,
    then the connection is taken out of every room. *)
Definition on_disconnect (sid : string) (self : SocketManager)
  : SocketManager * list emission :=
  let '(self', sent) := disconnect sid self in
  (mkManager (workspace_users self') (user_info self')
     (close_rooms sid (rooms self')) (is_running self'),
   sent).

(** The [data] of [join_workspace] and [leave_workspace]: each key may be
    missing; ['user_name'] may also be present and [null]. *)
Record JoinData : Type := mkJoinData {
  join_workspace_id : option string;
  join_user_name : option nullable
}.

Inductive join_reply : Type :=
| JoinError (error : string)
| JoinSuccess (workspace_id : string) (other_users : list (string * nullable)).

(** Lines 120-124 of [join_workspace], "Leave previous workspace": the
    member sets and the Socket.IO rooms afterwards. *)
Definition leave_previous (sid : string) (self : SocketManager)
  : gmap string (gset string) * gmap string (gset string) :=
  let old_workspace := current_workspace self sid in
  match truthy old_workspace with
  | Some old =>
      if decide (is_Some (workspace_users self !! old)) then
        (discard_user sid old (workspace_users self), leave_room sid old (rooms self))
      else (workspace_users self, rooms self)
  | None => (workspace_users self, rooms self)
  end.

(** [join_workspace(sid, data)].  Writing [self.user_info[sid]] raises
    [KeyError] for an unknown [sid], after the rooms were changed. *)
Definition join_workspace (sid : string) (data : JoinData) (now : string)
    (self : SocketManager) : SocketManager * list emission * result join_reply :=
  let workspace_id := join_workspace_id data in
  let user_name := default (Some "Anonymous"%string) (join_user_name data) in
  match truthy workspace_id with
  | None => (self, [], Ok (JoinError "workspace_id required"))
  | Some workspace_id =>
      let table := enter_room sid workspace_id (leave_previous sid self).2 in
      let users := add_user sid workspace_id (leave_previous sid self).1 in
      match user_info self !! sid with
      | None =>
          (mkManager users (user_info self) table (is_running self), [], Raise KeyError)
      | Some info =>
          let info := mkInfo (connected_at info) (Some workspace_id) (Some user_name) in
          let self' :=
            mkManager users (<[sid := info]> (user_info self)) table (is_running self) in
          let sent :=
            [emit self' "user_joined" (UserJoined sid user_name now) workspace_id (Some sid)] in
          let other_users :=
            map (λ uid, (uid, name_of self' uid))
              (filter (λ uid, uid ≠ sid) (elements (members self' workspace_id))) in
          (self', sent, Ok (JoinSuccess workspace_id other_users))
      end
  end.

(** [leave_workspace(sid, data)]: the room left is the one named in
    [data]; the recorded workspace is cleared whatever it was. *)
Definition leave_workspace (sid : string) (data : JoinData) (self : SocketManager)
  : SocketManager * list emission * result unit :=
  let workspace_id := join_workspace_id data in
  let left :=
    match truthy workspace_id with
    | Some w =>
        if decide (is_Some (workspace_users self !! w)) then
          let users := discard_user sid w (workspace_users self) in
          let table := leave_room sid w (rooms self) in
          (mkManager users (user_info self) table (is_running self),
           [emit (mkManager users (user_info self) table (is_running self))
              "user_left" (UserLeft sid) w (Some sid)])
        else (self, [])
    | None => (self, [])
    end in
  match user_info self !! sid with
  | None => (left.1, left.2, Raise KeyError)
  | Some info =>
      (mkManager (workspace_users left.1)
         (<[sid := set_workspace None info]> (user_info self))
         (rooms left.1) (is_running self),
       left.2, Ok tt)
  end.

(** The [data] of the point events. *)
Record EventData : Type := mkEventData {
  data_item : option json;
  data_item_id : option json;
  data_updates : option json;
  data_x : option json;
  data_y : option json
}.

(** The shared shape of the five relays: send to the sender's workspace,
    skipping the sender; do nothing when no workspace is recorded. *)
Definition relay (event : string) (data : payload) (sid : string) (self : SocketManager)
  : list emission :=
  match truthy (current_workspace self sid) with
  | Some workspace_id => [emit self event data workspace_id (Some sid)]
  | None => []
  end.

(** [item_created(sid, data)]. *)
Definition item_created (sid : string) (data : EventData) (now : string)
    (self : SocketManager) : list emission :=
  relay "item_created" (ItemCreated (data_item data) sid now) sid self.

(** [item_updated(sid, data)]. *)
Definition item_updated (sid : string) (data : EventData) (now : string)
    (self : SocketManager) : list emission :=
  relay "item_updated" (ItemUpdated (data_item_id data) (data_updates data) sid now) sid self.

(** [item_deleted(sid, data)]. *)
Definition item_deleted (sid : string) (data : EventData) (now : string)
    (self : SocketManager) : list emission :=
  relay "item_deleted" (ItemDeleted (data_item_id data) sid now) sid self.

(** [item_moved(sid, data)]. *)
Definition item_moved (sid : string) (data : EventData) (now : string)
    (self : SocketManager) : list emission :=
  relay "item_moved" (ItemMoved (data_item_id data) (data_x data) (data_y data) sid now)
    sid self.

(** [cursor_move(sid, data)]. *)
Definition cursor_move (sid : string) (data : EventData) (now : string)
    (self : SocketManager) : list emission :=
  relay "cursor_move" (CursorMove sid (name_of self sid) (data_x data) (data_y data) now)
    sid self.

(** [SocketManager.broadcast_to_workspace]. *)
Definition broadcast_to_workspace (self : SocketManager) (workspace_id event : string)
    (data : payload) : emission :=
  emit self event data workspace_id None.

(** *** Runs of the manager *)

Inductive point_event : Type :=
| OnItemCreated
| OnItemUpdated
| OnItemDeleted
| OnItemMoved
| OnCursorMove.

Definition handle_point_event (ev : point_event)
  : string -> EventData -> string -> SocketManager -> list emission :=
  match ev with
  | OnItemCreated => item_created
  | OnItemUpdated => item_updated
  | OnItemDeleted => item_deleted
  | OnItemMoved => item_moved
  | OnCursorMove => cursor_move
  end.

(** The events the Socket.IO server delivers to the manager. *)
Inductive op : Type :=
| Connect (sid now : string)
| Disconnect (sid : string)
| Join (sid : string) (data : JoinData) (now : string)
| Leave (sid : string) (data : JoinData)
| Point (ev : point_event) (sid : string) (data : EventData) (now : string).

Definition step (o : op) (self : SocketManager) : SocketManager * list emission :=
  match o with
  | Connect sid now => (on_connect sid now self, [])
  | Disconnect sid => on_disconnect sid self
  | Join sid data now => fst (join_workspace sid data now self)
  | Leave sid data => fst (leave_workspace sid data self)
  | Point ev sid data now => (self, handle_point_event ev sid data now self)
  end.

Definition run (ops : list op) (self : SocketManager) : SocketManager :=
  fold_left (λ st o, fst (step o st)) ops self.

Definition connected (self : SocketManager) (sid : string) : Prop :=
  is_Some (user_info self !! sid).

(** A connection id the server has never handed out. *)
Definition fresh (self : SocketManager) (sid : string) : Prop :=
  user_info self !! sid = None /\
  forall w, (sid ∉ members self w) /\ (sid ∉ room self w).

(** What the server guarantees: a new connection gets a fresh id, and the
    other events come from connections that are open. *)
Definition allowed (o : op) (self : SocketManager) : Prop :=
  match o with
  | Connect sid _ => fresh self sid
  | Disconnect sid | Join sid _ _ | Leave sid _ | Point _ sid _ _ => connected self sid
  end.

Inductive reachable : SocketManager -> Prop :=
| reachable_init : reachable init
| reachable_step (self : SocketManager) (o : op) :
    reachable self -> allowed o self -> reachable (fst (step o self)).

(** The live members of a workspace room: the connections in its member
    set that are still open. *)
Definition live_member (self : SocketManager) (workspace sid : string) : Prop :=
  sid ∈ members self workspace /\ connected self sid.

(** The Socket.IO rooms follow the member sets: a live member of a
    workspace is in its room; whoever is in a room is an open connection
    and is a member of the workspace of that name or the connection of
    that name; and a connection is in the member set of the workspace
    recorded for it. *)
Definition consistent (self : SocketManager) : Prop :=
  (forall w s, live_member self w s -> s ∈ room self w) /\
  (forall w s, s ∈ room self w ->
               connected self s /\ (s ∈ members self w \/ s = w)) /\
  (forall s w, truthy (current_workspace self s) = Some w -> s ∈ members self w).

(** The statement of the design document: a connection is in at most one
    member set. *)
Definition single_room (self : SocketManager) : Prop :=
  forall sid w1 w2, sid ∈ members self w1 -> sid ∈ members self w2 -> w1 = w2.

(** A client that leaves only the workspace recorded for it. *)
Definition leaves_match (o : op) (self : SocketManager) : Prop :=
  match o with
  | Leave sid data => truthy (join_workspace_id data) = truthy (current_workspace self sid)
  | _ => True
  end.

Inductive reachable_matching : SocketManager -> Prop :=
| matching_init : reachable_matching init
| matching_step (self : SocketManager) (o : op) :
    reachable_matching self -> allowed o self -> leaves_match o self ->
    reachable_matching (fst (step o self)).

(** Every membership is the recorded one. *)
Definition recorded (self : SocketManager) : Prop :=
  forall s w, s ∈ members self w -> truthy (current_workspace self s) = Some w.

(** The connection an event comes from. *)
Definition actor (o : op) : string :=
  match o with
  | Connect sid _ | Disconnect sid | Join sid _ _ | Leave sid _ | Point _ sid _ _ => sid
  end.

(** The keys of [self.workspace_users]: the workspaces ever joined. *)
Definition workspaces (self : SocketManager) : gset string :=
  dom (workspace_users self).

Definition alice_joins (workspace : string) : JoinData :=
  mkJoinData (Some workspace) (Some (Some "Alice"%string)).

(** A run the server can deliver: connect, join ["ws1"], a
    [leave_workspace] whose data names no workspace, join ["ws2"]. *)
Definition stale_run : list op :=
  [Connect "c1" "t0";
   Join "c1" (alice_joins "ws1") "t1";
   Leave "c1" (mkJoinData None None);
   Join "c1" (alice_joins "ws2") "t2"].

(** Two connections in workspace ["ws1"]. *)
Definition shared_run : list op :=
  [Connect "c1" "t0";
   Connect "c2" "t1";
   Join "c1" (alice_joins "ws1") "t2";
   Join "c2" (mkJoinData (Some "ws1"%string) (Some (Some "Bob"%string))) "t3"].

(** Two connections in workspace ["ws1"], then a [leave_workspace] of
    the first whose data names no workspace. *)
Definition silent_run : list op :=
  shared_run ++ [Leave "c1" (mkJoinData None None)].

(** A client that asks for a workspace whose id is the connection id of
    another client. *)
Definition namesake_run : list op :=
  [Connect "c1" "t0";
   Connect "c2" "t1";
   Join "c1" (alice_joins "c2") "t2"].

End Sockets.

(** * Properties

    The second part proves what the design document states about the
    three services, or, where the code does otherwise, shows the input on
    which it does and proves what holds instead (C1 to C10).  It then
    proves further properties of the same code, read off the source: how
    the registry, the forces and [step] behave, what the clustering
    service and its endpoint guarantee, and what the room handlers of the
    socket manager leave behind (the properties marked X). *)

(** ** Exceptions and real numbers *)

Lemma bind_Ok_inv {A B : Type} (c : result A) (k : A -> result B) (b : B) :
  bind c k = Ok b -> exists a, c = Ok a /\ k a = Ok b.
Proof. destruct c as [a|e]; simpl; intros H; [eauto | discriminate]. Qed.

Module RealFacts.
Import RealAux.
Local Open Scope R_scope.

Lemma pydiv_Ok (a b : R) : b <> 0 -> pydiv a b = Ok (a / b).
Proof. intros H. unfold pydiv. destruct (Req_dec_T b 0); [contradiction | reflexivity]. Qed.


Lemma sqrt_val (r v : R) : 0 <= v -> r = v * v -> sqrt r = v.
Proof. intros Hv ->. apply sqrt_square. exact Hv. Qed.

Lemma sqrt_sum_squares_scale (a b s : R) :
  0 <= s -> sqrt ((a * s) * (a * s) + (b * s) * (b * s)) = s * sqrt (a * a + b * b).
Proof.
  intros Hs.
  replace ((a * s) * (a * s) + (b * s) * (b * s)) with ((s * s) * (a * a + b * b)) by ring.
  rewrite sqrt_mult_alt by nra.
  rewrite sqrt_square by exact Hs. reflexivity.
Qed.

End RealFacts.

(** ** The physics engine *)

Module PhysicsFacts.
Import RealAux RealFacts Physics.
Local Open Scope R_scope.

(** *** One iteration of [step] *)

(** [cap_velocity] never raises: the divisor is at least [0.1]. *)
Lemma cap_velocity_total (self : PhysicsEngine) (a b : R) :
  exists w, cap_velocity self a b = Ok w.
Proof.
  unfold cap_velocity.
  destruct (Rlt_dec (sqrt (a * a + b * b)) 0.1) as [Hslow|Hfast]; [eauto|].
  destruct (Rgt_dec (sqrt (a * a + b * b)) (max_velocity self)); [|eauto].
  rewrite pydiv_Ok by lra. simpl. eauto.
Qed.

Lemma integrate_inv (self : PhysicsEngine) (body new : PhysicsBody) (f : R * R) :
  integrate self body f = Ok new ->
  exists v, damped_velocity self body f = Ok v /\
            cap_velocity self (fst v) (snd v) = Ok (vx new, vy new).
Proof.
  unfold integrate. intros H.
  apply bind_Ok_inv in H as (v & Hv & H).
  apply bind_Ok_inv in H as ([vx' vy'] & Hw & [= <-]).
  exists v. split; [exact Hv | exact Hw].
Qed.

Lemma step_loop_moved (self : PhysicsEngine) (n : nat) :
  forall (done todo : registry) (ups ups' : list (string * Update)) (bs : registry),
    (length todo <= n)%nat ->
    step_loop n self done todo ups = (bs, Ok ups') ->
    exists new, bs = done ++ new /\ Forall2 (moved self) todo new.
Proof.
  induction n as [|n IH]; intros done todo ups ups' bs Hlen H.
  - destruct todo; [|simpl in Hlen; lia].
    simpl in H. injection H as <- _. exists []. split; [reflexivity | constructor].
  - destruct todo as [|[body_id body] rest].
    + simpl in H. injection H as <- _. exists []. split; [reflexivity | constructor].
    + simpl in H, Hlen.
      destruct (compute_forces (set_bodies self (done ++ (body_id, body) :: rest)) body)
        as [f|e] eqn:Hf; simpl in H; [|discriminate].
      destruct (integrate self body f) as [body'|e] eqn:Hint; [|discriminate].
      apply IH in H as (new & -> & Hall); [|lia].
      exists ((body_id, body') :: new). split.
      * rewrite <- app_assoc. reflexivity.
      * constructor; [|exact Hall].
        split; [reflexivity|].
        destruct (integrate_inv _ _ _ _ Hint) as (v & Hv & Hw).
        exists (done ++ (body_id, body) :: rest), f, v. simpl. auto.
Qed.

(** The registry an iteration sees: the entries before it as [step]
    leaves them, the others as they were. *)
Lemma step_loop_prefix (self : PhysicsEngine) (n : nat) :
  forall (done todo : registry) (ups ups' : list (string * Update)) (bs : registry),
    (length todo <= n)%nat ->
    step_loop n self done todo ups = (bs, Ok ups') ->
    forall i, (i <= length todo)%nat ->
      fst (step_loop i self done todo ups) = firstn (length done + i) bs ++ skipn i todo.
Proof.
  induction n as [|n IH]; intros done todo ups ups' bs Hlen H i Hi.
  - destruct todo; [|simpl in Hlen; lia]. simpl in Hi.
    assert (i = 0)%nat as -> by lia. simpl in H. injection H as <- _.
    simpl. rewrite Nat.add_0_r, app_nil_r, firstn_all. symmetry. apply app_nil_r.
  - destruct todo as [|[k b] rest].
    { simpl in Hi. assert (i = 0)%nat as -> by lia. simpl in H. injection H as <- _.
      simpl. rewrite Nat.add_0_r, app_nil_r, firstn_all. symmetry. apply app_nil_r. }
    simpl in Hlen, Hi. cbn [step_loop] in H.
    destruct (compute_forces (set_bodies self (done ++ (k, b) :: rest)) b)
      as [f0|e] eqn:Hf0; cbn [bind] in H; [|discriminate].
    destruct (integrate self b f0) as [b0|e] eqn:Hb0; [|discriminate].
    destruct i as [|i].
    + apply step_loop_moved in H as (new & -> & _); [|lia].
      cbn [step_loop fst skipn]. rewrite Nat.add_0_r, <- app_assoc, take_app_length.
      reflexivity.
    + assert (Hrest : (length rest <= n)%nat) by lia.
      assert (Hi' : (i <= length rest)%nat) by lia.
      cbn [step_loop]. rewrite Hf0. cbn [bind]. rewrite Hb0.
      rewrite (IH _ _ _ _ _ Hrest H i Hi'). rewrite length_app. simpl.
      replace (length done + 1 + i)%nat with (length done + S i)%nat by lia. reflexivity.
Qed.

(** *** A worked example: two bodies 50 units apart *)

Ltac eval_sqrt v :=
  match goal with
  | |- context [sqrt ?e] => rewrite (sqrt_val e v) by lra
  end.

Ltac eval_if :=
  match goal with
  | |- context [Rlt_dec ?a ?b] => destruct (Rlt_dec a b); try (exfalso; lra)
  | |- context [Rgt_dec ?a ?b] => destruct (Rgt_dec a b); try (exfalso; lra)
  | |- context [Rge_dec ?a ?b] => destruct (Rge_dec a b); try (exfalso; lra)
  | |- context [Req_dec_T ?a ?b] => destruct (Req_dec_T a b); try (exfalso; lra)
  end.

Lemma force_on_a_from_b :
  force_on two_bodies body_a (0, 0) ("b"%string, body_b) = Ok (-1000, 0).
Proof.
  unfold force_on, geometry, repulsion, attraction, pydiv. simpl.
  eval_sqrt 50. repeat eval_if. simpl.
  repeat eval_if. simpl. f_equal. f_equal; lra.
Qed.

Lemma force_on_self (self : PhysicsEngine) (body : PhysicsBody) (f : R * R) :
  force_on self body f (id body, body) = Ok f.
Proof. unfold force_on. rewrite String.eqb_refl. reflexivity. Qed.

Lemma compute_forces_a : compute_forces two_bodies body_a = Ok (-1000, 0).
Proof.
  unfold compute_forces.
  change (bodies two_bodies) with [(id body_a, body_a); ("b"%string, body_b)].
  cbn [compute_forces_loop]. rewrite force_on_self. cbn [bind].
  rewrite force_on_a_from_b. reflexivity.
Qed.

Lemma integrate_a : integrate two_bodies body_a (-1000, 0) = Ok body_a'.
Proof.
  unfold integrate, damped_velocity, cap_velocity, pydiv. simpl.
  repeat eval_if. simpl. eval_sqrt 12.8. repeat eval_if. simpl.
  unfold body_a'. f_equal. f_equal; lra.
Qed.

Lemma force_on_b_from_a :
  force_on (set_bodies two_bodies after_a) body_b (0, 0) ("a"%string, body_a')
  = Ok (754.24, 0).
Proof.
  unfold force_on, geometry, repulsion, attraction, pydiv. simpl.
  eval_sqrt 62.288. repeat eval_if. simpl.
  repeat eval_if. simpl. f_equal. f_equal; lra.
Qed.

Lemma compute_forces_b :
  compute_forces (set_bodies two_bodies after_a) body_b = Ok (754.24, 0).
Proof.
  unfold compute_forces.
  change (bodies (set_bodies two_bodies after_a))
    with [("a"%string, body_a'); (id body_b, body_b)].
  cbn [compute_forces_loop]. rewrite force_on_b_from_a. cbn [bind].
  rewrite force_on_self. reflexivity.
Qed.

Lemma integrate_b : integrate two_bodies body_b (754.24, 0) = Ok body_b'.
Proof.
  unfold integrate, damped_velocity, cap_velocity, pydiv. simpl.
  repeat eval_if. simpl. eval_sqrt 9.654272. repeat eval_if. simpl.
  unfold body_b'. f_equal. f_equal; lra.
Qed.

Lemma step_loop_one :
  step_loop 1 two_bodies [] (bodies two_bodies) []
  = (after_a, Ok [("a"%string, update_of body_a')]).
Proof.
  change (bodies two_bodies) with [("a"%string, body_a); ("b"%string, body_b)].
  cbn [step_loop app].
  change (set_bodies two_bodies [("a"%string, body_a); ("b"%string, body_b)]) with two_bodies.
  rewrite compute_forces_a. cbn [bind]. rewrite integrate_a. reflexivity.
Qed.

Lemma step_two_bodies :
  step two_bodies
  = (set_bodies two_bodies [("a"%string, body_a'); ("b"%string, body_b')],
     Ok [("a"%string, update_of body_a'); ("b"%string, update_of body_b')]).
Proof.
  unfold step.
  change (bodies two_bodies) with [("a"%string, body_a); ("b"%string, body_b)].
  cbn [length step_loop app].
  change (set_bodies two_bodies [("a"%string, body_a); ("b"%string, body_b)]) with two_bodies.
  rewrite compute_forces_a. cbn [bind]. rewrite integrate_a. cbn [app].
  change (set_bodies two_bodies [("a"%string, body_a'); ("b"%string, body_b)])
    with (set_bodies two_bodies after_a).
  rewrite compute_forces_b. cbn [bind]. rewrite integrate_b. reflexivity.
Qed.

(** *** Pair forces *)

Lemma force_in_step_a_b : force_in_step two_bodies 0 1 = Some (Ok (-1000, 0)).
Proof.
  unfold force_in_step, registry_at_turn.
  change (fst (step_loop 0 two_bodies [] (bodies two_bodies) []))
    with [("a"%string, body_a); ("b"%string, body_b)].
  cbn [nth_error]. unfold pair_force.
  change (set_bodies two_bodies [("a"%string, body_a); ("b"%string, body_b)]) with two_bodies.
  rewrite force_on_a_from_b. reflexivity.
Qed.

Lemma force_in_step_b_a : force_in_step two_bodies 1 0 = Some (Ok (754.24, 0)).
Proof.
  unfold force_in_step, registry_at_turn. rewrite step_loop_one.
  cbn [fst after_a nth_error]. unfold pair_force.
  change [("a"%string, body_a'); ("b"%string, body_b)] with after_a.
  rewrite force_on_b_from_a. reflexivity.
Qed.

(** C4 as stated fails: [a] is pushed with force [-1000] from the
    positions at the start of the tick, then moves; [b] is pushed back
    with only [754.24], computed from the position [a] has moved to. *)
Lemma forces_not_opposite_within_step : ~ forces_opposite_within_step.
Proof.
  intros H.
  specialize (H two_bodies 0%nat 1%nat _ _ (O_S 0) force_in_step_a_b force_in_step_b_a).
  simpl in H. injection H as H _. lra.
Qed.

Lemma dot_comm (u : list R) : forall v, dot u v = dot v u.
Proof.
  induction u as [|a u IH]; intros [|b v]; simpl; try reflexivity.
  rewrite IH. destruct (dot v u); simpl; [|reflexivity].
  f_equal. ring.
Qed.

Lemma compute_similarity_comm (e1 e2 : list R) :
  compute_similarity e1 e2 = compute_similarity e2 e1.
Proof. unfold compute_similarity. rewrite dot_comm. reflexivity. Qed.

Lemma clamped_distance_ge_1 (body other : PhysicsBody) : 1 <= clamped_distance body other.
Proof.
  unfold clamped_distance.
  destruct (Rlt_dec _ 1); lra.
Qed.

Lemma clamped_distance_sym (body other : PhysicsBody) :
  clamped_distance other body = clamped_distance body other.
Proof.
  unfold clamped_distance.
  replace ((x body - x other) * (x body - x other) + (y body - y other) * (y body - y other))
    with ((x other - x body) * (x other - x body) + (y other - y body) * (y other - y body))
    by ring.
  reflexivity.
Qed.

(** [geometry] never raises: the divisor is clamped to at least [1]. *)
Lemma geometry_Ok (body other : PhysicsBody) :
  geometry body other
  = Ok (clamped_distance body other,
        (x other - x body) / clamped_distance body other,
        (y other - y body) / clamped_distance body other).
Proof.
  pose proof (clamped_distance_ge_1 body other) as Hd.
  unfold geometry. fold (clamped_distance body other).
  rewrite !pydiv_Ok by lra. reflexivity.
Qed.

Lemma repulsion_opposite (self : PhysicsEngine) (d ux uy fx fy : R) :
  repulsion self d (- ux) (- uy) (- fx, - fy) = opposite (repulsion self d ux uy (fx, fy)).
Proof.
  unfold repulsion.
  destruct (Rlt_dec d (min_repulsion_distance self)); [|reflexivity].
  destruct (pydiv d (min_repulsion_distance self)) as [q|e]; [|reflexivity].
  simpl. f_equal. f_equal; ring.
Qed.

Lemma attraction_opposite (self : PhysicsEngine) (body other : PhysicsBody)
    (d ux uy fx fy : R) :
  attraction self other body d (- ux) (- uy) (- fx, - fy)
  = opposite (attraction self body other d ux uy (fx, fy)).
Proof.
  unfold attraction.
  rewrite (andb_comm (truthy (embedding other)) (truthy (embedding body))).
  destruct (truthy (embedding body) && truthy (embedding other)
            && (if Rlt_dec d (max_attraction_distance self) then true else false));
    [|reflexivity].
  rewrite (compute_similarity_comm (vector (embedding other))).
  destruct (compute_similarity (vector (embedding body)) (vector (embedding other)))
    as [similarity|e]; [|reflexivity].
  cbn [bind].
  destruct (Rgt_dec similarity (similarity_threshold self)); [|reflexivity].
  destruct (pydiv _ (1 - similarity_threshold self)) as [g|e]; [|reflexivity].
  cbn [bind].
  destruct (pydiv d (max_attraction_distance self)) as [q|e]; [|reflexivity].
  simpl. f_equal. f_equal; ring.
Qed.

Lemma opposite_bind (c : result (R * R)) (k k' : R * R -> result (R * R)) :
  (forall fx fy, k' (- fx, - fy) = opposite (k (fx, fy))) ->
  bind (opposite c) k' = opposite (bind c k).
Proof. intros H. destruct c as [[fx fy]|e]; simpl; [apply H | reflexivity]. Qed.

(** C4, amended.  At any one state of the registry the pair force is
    antisymmetric: what [compute_forces] adds to [b] on account of [a] is
    the opposite of what it adds to [a] on account of [b] (and one raises
    exactly when the other does).  Within a [step] that completes, the
    registry the forces of entry [i] are computed from holds the entries
    before [i] as the step leaves them, already moved, and the others as
    they were. *)
Theorem pair_force_antisymmetric (self : PhysicsEngine) :
  (forall a b : PhysicsBody,
     pair_force self b (id a, a) = opposite (pair_force self a (id b, b))) /\
  (forall (self' : PhysicsEngine) (updates : list (string * Update)) (i : nat),
     step self = (self', Ok updates) ->
     (i <= length (bodies self))%nat ->
     registry_at_turn self i = firstn i (bodies self') ++ skipn i (bodies self)).
Proof.
  split; [|intros self' updates i Hstep Hi; unfold step in Hstep;
           destruct (step_loop (length (bodies self)) self [] (bodies self) [])
             as [bs r] eqn:Hloop;
           injection Hstep as <- ->;
           apply (step_loop_prefix _ _ _ _ _ _ _ (Nat.le_refl _) Hloop i Hi)].
  intros a b. unfold pair_force, force_on.
  rewrite (String.eqb_sym (id a) (id b)).
  destruct (String.eqb (id b) (id a)).
  - simpl. f_equal. f_equal; ring.
  - rewrite (geometry_Ok b a), (geometry_Ok a b). cbn [bind].
    rewrite (clamped_distance_sym a b).
    set (d := clamped_distance a b).
    replace ((x a - x b) / d) with (- ((x b - x a) / d)) by (unfold Rdiv; ring).
    replace ((y a - y b) / d) with (- ((y b - y a) / d)) by (unfold Rdiv; ring).
    replace (0, 0) with (- 0, - 0) at 1 by (f_equal; ring).
    rewrite repulsion_opposite. apply opposite_bind.
    intros fx fy. apply attraction_opposite.
Qed.

(** C4 amended, at the two-body example: opposite forces at the start of
    the tick, and [b]'s turn sees [a] already moved. *)
Lemma pair_force_antisymmetric_witness :
  pair_force two_bodies body_b (id body_a, body_a)
  = opposite (pair_force two_bodies body_a (id body_b, body_b)) /\
  registry_at_turn two_bodies 1
  = firstn 1 [("a"%string, body_a'); ("b"%string, body_b')] ++ skipn 1 (bodies two_bodies).
Proof.
  split.
  - apply (proj1 (pair_force_antisymmetric two_bodies)).
  - apply (proj2 (pair_force_antisymmetric two_bodies) _ _ 1%nat step_two_bodies).
    simpl. lia.
Defined.

(** *** Bodies without a usable embedding *)

Lemma sum_squares_nonneg (v : list R) : 0 <= fold_right (fun a acc => a * a + acc) 0 v.
Proof. induction v as [|a v IH]; simpl; [lra | nra]. Qed.

Lemma norm_zero_inv (v : list R) : norm v = 0 -> Forall (fun a => a = 0) v.
Proof.
  unfold norm. intros H.
  apply sqrt_eq_0 in H; [|apply sum_squares_nonneg].
  induction v as [|a v IH]; constructor; simpl in H;
    pose proof (sum_squares_nonneg v) as Hv.
  - nra.
  - apply IH. nra.
Qed.

Lemma dot_zeros (c : R) (u : list R) :
  Forall (fun a => a = 0) u ->
  forall v, length v = length u -> dot (map (fun a => a / c) u) v = Ok 0.
Proof.
  induction 1 as [|a u Ha _ IH]; intros [|b v] Hlen; simpl in *; try discriminate.
  - reflexivity.
  - rewrite IH by lia. simpl. f_equal. subst a. unfold Rdiv. ring.
Qed.

(** A zero-norm embedding has similarity one half, not zero, to every
    embedding of its dimension: the normalised vector is the zero vector,
    the dot product is [0], and [(0 + 1) / 2] is returned. *)
Lemma compute_similarity_zero_norm (e1 e2 : list R) :
  norm e1 = 0 -> length e2 = length e1 ->
  compute_similarity e1 e2 = Ok (1 / 2) /\ compute_similarity e2 e1 = Ok (1 / 2).
Proof.
  intros Hn Hlen.
  assert (H : compute_similarity e1 e2 = Ok (1 / 2)).
  { unfold compute_similarity.
    rewrite (dot_zeros _ e1 (norm_zero_inv e1 Hn)) by (rewrite length_map; exact Hlen).
    simpl. f_equal. lra. }
  split; [exact H | rewrite compute_similarity_comm; exact H].
Qed.

Lemma norm_zero_example : norm [0; 0] = 0.
Proof. unfold norm. simpl. eval_sqrt 0. reflexivity. Qed.

Lemma body_zero_zero_norm : zero_norm_embedding body_zero.
Proof. split; [reflexivity | exact norm_zero_example]. Qed.

(** C2 as stated fails: the zero vector has similarity [1/2] to [(1, 0)]. *)
Lemma degraded_similarity_not_zero : ~ degraded_similarity_is_zero.
Proof.
  intros H.
  specialize (H body_zero body_unit (1 / 2) (or_intror body_zero_zero_norm)).
  assert (Hs : neighbor_similarity body_zero body_unit = Ok (1 / 2)).
  { unfold neighbor_similarity. simpl.
    apply (compute_similarity_zero_norm [0; 0] [1; 0] norm_zero_example eq_refl). }
  specialize (H Hs). lra.
Qed.

Lemma attraction_below_threshold (self : PhysicsEngine) (body other : PhysicsBody)
    (d ux uy s : R) (f : R * R) :
  compute_similarity (vector (embedding body)) (vector (embedding other)) = Ok s ->
  s <= similarity_threshold self ->
  attraction self body other d ux uy f = Ok f.
Proof.
  intros Hs Hle. unfold attraction. destruct f as [fx fy].
  destruct (truthy (embedding body) && truthy (embedding other)
            && (if Rlt_dec d (max_attraction_distance self) then true else false));
    [|reflexivity].
  rewrite Hs. cbn [bind].
  destruct (Rgt_dec s (similarity_threshold self)); [lra | reflexivity].
Qed.

Lemma attraction_no_embedding (self : PhysicsEngine) (body other : PhysicsBody)
    (d ux uy : R) (f : R * R) :
  no_embedding body \/ no_embedding other ->
  attraction self body other d ux uy f = Ok f.
Proof.
  unfold no_embedding, attraction. destruct f as [fx fy].
  intros [H|H]; rewrite H; [|rewrite andb_false_r]; reflexivity.
Qed.

(** C2, amended.  A body whose embedding is absent (or empty) is never
    compared: the similarity used for it is [0] and the attraction block
    leaves the force as it is, in both directions.  A body whose embedding
    has zero norm is compared, with similarity exactly [1/2]; when the
    threshold is at least [1/2] (it is [0.7]) the attraction block again
    leaves the force as it is, in both directions. *)
Theorem degraded_embedding_repulsion_only (self : PhysicsEngine)
    (body other : PhysicsBody) (d ux uy : R) (f : R * R) :
  no_embedding body \/
  (zero_norm_embedding body /\ same_dimension body other /\
   1 / 2 <= similarity_threshold self) ->
  attraction self body other d ux uy f = Ok f /\
  attraction self other body d ux uy f = Ok f /\
  neighbor_similarity body other
  = Ok (if truthy (embedding body) && truthy (embedding other) then 1 / 2 else 0) /\
  neighbor_similarity other body
  = Ok (if truthy (embedding body) && truthy (embedding other) then 1 / 2 else 0).
Proof.
  intros [Hno | ((Htr & Hnorm) & Hdim & Hthr)].
  - split; [apply attraction_no_embedding; left; exact Hno|].
    split; [apply attraction_no_embedding; right; exact Hno|].
    unfold neighbor_similarity. unfold no_embedding in Hno. rewrite Hno.
    rewrite andb_false_r. split; reflexivity.
  - destruct (truthy (embedding other)) eqn:Hother.
    + specialize (Hdim Hother).
      destruct (compute_similarity_zero_norm _ _ Hnorm Hdim) as [H1 H2].
      split; [eapply attraction_below_threshold; [exact H1 | exact Hthr]|].
      split; [eapply attraction_below_threshold; [exact H2 | exact Hthr]|].
      unfold neighbor_similarity. rewrite Htr, Hother. simpl. split; assumption.
    + split; [apply attraction_no_embedding; right; exact Hother|].
      split; [apply attraction_no_embedding; left; exact Hother|].
      unfold neighbor_similarity. rewrite Hother, andb_false_r. split; reflexivity.
Qed.

(** C2 amended, at a zero vector next to a unit vector, with the
    constructor's threshold. *)
Lemma degraded_embedding_repulsion_only_witness :
  attraction init body_zero body_unit 10 1 0 (0, 0) = Ok (0, 0) /\
  attraction init body_unit body_zero 10 1 0 (0, 0) = Ok (0, 0) /\
  neighbor_similarity body_zero body_unit = Ok (1 / 2) /\
  neighbor_similarity body_unit body_zero = Ok (1 / 2).
Proof.
  apply (degraded_embedding_repulsion_only init body_zero body_unit 10 1 0 (0, 0)).
  right. split; [exact body_zero_zero_norm|].
  split; [intros _; reflexivity | simpl; lra].
Defined.

(** *** Nearest neighbours *)

Lemma neighbors_loop_spec (body_id : string) (body : PhysicsBody) (maxd mins : R) :
  forall (items : registry) (acc l : list Neighbor),
    neighbors_loop body_id body maxd mins items acc = Ok l ->
    exists l', l = acc ++ l' /\
      forall n, In n l' <->
        exists entry, In entry items /\ neighbor_of Rge body_id body maxd mins entry n.
Proof.
  induction items as [|[other_id other] rest IH]; intros acc l H.
  - simpl in H. injection H as <-. exists []. split; [symmetry; apply app_nil_r|].
    intros n. split; [intros [] | intros (entry & [] & _)].
  - simpl in H.
    assert (Hskip : ~ (exists n, neighbor_of Rge body_id body maxd mins (other_id, other) n) ->
                    neighbors_loop body_id body maxd mins rest acc = Ok l ->
                    exists l', l = acc ++ l' /\
                      forall n, In n l' <->
                        exists entry, In entry ((other_id, other) :: rest) /\
                          neighbor_of Rge body_id body maxd mins entry n).
    { intros Hnot Hrest. apply IH in Hrest as (l' & -> & Hl'). exists l'.
      split; [reflexivity|]. intros n. rewrite Hl'. split.
      - intros (entry & Hin & Hn). exists entry. split; [right; exact Hin | exact Hn].
      - intros (entry & [<- | Hin] & Hn); [exfalso; apply Hnot; eauto | eauto]. }
    destruct (String.eqb other_id body_id) eqn:Hid.
    { apply Hskip; [|exact H]. intros (n & Hne & _). simpl in Hne.
      apply String.eqb_eq in Hid. contradiction. }
    destruct (Rgt_dec (distance_between body other) maxd) as [Hfar|Hnear].
    { apply Hskip; [|exact H]. intros (n & _ & Hd & _). simpl in Hd. lra. }
    destruct (neighbor_similarity body other) as [s|e] eqn:Hsim; [|discriminate].
    cbn [bind] in H.
    destruct (Rge_dec s mins) as [Hge|Hlt].
    + apply IH in H as (l' & -> & Hl').
      exists (mkNeighbor other_id (distance_between body other) s (x other) (y other) :: l').
      split; [rewrite <- app_assoc; reflexivity|].
      intros n. simpl. rewrite Hl'. split.
      * intros [<- | (entry & Hin & Hn)].
        -- exists (other_id, other). split; [left; reflexivity|].
           split; [simpl; apply String.eqb_neq; exact Hid|].
           split; [simpl; lra|]. exists s. simpl. auto.
        -- exists entry. split; [right; exact Hin | exact Hn].
      * intros (entry & [<- | Hin] & Hn).
        -- left. destruct Hn as (_ & _ & s' & Hs' & _ & ->). simpl in *.
           rewrite Hsim in Hs'. injection Hs' as <-. reflexivity.
        -- right. eauto.
    + apply Hskip; [|exact H]. intros (n & _ & _ & s' & Hs' & Hcmp & _). simpl in Hs'.
      rewrite Hsim in Hs'. injection Hs' as <-. contradiction.
Qed.

Lemma insert_desc_perm (n : Neighbor) (l : list Neighbor) :
  Permutation (insert_desc n l) (n :: l).
Proof.
  induction l as [|m l IH]; simpl; [reflexivity|].
  destruct (Rgt_dec (n_similarity m) (n_similarity n)); [|reflexivity].
  rewrite IH. apply perm_swap.
Qed.

Lemma sort_by_similarity_perm (l : list Neighbor) : Permutation (sort_by_similarity l) l.
Proof.
  induction l as [|n l IH]; simpl; [reflexivity|].
  rewrite insert_desc_perm. apply perm_skip. exact IH.
Qed.

Lemma insert_desc_sorted (n : Neighbor) (l : list Neighbor) :
  StronglySorted descending l -> StronglySorted descending (insert_desc n l).
Proof.
  induction 1 as [|m l Hl IH Hm]; simpl.
  - constructor; constructor.
  - destruct (Rgt_dec (n_similarity m) (n_similarity n)) as [Hgt|Hle].
    + constructor; [exact IH|].
      eapply Permutation_Forall; [symmetry; apply insert_desc_perm|].
      constructor; [unfold descending; lra | exact Hm].
    + constructor; [constructor; assumption|].
      constructor; [unfold descending; lra|].
      eapply Forall_impl; [exact Hm|]. unfold descending. intros k Hk. lra.
Qed.

Lemma sort_by_similarity_sorted (l : list Neighbor) :
  StronglySorted descending (sort_by_similarity l).
Proof.
  induction l as [|n l IH]; simpl; [constructor | apply insert_desc_sorted; exact IH].
Qed.

Lemma dot_total (u : list R) : forall v, length u = length v -> exists s, dot u v = Ok s.
Proof.
  induction u as [|a u IH]; intros [|b v] Hlen; simpl in *; try discriminate; [eauto|].
  destruct (IH v) as [s ->]; [lia|]. simpl. eauto.
Qed.

Lemma neighbor_similarity_total (body other : PhysicsBody) :
  comparable body other -> exists s, neighbor_similarity body other = Ok s.
Proof.
  unfold comparable, neighbor_similarity. intros H.
  destruct (truthy (embedding body)), (truthy (embedding other)); simpl; eauto.
  unfold compute_similarity.
  destruct (dot_total (map (fun a => a / (norm (vector (embedding body)) + 1e-8))
                           (vector (embedding body)))
                      (map (fun a => a / (norm (vector (embedding other)) + 1e-8))
                           (vector (embedding other)))) as [s ->].
  - rewrite !length_map. apply H; reflexivity.
  - simpl. eauto.
Qed.

Lemma neighbors_loop_total (body_id : string) (body : PhysicsBody) (maxd mins : R) :
  forall (items : registry) (acc : list Neighbor),
    (forall entry, In entry items -> comparable body (snd entry)) ->
    exists l, neighbors_loop body_id body maxd mins items acc = Ok l.
Proof.
  induction items as [|[other_id other] rest IH]; intros acc Hcmp; simpl; [eauto|].
  assert (Hrest : forall entry, In entry rest -> comparable body (snd entry))
    by (intros entry Hin; apply Hcmp; right; exact Hin).
  destruct (String.eqb other_id body_id); [apply IH; exact Hrest|].
  destruct (Rgt_dec (distance_between body other) maxd); [apply IH; exact Hrest|].
  destruct (neighbor_similarity_total body other) as [s ->];
    [apply (Hcmp (other_id, other)); left; reflexivity|].
  cbn [bind]. destruct (Rge_dec s mins); apply IH; exact Hrest.
Qed.

Lemma neighbors_of_a :
  get_nearest_neighbors two_bodies "a" 500 0 = Ok [mkNeighbor "b" 50 0 50 0].
Proof.
  unfold get_nearest_neighbors.
  change (bodies two_bodies) with [("a"%string, body_a); ("b"%string, body_b)].
  change (lookup_body "a" [("a"%string, body_a); ("b"%string, body_b)]) with (Some body_a).
  cbn [neighbors_loop String.eqb Ascii.eqb Bool.eqb].
  unfold distance_between, neighbor_similarity. simpl.
  eval_sqrt 50. repeat eval_if. reflexivity.
Qed.

(** C5 as stated fails: with [min_similarity = 0], body [b] (similarity
    [0], which does not exceed [0]) is returned as a neighbour of [a]. *)
Lemma neighbors_need_not_exceed_min_similarity : ~ neighbors_exceed_min_similarity.
Proof.
  intros H.
  specialize (H two_bodies "a"%string body_a 500 0 _ eq_refl neighbors_of_a
                (mkNeighbor "b" 50 0 50 0)).
  destruct H as [H _].
  destruct (H (or_introl eq_refl)) as (entry & _ & _ & _ & s & _ & Hgt & Hn).
  injection Hn as _ _ Hs _ _. lra.
Qed.

(** C5, amended.  For an absent id the result is the empty list.  For a
    present id, whenever the call returns (it does when every embedding it
    compares has the dimension of the source's), no returned record carries
    the id itself, the records are exactly those of the other bodies no
    farther than [max_distance] whose similarity is at least
    [min_similarity], and they are in descending order of similarity. *)
Theorem get_nearest_neighbors_correct (self : PhysicsEngine) (body_id : string)
    (max_distance min_similarity : R) :
  (lookup_body body_id (bodies self) = None ->
   get_nearest_neighbors self body_id max_distance min_similarity = Ok []) /\
  (forall body, lookup_body body_id (bodies self) = Some body ->
     ((forall entry, In entry (bodies self) -> comparable body (snd entry)) ->
      exists l, get_nearest_neighbors self body_id max_distance min_similarity = Ok l) /\
     (forall l, get_nearest_neighbors self body_id max_distance min_similarity = Ok l ->
        (forall n, In n l -> n_id n <> body_id) /\
        (forall n, In n l <->
           exists entry, In entry (bodies self) /\
             neighbor_of Rge body_id body max_distance min_similarity entry n) /\
        StronglySorted descending l)).
Proof.
  unfold get_nearest_neighbors. split.
  - intros ->. reflexivity.
  - intros body ->. split.
    + intros Hcmp.
      destruct (neighbors_loop_total body_id body max_distance min_similarity
                  (bodies self) [] Hcmp) as [l ->].
      cbn [bind]. eauto.
    + intros l H. apply bind_Ok_inv in H as (found & Hloop & [= <-]).
      apply neighbors_loop_spec in Hloop as (l' & -> & Hl'). simpl app.
      assert (Hin : forall n, In n (sort_by_similarity l') <->
                exists entry, In entry (bodies self) /\
                  neighbor_of Rge body_id body max_distance min_similarity entry n).
      { intros n. rewrite <- Hl'. split; apply Permutation_in;
          [| symmetry]; apply sort_by_similarity_perm. }
      split; [|split; [exact Hin | apply sort_by_similarity_sorted]].
      intros n Hn. apply Hin in Hn as (entry & _ & Hne & _ & s & _ & _ & ->).
      exact Hne.
Qed.

(** C5 amended, at the two-body example. *)
Lemma get_nearest_neighbors_correct_witness :
  (forall n, In n [mkNeighbor "b" 50 0 50 0] -> n_id n <> "a"%string) /\
  (forall n, In n [mkNeighbor "b" 50 0 50 0] <->
     exists entry, In entry (bodies two_bodies) /\
       neighbor_of Rge "a" body_a 500 0 entry n) /\
  StronglySorted descending [mkNeighbor "b" 50 0 50 0].
Proof.
  exact (proj2 (proj2 (get_nearest_neighbors_correct two_bodies "a" 500 0) body_a eq_refl)
           _ neighbors_of_a).
Defined.

(** *** When [step] completes *)

Lemma repulsion_total (self : PhysicsEngine) (d ux uy : R) (f : R * R) :
  1 <= d -> exists f', repulsion self d ux uy f = Ok f'.
Proof.
  intros Hd. unfold repulsion. destruct f as [fx fy].
  destruct (Rlt_dec d (min_repulsion_distance self)); [|eauto].
  rewrite pydiv_Ok by lra. cbn [bind]. eauto.
Qed.

Lemma compute_similarity_total (e1 e2 : list R) :
  length e1 = length e2 -> exists s, compute_similarity e1 e2 = Ok s.
Proof.
  intros Hlen. unfold compute_similarity.
  destruct (dot_total (map (fun a => a / (norm e1 + 1e-8)) e1)
                      (map (fun a => a / (norm e2 + 1e-8)) e2)) as [s ->].
  - rewrite !length_map. exact Hlen.
  - cbn [bind]. eauto.
Qed.

Lemma attraction_total (self : PhysicsEngine) (body other : PhysicsBody)
    (d ux uy : R) (f : R * R) :
  similarity_threshold self <> 1 -> 1 <= d -> comparable body other ->
  exists f', attraction self body other d ux uy f = Ok f'.
Proof.
  intros Hthr Hd Hcmp. unfold attraction. destruct f as [fx fy].
  destruct (truthy (embedding body)) eqn:Hb; [|simpl; eauto].
  destruct (truthy (embedding other)) eqn:Ho; [|simpl; eauto].
  destruct (Rlt_dec d (max_attraction_distance self)); [|simpl; eauto].
  cbn [andb].
  destruct (compute_similarity_total (vector (embedding body)) (vector (embedding other)))
    as [s ->]; [apply Hcmp; assumption|].
  cbn [bind]. destruct (Rgt_dec s (similarity_threshold self)); [|eauto].
  rewrite pydiv_Ok by lra. cbn [bind].
  rewrite pydiv_Ok by lra. cbn [bind]. eauto.
Qed.

Lemma force_on_total (self : PhysicsEngine) (body : PhysicsBody) (f : R * R)
    (entry : string * PhysicsBody) :
  similarity_threshold self <> 1 -> comparable body (snd entry) ->
  exists f', force_on self body f entry = Ok f'.
Proof.
  intros Hthr Hcmp. unfold force_on. destruct entry as [other_id other].
  destruct (String.eqb other_id (id body)); [eauto|].
  rewrite geometry_Ok. cbn [bind].
  pose proof (clamped_distance_ge_1 body other) as Hd.
  destruct (repulsion_total self (clamped_distance body other)
              ((x other - x body) / clamped_distance body other)
              ((y other - y body) / clamped_distance body other) f Hd) as [f1 ->].
  cbn [bind]. apply attraction_total; assumption.
Qed.

Lemma compute_forces_loop_total (self : PhysicsEngine) (body : PhysicsBody) :
  similarity_threshold self <> 1 ->
  forall (items : registry) (f : R * R),
    (forall entry, In entry items -> comparable body (snd entry)) ->
    exists f', compute_forces_loop self body items f = Ok f'.
Proof.
  intros Hthr. induction items as [|entry rest IH]; intros f Hcmp; simpl; [eauto|].
  destruct (force_on_total self body f entry Hthr) as [f1 ->];
    [apply Hcmp; left; reflexivity|].
  cbn [bind]. apply IH. intros e He. apply Hcmp. right. exact He.
Qed.

Lemma integrate_total (self : PhysicsEngine) (body : PhysicsBody) (f : R * R) :
  mass body <> 0 ->
  exists body', integrate self body f = Ok body' /\
                mass body' = mass body /\ embedding body' = embedding body.
Proof.
  intros Hm. unfold integrate, damped_velocity. destruct f as [fx fy].
  rewrite !pydiv_Ok by exact Hm. cbn [bind fst snd].
  destruct (cap_velocity_total self
              ((vx body + fx / mass body * time_step self) * damping self)
              ((vy body + fy / mass body * time_step self) * damping self))
    as [[vx' vy'] ->].
  cbn [bind]. eexists. split; [reflexivity|]. split; reflexivity.
Qed.

Lemma step_loop_total (self : PhysicsEngine) (n : nat) :
  similarity_threshold self <> 1 ->
  forall (done todo : registry) (ups : list (string * Update)),
    steppable (map shape (done ++ todo)) ->
    exists bs ups', step_loop n self done todo ups = (bs, Ok ups').
Proof.
  intros Hthr. induction n as [|n IH]; intros done todo ups Hok; [simpl; eauto|].
  destruct todo as [|[body_id body] rest]; [simpl; eauto|].
  cbn [step_loop].
  pose proof Hok as [Hmass Hdim].
  assert (Hin : In (shape (body_id, body)) (map shape (done ++ (body_id, body) :: rest))).
  { apply in_map. apply in_or_app. right. left. reflexivity. }
  destruct (compute_forces_loop_total (set_bodies self (done ++ (body_id, body) :: rest))
              body Hthr (done ++ (body_id, body) :: rest) (0, 0)) as [f Hf].
  { intros entry He Hb Ho. apply (Hdim (shape (body_id, body)) (shape entry));
      [exact Hin | apply in_map; exact He | exact Hb | exact Ho]. }
  unfold compute_forces. cbn [bodies set_bodies]. rewrite Hf. cbn [bind].
  destruct (integrate_total self body f) as (body' & -> & Hm' & He').
  { apply (Hmass (shape (body_id, body))). exact Hin. }
  apply IH.
  replace (map shape ((done ++ [(body_id, body')]) ++ rest))
    with (map shape (done ++ (body_id, body) :: rest)); [exact Hok|].
  rewrite <- app_assoc. rewrite !map_app. cbn [map app].
  unfold shape at 2 5. cbn [snd]. rewrite Hm', He'. reflexivity.
Qed.

(** [step] completes on every registry without a zero mass whose
    embeddings all have one dimension (the threshold being other than 1). *)
Lemma step_total (self : PhysicsEngine) :
  similarity_threshold self <> 1 ->
  steppable (map shape (bodies self)) ->
  exists self' updates, step self = (self', Ok updates).
Proof.
  intros Hthr Hok. unfold step.
  destruct (step_loop_total self (length (bodies self)) Hthr [] (bodies self) [] Hok)
    as (bs & ups & ->).
  eauto.
Qed.

(** *** The registry as a dictionary *)

Lemma lookup_body_assign (key k : string) (body : PhysicsBody) (bs : registry) :
  lookup_body k (assign key body bs)
  = if String.eqb key k then Some body else lookup_body k bs.
Proof.
  induction bs as [|[k0 b0] rest IH]; cbn [assign lookup_body].
  - reflexivity.
  - destruct (String.eqb k0 key) eqn:Hk0.
    + apply String.eqb_eq in Hk0 as ->. cbn [lookup_body].
      destruct (String.eqb key k); reflexivity.
    + cbn [lookup_body]. destruct (String.eqb k0 k) eqn:Hk.
      * apply String.eqb_eq in Hk as ->. rewrite String.eqb_sym, Hk0. reflexivity.
      * exact IH.
Qed.

Lemma map_fst_assign (key : string) (body : PhysicsBody) (bs : registry) :
  map fst (assign key body bs)
  = if existsb (String.eqb key) (map fst bs) then map fst bs else map fst bs ++ [key].
Proof.
  induction bs as [|[k0 b0] rest IH]; cbn [assign map existsb fst app].
  - reflexivity.
  - rewrite (String.eqb_sym key k0).
    destruct (String.eqb k0 key) eqn:Hk0; cbn [orb map fst].
    + reflexivity.
    + rewrite IH. destruct (existsb (String.eqb key) (map fst rest)); reflexivity.
Qed.

Lemma lookup_body_In (k : string) (b : PhysicsBody) (bs : registry) :
  lookup_body k bs = Some b -> In (k, b) bs.
Proof.
  induction bs as [|[k0 b0] rest IH]; cbn [lookup_body]; [discriminate|].
  destruct (String.eqb k0 k) eqn:Hk.
  - apply String.eqb_eq in Hk as ->. intros [= ->]. left. reflexivity.
  - intros H. right. exact (IH H).
Qed.

Lemma In_lookup_body (k : string) (b : PhysicsBody) (bs : registry) :
  NoDup (map fst bs) -> In (k, b) bs -> lookup_body k bs = Some b.
Proof.
  induction bs as [|[k0 b0] rest IH]; cbn [lookup_body map fst]; [intros _ []|].
  intros Hnd [[= -> ->]|Hin].
  - rewrite String.eqb_refl. reflexivity.
  - inversion Hnd as [|? ? Hnotin Hnd']; subst.
    destruct (String.eqb k0 k) eqn:Hk.
    + apply String.eqb_eq in Hk as ->. exfalso. apply Hnotin.
      apply (in_map fst) in Hin. apply list_elem_of_In. exact Hin.
    + exact (IH Hnd' Hin).
Qed.

Lemma existsb_eqb_In (key : string) (ks : list string) :
  existsb (String.eqb key) ks = true <-> In key ks.
Proof.
  rewrite existsb_exists. split.
  - intros (k & Hin & Hk). apply String.eqb_eq in Hk as ->. exact Hin.
  - intros Hin. exists key. split; [exact Hin | apply String.eqb_refl].
Qed.

Lemma lookup_body_None (k : string) (bs : registry) :
  lookup_body k bs = None <-> ~ In k (map fst bs).
Proof.
  induction bs as [|[k0 b0] rest IH]; cbn [lookup_body map fst In].
  - tauto.
  - destruct (String.eqb k0 k) eqn:Hk.
    + apply String.eqb_eq in Hk. split; [discriminate | tauto].
    + apply String.eqb_neq in Hk. rewrite IH. tauto.
Qed.

Lemma assign_Forall (P : string * PhysicsBody -> Prop) (key : string) (body : PhysicsBody)
    (bs : registry) :
  P (key, body) -> Forall P bs -> Forall P (assign key body bs).
Proof.
  intros Hnew Hall. induction Hall as [|[k0 b0] rest Hhd Hrest IH]; cbn [assign].
  - constructor; [exact Hnew | constructor].
  - destruct (String.eqb k0 key) eqn:Hk.
    + apply String.eqb_eq in Hk as ->. constructor; assumption.
    + constructor; assumption.
Qed.

Lemma assign_well_keyed (body : PhysicsBody) (bs : registry) :
  well_keyed bs -> well_keyed (assign (id body) body bs).
Proof.
  intros [Hnd Hall]. split.
  - rewrite map_fst_assign.
    destruct (existsb (String.eqb (id body)) (map fst bs)) eqn:Hex; [exact Hnd|].
    assert (Hnotin : ~ In (id body) (map fst bs)).
    { rewrite <- existsb_eqb_In, Hex. discriminate. }
    apply NoDup_app. split; [exact Hnd|]. split.
    + intros k Hk Hk'. apply list_elem_of_singleton in Hk' as ->.
      apply Hnotin, list_elem_of_In, Hk.
    + apply NoDup_singleton.
  - apply assign_Forall; [reflexivity | exact Hall].
Qed.

Lemma kept_iff (body_id : string) (kb : string * PhysicsBody) :
  Is_true (negb (String.eqb (fst kb) body_id)) <-> fst kb <> body_id.
Proof.
  rewrite negb_True, Is_true_true, String.eqb_eq. reflexivity.
Qed.

Lemma remove_well_keyed (body_id : string) (bs : registry) :
  well_keyed bs ->
  well_keyed (filter (fun kb => negb (String.eqb (fst kb) body_id)) bs).
Proof.
  unfold registry in *. intros [Hnd Hall]. split.
  - clear Hall. induction bs as [|[k0 b0] rest IH]; [constructor|].
    cbn [map fst] in Hnd. apply NoDup_cons in Hnd as [Hnotin Hnd'].
    rewrite filter_cons. destruct (decide _) as [Hkeep|Hdrop]; [|exact (IH Hnd')].
    cbn [map fst]. apply NoDup_cons. split; [|exact (IH Hnd')].
    intros Hin. apply Hnotin.
    apply list_elem_of_fmap in Hin as (kb & -> & Hkb).
    apply list_elem_of_filter in Hkb as [_ Hkb].
    apply list_elem_of_fmap. exists kb. split; [reflexivity | exact Hkb].
  - apply List.Forall_forall. intros kb Hkb.
    apply list_elem_of_In, list_elem_of_filter in Hkb as [_ Hkb].
    rewrite List.Forall_forall in Hall. apply Hall, list_elem_of_In, Hkb.
Qed.

Lemma lookup_body_remove (k body_id : string) (bs : registry) :
  lookup_body k (filter (fun kb => negb (String.eqb (fst kb) body_id)) bs)
  = if String.eqb body_id k then None else lookup_body k bs.
Proof.
  unfold registry in *. induction bs as [|[k0 b0] rest IH].
  - cbn. destruct (String.eqb body_id k); reflexivity.
  - rewrite filter_cons. destruct (decide _) as [Hkeep|Hdrop].
    + apply kept_iff in Hkeep. cbn [fst] in Hkeep. cbn [lookup_body].
      destruct (String.eqb k0 k) eqn:Hk; [|exact IH].
      apply String.eqb_eq in Hk as ->.
      apply String.eqb_neq in Hkeep. rewrite String.eqb_sym, Hkeep. reflexivity.
    + rewrite kept_iff in Hdrop. cbn [fst] in Hdrop.
      assert (k0 = body_id) as -> by (destruct (string_dec k0 body_id); tauto).
      rewrite IH. cbn [lookup_body]. destruct (String.eqb body_id k); reflexivity.
Qed.

Lemma remove_absent (body_id : string) (bs : registry) :
  lookup_body body_id bs = None ->
  filter (fun kb => negb (String.eqb (fst kb) body_id)) bs = bs.
Proof.
  unfold registry in *. induction bs as [|[k0 b0] rest IH]; [reflexivity|].
  cbn [lookup_body]. destruct (String.eqb k0 body_id) eqn:Hk; [discriminate|].
  intros H. rewrite filter_cons_True.
  - rewrite (IH H). reflexivity.
  - apply kept_iff. cbn [fst]. apply String.eqb_neq. exact Hk.
Qed.

Lemma map_identity_assign (body_id : string) (b : PhysicsBody) (x' y' : R) (bs : registry) :
  lookup_body body_id bs = Some b ->
  map identity (assign body_id (dragged x' y' b) bs) = map identity bs.
Proof.
  induction bs as [|[k0 b0] rest IH]; cbn [lookup_body assign]; [discriminate|].
  destruct (String.eqb k0 body_id) eqn:Hk.
  - intros [= ->]. reflexivity.
  - intros H. cbn [map]. rewrite (IH H). reflexivity.
Qed.

Lemma well_keyed_identity (bs bs' : registry) :
  map identity bs' = map identity bs -> well_keyed bs -> well_keyed bs'.
Proof.
  intros Hid [Hnd Hall]. split.
  - replace (map fst bs') with (map (fun t => fst (fst (fst (fst (fst t))))) (map identity bs'))
      by (rewrite map_map; reflexivity).
    rewrite Hid, map_map. exact Hnd.
  - apply (Forall_map identity (fun t => fst (fst (fst (fst (fst t)))) = snd (fst (fst (fst (fst t)))))).
    rewrite Hid. apply Forall_map. exact Hall.
Qed.

Lemma integrate_identity (self : PhysicsEngine) (k : string) (body body' : PhysicsBody)
    (f : R * R) :
  integrate self body f = Ok body' -> identity (k, body') = identity (k, body).
Proof.
  unfold integrate. intros H.
  apply bind_Ok_inv in H as (v & _ & H).
  apply bind_Ok_inv in H as ([vx' vy'] & _ & [= <-]). reflexivity.
Qed.

Lemma step_loop_identity (self : PhysicsEngine) (n : nat) :
  forall (done todo : registry) (ups : list (string * Update)),
    map identity (fst (step_loop n self done todo ups)) = map identity (done ++ todo).
Proof.
  induction n as [|n IH]; intros done todo ups; [reflexivity|].
  destruct todo as [|[body_id body] rest]; [reflexivity|].
  cbn [step_loop].
  destruct (let* f := compute_forces (set_bodies self (done ++ (body_id, body) :: rest)) body
            in integrate self body f) as [body'|e] eqn:Hrun; [|reflexivity].
  apply bind_Ok_inv in Hrun as (f & _ & Hint).
  rewrite IH, <- app_assoc. cbn [app].
  rewrite !map_app. cbn [map]. rewrite (integrate_identity _ _ _ _ _ Hint). reflexivity.
Qed.

Lemma set_bodies_same (self : PhysicsEngine) : set_bodies self (bodies self) = self.
Proof. destruct self. reflexivity. Qed.

Lemma exec_well_keyed (c : command) (self : PhysicsEngine) :
  well_keyed (bodies self) -> well_keyed (bodies (exec c self)).
Proof.
  intros Hwk. destruct c as [body|body_id|body_id x' y'|]; cbn [exec].
  - apply assign_well_keyed. exact Hwk.
  - apply remove_well_keyed. exact Hwk.
  - unfold update_body_position.
    destruct (lookup_body body_id (bodies self)) as [b|] eqn:Hb; [|exact Hwk].
    cbn [bodies set_bodies].
    apply (well_keyed_identity (bodies self)); [|exact Hwk].
    apply (map_identity_assign body_id b x' y'). exact Hb.
  - unfold step.
    destruct (step_loop (length (bodies self)) self [] (bodies self) []) as [bs r] eqn:Hloop.
    cbn [fst bodies set_bodies].
    apply (well_keyed_identity (bodies self)); [|exact Hwk].
    change bs with (fst (bs, r)). rewrite <- Hloop. apply step_loop_identity.
Qed.

Lemma exec_constants (c : command) (self : PhysicsEngine) :
  constants (exec c self) = constants self.
Proof.
  destruct c as [body|body_id|body_id x' y'|]; cbn [exec]; try reflexivity.
  - unfold update_body_position.
    destruct (lookup_body body_id (bodies self)); reflexivity.
  - unfold step.
    destruct (step_loop (length (bodies self)) self [] (bodies self) []). reflexivity.
Qed.

(** X1.  [add_body] stores the body under its own id and leaves every
    other id as it was; a body whose id is already a key replaces the old
    one in place, so the order in which [step] visits the keys does not
    change, and a new id goes to the end. *)
Theorem add_body_stores_body (self : PhysicsEngine) (body : PhysicsBody) :
  (forall k,
     lookup_body k (bodies (add_body self body))
     = if String.eqb (id body) k then Some body else lookup_body k (bodies self)) /\
  map fst (bodies (add_body self body))
  = match lookup_body (id body) (bodies self) with
    | Some _ => map fst (bodies self)
    | None => map fst (bodies self) ++ [id body]
    end.
Proof.
  unfold add_body. cbn [bodies set_bodies]. split.
  - intros k. apply lookup_body_assign.
  - rewrite map_fst_assign.
    destruct (lookup_body (id body) (bodies self)) as [b|] eqn:Hb.
    + apply lookup_body_In, (in_map fst) in Hb. cbn [fst] in Hb.
      apply existsb_eqb_In in Hb. rewrite Hb. reflexivity.
    + apply lookup_body_None in Hb. rewrite <- existsb_eqb_In in Hb.
      destruct (existsb (String.eqb (id body)) (map fst (bodies self))); [|reflexivity].
      exfalso. apply Hb. reflexivity.
Qed.

(** X2.  [remove_body] deletes the body stored under [body_id] and no
    other; removing an id that is not a key leaves the registry as it
    was (no [KeyError]). *)
Theorem remove_body_deletes_only_that_id (self : PhysicsEngine) (body_id : string) :
  (forall k,
     lookup_body k (bodies (remove_body self body_id))
     = if String.eqb body_id k then None else lookup_body k (bodies self)) /\
  (lookup_body body_id (bodies self) = None -> remove_body self body_id = self).
Proof.
  unfold remove_body. split.
  - intros k. cbn [bodies set_bodies]. apply lookup_body_remove.
  - intros Habsent. rewrite (remove_absent _ _ Habsent). apply set_bodies_same.
Qed.

(** X2, at an id that is not a key of the two-body registry. *)
Lemma remove_body_deletes_only_that_id_witness : remove_body two_bodies "c" = two_bodies.
Proof.
  apply (proj2 (remove_body_deletes_only_that_id two_bodies "c")). reflexivity.
Defined.

(** X3.  [update_body_position] moves the body stored under [body_id] to
    the given point and sets its velocity to zero; its id, mass, radius,
    embedding and cluster, the other bodies and the order of the keys are
    unchanged, and an id that is not a key changes nothing. *)
Theorem update_body_position_drags_one_body (self : PhysicsEngine) (body_id : string)
    (x' y' : R) :
  (forall k,
     lookup_body k (bodies (update_body_position self body_id x' y'))
     = if String.eqb body_id k
       then option_map (dragged x' y') (lookup_body body_id (bodies self))
       else lookup_body k (bodies self)) /\
  map identity (bodies (update_body_position self body_id x' y'))
  = map identity (bodies self) /\
  (lookup_body body_id (bodies self) = None ->
   update_body_position self body_id x' y' = self).
Proof.
  unfold update_body_position.
  destruct (lookup_body body_id (bodies self)) as [b|] eqn:Hb.
  - cbn [bodies set_bodies option_map]. split; [|split].
    + intros k. apply lookup_body_assign.
    + apply map_identity_assign. exact Hb.
    + discriminate.
  - split; [|split; [reflexivity | reflexivity]].
    intros k. destruct (String.eqb body_id k) eqn:Hk; [|reflexivity].
    apply String.eqb_eq in Hk as <-. exact Hb.
Qed.

(** X3, at an id that is not a key of the two-body registry. *)
Lemma update_body_position_drags_one_body_witness :
  update_body_position two_bodies "c" 1 2 = two_bodies.
Proof.
  apply (proj2 (proj2 (update_body_position_drags_one_body two_bodies "c" 1 2))).
  reflexivity.
Defined.

(** X4.  Whatever sequence of [add_body], [remove_body],
    [update_body_position] and [step] calls is made on a new engine, no id
    is stored twice, every body is stored under its own id, and the nine
    constants of [__init__] keep their values. *)
Theorem registry_stays_well_keyed (cs : list command) :
  well_keyed (bodies (exec_all cs init)) /\
  constants (exec_all cs init) = constants init.
Proof.
  assert (Hrun : forall self,
             well_keyed (bodies self) ->
             well_keyed (bodies (exec_all cs self)) /\
             constants (exec_all cs self) = constants self).
  { unfold exec_all. induction cs as [|c cs IH]; intros self Hwk; cbn [fold_left].
    - split; [exact Hwk | reflexivity].
    - destruct (IH (exec c self) (exec_well_keyed c self Hwk)) as [Hwk' Hconst].
      split; [exact Hwk'|]. rewrite Hconst. apply exec_constants. }
  apply Hrun. split; constructor.
Qed.

(** *** What [step] keeps and what it reports *)

Lemma step_loop_reports (self : PhysicsEngine) (n : nat) :
  forall (done todo : registry) (ups ups' : list (string * Update)) (bs : registry),
    (length todo <= n)%nat ->
    step_loop n self done todo ups = (bs, Ok ups') ->
    exists new, bs = done ++ new /\ ups' = ups ++ map reported new.
Proof.
  induction n as [|n IH]; intros done todo ups ups' bs Hlen H.
  - destruct todo; [|simpl in Hlen; lia].
    simpl in H. injection H as <- <-. exists []. rewrite !app_nil_r. split; reflexivity.
  - destruct todo as [|[body_id body] rest].
    + simpl in H. injection H as <- <-. exists []. rewrite !app_nil_r. split; reflexivity.
    + simpl in Hlen. cbn [step_loop] in H.
      destruct (let* f := compute_forces (set_bodies self (done ++ (body_id, body) :: rest)) body
                in integrate self body f) as [body'|e]; [|discriminate].
      apply IH in H as (new & -> & ->); [|lia].
      exists ((body_id, body') :: new). rewrite <- !app_assoc. split; reflexivity.
Qed.

(** X5.  [step] never changes which bodies there are: the keys and their
    order, and the id, mass, radius, embedding and cluster of every body
    are the same afterwards, also when the call raises part of the way
    through. *)
Theorem step_keeps_identity (self : PhysicsEngine) :
  map identity (bodies (fst (step self))) = map identity (bodies self).
Proof.
  unfold step.
  destruct (step_loop (length (bodies self)) self [] (bodies self) []) as [bs r] eqn:Hloop.
  cbn [fst bodies set_bodies].
  change bs with (fst (bs, r)). rewrite <- Hloop. apply step_loop_identity.
Qed.

(** X6.  The dictionary a completed [step] returns has one entry for each
    body, in the order of the registry, and the entry holds the position
    and velocity the body has in the registry after the call. *)
Theorem step_reports_final_state (self self' : PhysicsEngine)
    (updates : list (string * Update)) :
  step self = (self', Ok updates) ->
  updates = map reported (bodies self').
Proof.
  unfold step. intros Hstep.
  destruct (step_loop (length (bodies self)) self [] (bodies self) []) as [bs r] eqn:Hloop.
  injection Hstep as <- ->. cbn [bodies set_bodies].
  apply step_loop_reports in Hloop as (new & -> & ->); [|lia]. reflexivity.
Qed.

(** X6, at the two-body example. *)
Lemma step_reports_final_state_witness :
  [("a"%string, update_of body_a'); ("b"%string, update_of body_b')]
  = map reported
      (bodies (set_bodies two_bodies [("a"%string, body_a'); ("b"%string, body_b')])).
Proof.
  apply (step_reports_final_state two_bodies). exact step_two_bodies.
Defined.

(** *** Bodies out of each other's range *)

Lemma force_on_out_of_range (self : PhysicsEngine) (body : PhysicsBody) (f : R * R)
    (entry : string * PhysicsBody) :
  (fst entry <> id body -> out_of_range self body (snd entry)) ->
  force_on self body f entry = Ok f.
Proof.
  destruct entry as [other_id other]. cbn [fst snd]. intros Hfar. unfold force_on.
  destruct (String.eqb other_id (id body)) eqn:Hid; [reflexivity|].
  apply String.eqb_neq in Hid. destruct (Hfar Hid) as [Hrep Hatt].
  rewrite geometry_Ok. cbn [bind]. destruct f as [fx fy].
  unfold repulsion.
  destruct (Rlt_dec (clamped_distance body other) (min_repulsion_distance self));
    [exfalso; lra|].
  cbn [bind]. unfold attraction.
  destruct (Rlt_dec (clamped_distance body other) (max_attraction_distance self));
    [exfalso; lra|].
  rewrite andb_false_r. reflexivity.
Qed.

Lemma compute_forces_loop_out_of_range (self : PhysicsEngine) (body : PhysicsBody) :
  forall (items : registry) (f : R * R),
    (forall entry, In entry items -> fst entry <> id body ->
                   out_of_range self body (snd entry)) ->
    compute_forces_loop self body items f = Ok f.
Proof.
  induction items as [|entry rest IH]; intros f Hfar; [reflexivity|].
  cbn [compute_forces_loop].
  rewrite force_on_out_of_range by (apply Hfar; left; reflexivity).
  cbn [bind]. apply IH. intros e He. apply Hfar. right. exact He.
Qed.

(** X8.  A body receives no force at all when every other body is out of
    range, that is at a distance of at least [min_repulsion_distance] and
    at least [max_attraction_distance]: whatever the embeddings,
    [compute_forces] returns [(0, 0)]. *)
Theorem no_force_out_of_range (self : PhysicsEngine) (body : PhysicsBody) :
  (forall entry, In entry (bodies self) -> fst entry <> id body ->
                 out_of_range self body (snd entry)) ->
  compute_forces self body = Ok (0, 0).
Proof.
  intros Hfar. unfold compute_forces. apply compute_forces_loop_out_of_range. exact Hfar.
Qed.

Lemma far_apart_out_of_range (a b : PhysicsBody) :
  (a = body_a /\ b = body_far) \/ (a = body_far /\ b = body_a) ->
  out_of_range far_apart a b.
Proof.
  intros [[-> ->]|[-> ->]]; unfold out_of_range, clamped_distance; simpl;
    eval_sqrt 1000; eval_if; lra.
Qed.

(** X8, at two bodies 1000 units apart. *)
Lemma no_force_out_of_range_witness : compute_forces far_apart body_a = Ok (0, 0).
Proof.
  apply (no_force_out_of_range far_apart body_a).
  intros entry [<-|[<-|[]]] Hid.
  - exfalso. apply Hid. reflexivity.
  - apply far_apart_out_of_range. left. split; reflexivity.
Defined.

Lemma integrate_at_rest (self : PhysicsEngine) (body : PhysicsBody) :
  at_rest body -> mass body <> 0 -> integrate self body (0, 0) = Ok body.
Proof.
  intros [Hvx Hvy] Hmass. unfold integrate, damped_velocity.
  rewrite !pydiv_Ok by exact Hmass. cbn [bind fst snd].
  rewrite Hvx, Hvy.
  replace ((0 + 0 / mass body * time_step self) * damping self) with 0
    by (unfold Rdiv; ring).
  unfold cap_velocity.
  replace (0 * 0 + 0 * 0) with 0 by ring. rewrite sqrt_0.
  destruct (Rlt_dec 0 0.1); [|exfalso; lra]. cbn [bind].
  destruct body. cbn in *. subst. f_equal. f_equal; ring.
Qed.

Lemma step_loop_fixed_point (self : PhysicsEngine) (n : nat) :
  forall (done todo : registry) (ups : list (string * Update)),
    Forall (fun kb => at_rest (snd kb) /\ mass (snd kb) <> 0) todo ->
    (forall a b, In a todo -> In b (done ++ todo) -> fst b <> id (snd a) ->
                 out_of_range self (snd a) (snd b)) ->
    step_loop n self done todo ups
    = (done ++ todo, Ok (ups ++ map reported (firstn n todo))).
Proof.
  induction n as [|n IH]; intros done todo ups Hrest Hfar.
  - cbn [step_loop firstn map]. rewrite !app_nil_r. reflexivity.
  - destruct todo as [|[body_id body] rest].
    + cbn [step_loop firstn map]. rewrite !app_nil_r. reflexivity.
    + cbn [step_loop].
      assert (Hforce : compute_forces (set_bodies self (done ++ (body_id, body) :: rest)) body
                       = Ok (0, 0)).
      { unfold compute_forces. cbn [bodies set_bodies].
        apply compute_forces_loop_out_of_range. intros entry Hentry Hid.
        apply (Hfar (body_id, body) entry); [left; reflexivity | exact Hentry | exact Hid]. }
      rewrite Hforce. cbn [bind].
      inversion Hrest as [|? ? [Hstill Hmass] Hrest']; subst. cbn [snd] in Hstill, Hmass.
      rewrite (integrate_at_rest self body Hstill Hmass).
      rewrite IH.
      * rewrite <- !app_assoc. reflexivity.
      * exact Hrest'.
      * intros a b Ha Hb. apply Hfar; [right; exact Ha|].
        rewrite <- app_assoc in Hb. exact Hb.
Qed.

(** X9.  A registry in equilibrium stays as it is: when every body is at
    rest with a non-zero mass and every two bodies are out of each other's
    range, [step] completes, changes no body, and reports the unchanged
    positions with zero velocities. *)
Theorem step_fixed_point (self : PhysicsEngine) :
  Forall (fun kb => at_rest (snd kb) /\ mass (snd kb) <> 0) (bodies self) ->
  (forall a b, In a (bodies self) -> In b (bodies self) -> fst b <> id (snd a) ->
               out_of_range self (snd a) (snd b)) ->
  step self = (self, Ok (map reported (bodies self))).
Proof.
  intros Hrest Hfar. unfold step.
  rewrite (step_loop_fixed_point self _ [] (bodies self) [] Hrest Hfar).
  cbn [app]. rewrite firstn_all, set_bodies_same. reflexivity.
Qed.

(** X9, at two bodies 1000 units apart, at rest. *)
Lemma step_fixed_point_witness :
  step far_apart = (far_apart, Ok (map reported (bodies far_apart))).
Proof.
  apply (step_fixed_point far_apart).
  - repeat constructor; simpl; lra.
  - intros a b [<-|[<-|[]]] [<-|[<-|[]]] Hid;
      try (exfalso; apply Hid; reflexivity);
      apply far_apart_out_of_range; [left | right]; split; reflexivity.
Defined.

(** *** Repulsion *)

Lemma div_le_1 (a b : R) : 0 < b -> a <= b -> a / b <= 1.
Proof.
  intros Hb Hab. replace 1 with (b / b) by (field; lra).
  apply Rmult_le_compat_r; [left; apply Rinv_0_lt_compat; exact Hb | exact Hab].
Qed.

Lemma unit_vector_short (body other : PhysicsBody) :
  let d := clamped_distance body other in
  let ux := (x other - x body) / d in
  let uy := (y other - y body) / d in
  sqrt (ux * ux + uy * uy) <= 1.
Proof.
  intros d ux uy. subst ux uy.
  pose proof (clamped_distance_ge_1 body other) as Hd. fold d in Hd.
  set (dx := x other - x body). set (dy := y other - y body).
  assert (Hsq : dx * dx + dy * dy <= d * d).
  { unfold d, clamped_distance. fold dx dy.
    pose proof (sqrt_pos (dx * dx + dy * dy)) as Hpos.
    assert (Hs : sqrt (dx * dx + dy * dy) * sqrt (dx * dx + dy * dy) = dx * dx + dy * dy)
      by (apply sqrt_sqrt; nra).
    destruct (Rlt_dec (sqrt (dx * dx + dy * dy)) 1); nra. }
  rewrite <- sqrt_1. apply sqrt_le_1_alt.
  replace (dx / d * (dx / d) + dy / d * (dy / d)) with ((dx * dx + dy * dy) / (d * d))
    by (field; lra).
  apply div_le_1; nra.
Qed.

(** X10.  Between two bodies of which one has no embedding the pair force
    is repulsion only: with a non-negative [repulsion_strength] it never
    points towards the other body (its component along the direction to
    the other body is at most zero), and its magnitude is at most
    [repulsion_strength]. *)
Theorem repulsion_pushes_apart (self : PhysicsEngine) (body : PhysicsBody)
    (entry : string * PhysicsBody) :
  0 <= repulsion_strength self ->
  no_embedding body \/ no_embedding (snd entry) ->
  exists fx fy,
    pair_force self body entry = Ok (fx, fy) /\
    fx * (x (snd entry) - x body) + fy * (y (snd entry) - y body) <= 0 /\
    sqrt (fx * fx + fy * fy) <= repulsion_strength self.
Proof.
  intros Hrs Hemb. destruct entry as [other_id other]. cbn [snd] in *.
  unfold pair_force, force_on.
  destruct (String.eqb other_id (id body)).
  { exists 0, 0. split; [reflexivity|]. split; [lra|].
    replace (0 * 0 + 0 * 0) with 0 by ring. rewrite sqrt_0. exact Hrs. }
  rewrite geometry_Ok. cbn [bind].
  pose proof (clamped_distance_ge_1 body other) as Hd.
  pose proof (unit_vector_short body other) as Hunit. cbv zeta in Hunit.
  set (d := clamped_distance body other) in *.
  set (dx := x other - x body) in *. set (dy := y other - y body) in *.
  unfold repulsion.
  destruct (Rlt_dec d (min_repulsion_distance self)) as [Hnear|Hfar].
  - rewrite pydiv_Ok by lra. cbn [bind].
    rewrite attraction_no_embedding by exact Hemb.
    set (rf := repulsion_strength self * (1 - d / min_repulsion_distance self)).
    assert (Hq : 0 <= d / min_repulsion_distance self <= 1).
    { split; [apply Rle_mult_inv_pos; lra|]. apply div_le_1; lra. }
    assert (Hrf : 0 <= rf <= repulsion_strength self) by (unfold rf; nra).
    exists (0 - dx / d * rf), (0 - dy / d * rf). split; [reflexivity|]. split.
    + replace ((0 - dx / d * rf) * dx + (0 - dy / d * rf) * dy)
        with (- (rf * ((dx * dx + dy * dy) / d))) by (field; lra).
      assert (0 <= (dx * dx + dy * dy) / d) by (apply Rle_mult_inv_pos; nra).
      nra.
    + replace ((0 - dx / d * rf) * (0 - dx / d * rf) + (0 - dy / d * rf) * (0 - dy / d * rf))
        with ((dx / d * rf) * (dx / d * rf) + (dy / d * rf) * (dy / d * rf)) by ring.
      rewrite sqrt_sum_squares_scale by lra.
      pose proof (sqrt_pos (dx / d * (dx / d) + dy / d * (dy / d))). nra.
  - cbn [bind]. rewrite attraction_no_embedding by exact Hemb.
    exists 0, 0. split; [reflexivity|]. split; [lra|].
    replace (0 * 0 + 0 * 0) with 0 by ring. rewrite sqrt_0. exact Hrs.
Qed.

(** X10, at the two-body example. *)
Lemma repulsion_pushes_apart_witness :
  exists fx fy,
    pair_force two_bodies body_a ("b"%string, body_b) = Ok (fx, fy) /\
    fx * (x body_b - x body_a) + fy * (y body_b - y body_a) <= 0 /\
    sqrt (fx * fx + fy * fy) <= repulsion_strength two_bodies.
Proof.
  apply (repulsion_pushes_apart two_bodies body_a ("b"%string, body_b)).
  - simpl. lra.
  - left. reflexivity.
Defined.

(** *** The range of the similarity *)

Lemma dot_Ok_length (u : list R) : forall v d, dot u v = Ok d -> length u = length v.
Proof.
  induction u as [|a u IH]; intros [|b v] d H; cbn [dot] in H; try discriminate.
  - reflexivity.
  - apply bind_Ok_inv in H as (s & Hs & _). cbn [length]. f_equal. exact (IH _ _ Hs).
Qed.

Lemma dot_mismatch (u : list R) :
  forall v, length u <> length v -> dot u v = Raise ValueError.
Proof.
  induction u as [|a u IH]; intros [|b v] Hlen; cbn [dot]; try reflexivity.
  - exfalso. apply Hlen. reflexivity.
  - rewrite IH; [reflexivity|]. cbn [length] in Hlen. lia.
Qed.

Lemma dot_scaled (c1 c2 : R) (u : list R) :
  c1 <> 0 -> c2 <> 0 ->
  forall v d, dot u v = Ok d ->
    dot (map (fun a => a / c1) u) (map (fun a => a / c2) v) = Ok (d / (c1 * c2)).
Proof.
  intros Hc1 Hc2. induction u as [|a u IH]; intros [|b v] d H; cbn [dot map] in *;
    try discriminate.
  - injection H as <-. f_equal. field. split; assumption.
  - apply bind_Ok_inv in H as (s & Hs & [= <-]).
    rewrite (IH _ _ Hs). cbn [bind]. f_equal. field. split; assumption.
Qed.

Lemma cauchy_schwarz_step (a b s U V : R) :
  0 <= U -> 0 <= V -> s * s <= U * V ->
  (a * b + s) * (a * b + s) <= (a * a + U) * (b * b + V).
Proof.
  intros HU HV Hs.
  set (p := a * a * V). set (q := b * b * U).
  assert (Hp : 0 <= p) by (unfold p; apply Rmult_le_pos; [nra | exact HV]).
  assert (Hq : 0 <= q) by (unfold q; apply Rmult_le_pos; [nra | exact HU]).
  assert (H1 : (2 * a * b * s) * (2 * a * b * s) <= (p + q) * (p + q)).
  { assert (H2 : (a * b) * (a * b) * (s * s) <= (a * b) * (a * b) * (U * V)).
    { apply Rmult_le_compat_l; [nra | exact Hs]. }
    pose proof (Rle_0_sqr (p - q)) as H3. unfold Rsqr in H3.
    unfold p, q in *. nra. }
  assert (H4 : 2 * a * b * s <= p + q).
  { destruct (Rle_dec (2 * a * b * s) (p + q)) as [Hle|Hgt]; [exact Hle|]. exfalso. nra. }
  unfold p, q in H4. nra.
Qed.

Lemma cauchy_schwarz (u : list R) :
  forall v d, dot u v = Ok d ->
    d * d <= fold_right (fun a acc => a * a + acc) 0 u
             * fold_right (fun a acc => a * a + acc) 0 v.
Proof.
  induction u as [|a u IH]; intros [|b v] d H; cbn [dot fold_right] in *; try discriminate.
  - injection H as <-. lra.
  - apply bind_Ok_inv in H as (s & Hs & [= <-]).
    apply cauchy_schwarz_step; [apply sum_squares_nonneg | apply sum_squares_nonneg |].
    exact (IH _ _ Hs).
Qed.

Lemma dot_le_norms (u v : list R) (d : R) :
  dot u v = Ok d -> - (norm u * norm v) <= d <= norm u * norm v.
Proof.
  intros H. apply cauchy_schwarz in H. unfold norm.
  set (U := fold_right (fun a acc => a * a + acc) 0 u) in *.
  set (V := fold_right (fun a acc => a * a + acc) 0 v) in *.
  assert (HU : 0 <= U) by apply sum_squares_nonneg.
  assert (HV : 0 <= V) by apply sum_squares_nonneg.
  pose proof (sqrt_pos U) as HsU. pose proof (sqrt_pos V) as HsV.
  pose proof (sqrt_sqrt U HU) as HUU. pose proof (sqrt_sqrt V HV) as HVV.
  assert (Hsq : d * d <= (sqrt U * sqrt V) * (sqrt U * sqrt V)) by nra.
  assert (Hn : 0 <= sqrt U * sqrt V) by nra.
  split; nra.
Qed.

Lemma norm_nonneg (v : list R) : 0 <= norm v.
Proof. apply sqrt_pos. Qed.

Lemma compute_similarity_inv (e1 e2 : list R) (s : R) :
  compute_similarity e1 e2 = Ok s ->
  exists d, dot e1 e2 = Ok d /\
            s = (d / ((norm e1 + 1e-8) * (norm e2 + 1e-8)) + 1) / 2.
Proof.
  unfold compute_similarity. intros H.
  apply bind_Ok_inv in H as (s' & Hs' & [= <-]).
  pose proof (norm_nonneg e1) as H1. pose proof (norm_nonneg e2) as H2.
  destruct (Nat.eq_dec (length e1) (length e2)) as [Hlen|Hlen].
  - destruct (dot_total e1 e2 Hlen) as (d & Hd).
    rewrite (dot_scaled (norm e1 + 1e-8) (norm e2 + 1e-8) e1) with (d := d) in Hs';
      [|lra|lra|exact Hd].
    injection Hs' as <-. exists d. split; [exact Hd | reflexivity].
  - rewrite dot_mismatch in Hs'; [discriminate|]. rewrite !length_map. exact Hlen.
Qed.

(** X11.  Whenever [compute_similarity] returns, its value lies between
    [0] and [1], for embeddings of any length and any norm, the zero
    vector included. *)
Theorem compute_similarity_in_unit_interval (embedding1 embedding2 : list R) (s : R) :
  compute_similarity embedding1 embedding2 = Ok s -> 0 <= s <= 1.
Proof.
  intros H. apply compute_similarity_inv in H as (d & Hd & ->).
  apply dot_le_norms in Hd.
  pose proof (norm_nonneg embedding1) as H1. pose proof (norm_nonneg embedding2) as H2.
  set (n1 := norm embedding1) in *. set (n2 := norm embedding2) in *.
  assert (Hc : 0 < (n1 + 1e-8) * (n2 + 1e-8)) by nra.
  assert (Hq : -1 <= d / ((n1 + 1e-8) * (n2 + 1e-8)) <= 1).
  { split.
    - replace (-1) with (- (1)) by ring.
      replace (d / ((n1 + 1e-8) * (n2 + 1e-8))) with (- ((- d) / ((n1 + 1e-8) * (n2 + 1e-8))))
        by (field; lra).
      apply Ropp_le_contravar. apply div_le_1; nra.
    - apply div_le_1; nra. }
  lra.
Qed.

(** X11, at the embeddings [[0, 0]] and [[1, 0]], of similarity [1/2]. *)
Lemma compute_similarity_in_unit_interval_witness : 0 <= 1 / 2 <= 1.
Proof.
  apply (compute_similarity_in_unit_interval [0; 0] [1; 0]).
  exact (proj1 (compute_similarity_zero_norm [0; 0] [1; 0] norm_zero_example eq_refl)).
Defined.

(** X12.  [compute_similarity] raises [ValueError] exactly when the two
    embeddings differ in length, and returns a number exactly when their
    lengths agree. *)
Theorem compute_similarity_raises_on_dimension_mismatch (embedding1 embedding2 : list R) :
  (length embedding1 <> length embedding2 <->
   compute_similarity embedding1 embedding2 = Raise ValueError) /\
  (length embedding1 = length embedding2 <->
   exists s, compute_similarity embedding1 embedding2 = Ok s).
Proof.
  assert (Hbad : length embedding1 <> length embedding2 ->
                 compute_similarity embedding1 embedding2 = Raise ValueError).
  { intros Hlen. unfold compute_similarity.
    rewrite dot_mismatch; [reflexivity|]. rewrite !length_map. exact Hlen. }
  assert (Hgood : length embedding1 = length embedding2 ->
                  exists s, compute_similarity embedding1 embedding2 = Ok s).
  { apply compute_similarity_total. }
  split; split.
  - exact Hbad.
  - intros Hraise Hlen. destruct (Hgood Hlen) as [s Hs]. congruence.
  - exact Hgood.
  - intros [s Hs]. destruct (Nat.eq_dec (length embedding1) (length embedding2)) as [Hlen|Hlen];
      [exact Hlen|]. rewrite (Hbad Hlen) in Hs. discriminate.
Qed.

(** *** Mutual neighbours *)

Lemma distance_between_sym (a b : PhysicsBody) : distance_between b a = distance_between a b.
Proof. unfold distance_between. f_equal. ring. Qed.

Lemma neighbor_similarity_sym (a b : PhysicsBody) :
  neighbor_similarity b a = neighbor_similarity a b.
Proof.
  unfold neighbor_similarity. rewrite andb_comm.
  destruct (truthy (embedding a) && truthy (embedding b)); [|reflexivity].
  apply compute_similarity_comm.
Qed.

Lemma get_nearest_neighbors_In (self : PhysicsEngine) (body_id : string) (body : PhysicsBody)
    (max_distance min_similarity : R) (l : list Neighbor) :
  lookup_body body_id (bodies self) = Some body ->
  get_nearest_neighbors self body_id max_distance min_similarity = Ok l ->
  forall n, In n l <->
    exists entry, In entry (bodies self) /\
      neighbor_of Rge body_id body max_distance min_similarity entry n.
Proof.
  unfold get_nearest_neighbors. intros -> H n.
  apply bind_Ok_inv in H as (found & Hloop & [= <-]).
  apply neighbors_loop_spec in Hloop as (l' & -> & Hl'). cbn [app].
  rewrite <- Hl'. split; apply Permutation_in; [| symmetry]; apply sort_by_similarity_perm.
Qed.

(** X13.  Neighbourhood is mutual: in a registry with distinct keys, when
    the body [id_b] is among the neighbours returned for [id_a], the body
    [id_a] is among the neighbours returned for [id_b] under the same
    bounds, with the same distance and the same similarity. *)
Theorem neighbors_are_mutual (self : PhysicsEngine) (id_a id_b : string)
    (a b : PhysicsBody) (max_distance min_similarity : R) (la lb : list Neighbor) :
  well_keyed (bodies self) ->
  lookup_body id_a (bodies self) = Some a ->
  lookup_body id_b (bodies self) = Some b ->
  get_nearest_neighbors self id_a max_distance min_similarity = Ok la ->
  get_nearest_neighbors self id_b max_distance min_similarity = Ok lb ->
  forall n, In n la -> n_id n = id_b ->
    In (mkNeighbor id_a (n_distance n) (n_similarity n) (x a) (y a)) lb.
Proof.
  intros [Hnd _] Ha Hb Hla Hlb n Hn Hid.
  apply (get_nearest_neighbors_In _ _ _ _ _ _ Ha Hla) in Hn
    as ([k other] & Hentry & Hne & Hdist & s & Hsim & Hge & ->).
  cbn [fst snd n_id n_distance n_similarity] in *. subst k.
  apply (In_lookup_body _ _ _ Hnd) in Hentry. rewrite Hb in Hentry. injection Hentry as <-.
  apply (get_nearest_neighbors_In _ _ _ _ _ _ Hb Hlb).
  exists (id_a, a). split; [apply lookup_body_In; exact Ha|].
  split; [cbn [fst]; congruence|]. cbn [fst snd].
  split; [rewrite distance_between_sym; exact Hdist|].
  exists s. split; [rewrite neighbor_similarity_sym; exact Hsim|].
  split; [exact Hge|]. rewrite distance_between_sym. reflexivity.
Qed.

Lemma neighbors_of_b :
  get_nearest_neighbors two_bodies "b" 500 0 = Ok [mkNeighbor "a" 50 0 0 0].
Proof.
  unfold get_nearest_neighbors.
  change (bodies two_bodies) with [("a"%string, body_a); ("b"%string, body_b)].
  change (lookup_body "b" [("a"%string, body_a); ("b"%string, body_b)]) with (Some body_b).
  cbn [neighbors_loop String.eqb Ascii.eqb Bool.eqb].
  unfold distance_between, neighbor_similarity. simpl.
  eval_sqrt 50. repeat eval_if. reflexivity.
Qed.

Lemma two_bodies_well_keyed : well_keyed (bodies two_bodies).
Proof.
  unfold two_bodies, add_body. cbn [bodies set_bodies init].
  apply assign_well_keyed, assign_well_keyed. split; constructor.
Qed.

(** X13, at the two-body example. *)
Lemma neighbors_are_mutual_witness :
  In (mkNeighbor "a" 50 0 (x body_a) (y body_a)) [mkNeighbor "a" 50 0 0 0].
Proof.
  apply (neighbors_are_mutual two_bodies "a" "b" body_a body_b 500 0
           [mkNeighbor "b" 50 0 50 0] [mkNeighbor "a" 50 0 0 0]
           two_bodies_well_keyed eq_refl eq_refl neighbors_of_a neighbors_of_b
           (mkNeighbor "b" 50 0 50 0)).
  - left. reflexivity.
  - reflexivity.
Defined.

(** *** Placing a new item *)


Lemma similarities_loop_no_embedding (embedding : list R) (items : list ExistingItem) :
  Forall (fun item => truthy (e_embedding item) = false) items ->
  forall acc, similarities_loop embedding items acc = Ok acc.
Proof.
  intros Hall. induction Hall as [|item rest Hitem _ IH]; intros acc;
    cbn [similarities_loop]; [reflexivity|].
  rewrite Hitem. apply IH.
Qed.






(** X14.  When the list of existing items is empty, or no item in it has
    a non-empty embedding, [suggest_position_for_new_item] returns the
    origin [(0, 0)], whatever the random draws. *)
Theorem suggest_position_without_embeddings (embedding : list R)
    (existing_items : list ExistingItem) (jitter_x jitter_y : R) :
  Forall (fun item => truthy (e_embedding item) = false) existing_items ->
  suggest_position_for_new_item embedding existing_items jitter_x jitter_y = Ok (0, 0).
Proof.
  intros Hall. unfold suggest_position_for_new_item.
  destruct existing_items as [|item rest]; [reflexivity|].
  rewrite (similarities_loop_no_embedding _ _ Hall). reflexivity.
Qed.

(** X14, at one item without an embedding. *)
Lemma suggest_position_without_embeddings_witness :
  suggest_position_for_new_item [1; 0] [placed_2] 10 (-10) = Ok (0, 0).
Proof.
  apply (suggest_position_without_embeddings [1; 0] [placed_2] 10 (-10)).
  repeat constructor.
Defined.





End PhysicsFacts.

(** ** The physics step in binary64 *)

Module Physics64Facts.
Import PrimFloat FloatOps SpecFloat QArith.
Import Physics64.
#[local] Set Warnings "-inexact-float".
Local Open Scope float_scope.

(** *** The velocity cap *)

(** A body whose speed after damping is below [0.1] is stopped. *)
Lemma cap_velocity_stops_slow_body (self : PhysicsEngine) (vx' vy' : float) :
  (sqrt (vx' * vx' + vy' * vy') <? 0.1) = true ->
  cap_velocity self vx' vy' = Ok (0.0, 0.0).
Proof. intros Hslow. unfold cap_velocity. rewrite Hslow. reflexivity. Qed.

(** A body between the two thresholds keeps its damped velocity. *)
Lemma cap_velocity_keeps_moderate_body (self : PhysicsEngine) (vx' vy' : float) :
  (sqrt (vx' * vx' + vy' * vy') <? 0.1) = false ->
  (max_velocity self <? sqrt (vx' * vx' + vy' * vy')) = false ->
  cap_velocity self vx' vy' = Ok (vx', vy').
Proof. intros Hslow Hfast. unfold cap_velocity. rewrite Hslow, Hfast. reflexivity. Qed.

(** C1.  A step can leave a body faster than the cap.  With the constants
    of [__init__] and two bodies at [(0, 0)] and [(1, 6)], [step] returns
    and leaves body [a] with the velocity
    [(-2.4659848095803594, -14.795908857482159)]: its speed as the program
    computes it is [15.000000000000004], above [max_velocity = 15.0], and
    the exact sum of the squares of the two components is above [15^2].
    The velocity was rescaled by [max_velocity / velocity], and the
    rounding of the two products left it outside the cap. *)
Theorem step_leaves_speed_above_cap :
  step (np := no_embeddings) close_pair
  = (set_bodies close_pair [("a"%string, body_a'); ("b"%string, body_b')],
     Ok [("a"%string, update_of body_a'); ("b"%string, update_of body_b')]) /\
  speed body_a' = 15.000000000000004 /\
  (max_velocity close_pair <? speed body_a') = true /\
  exists qx qy : Q,
    exact (vx body_a') = Some qx /\
    exact (vy body_a') = Some qy /\
    (15 * 15 < qx * qx + qy * qy)%Q.
Proof.
  split; [vm_compute; reflexivity|].
  split; [vm_compute; reflexivity|].
  split; [vm_compute; reflexivity|].
  eexists. eexists.
  split; [vm_compute; reflexivity|].
  split; [vm_compute; reflexivity|].
  vm_compute. reflexivity.
Qed.

End Physics64Facts.

(** ** The clustering service *)

Module ClusteringFacts.
Import RealAux RealFacts Clustering.
Local Open Scope R_scope.

Section Service.

Context {env : Environment}.

(** *** Validation *)

Lemma full_match_algorithm (s : string) :
  full_match algorithm_pattern s = true <-> s = "dbscan"%string \/ s = "kmeans"%string.
Proof.
  unfold algorithm_pattern. cbn [full_match].
  rewrite orb_true_iff, !String.eqb_eq.
  split; intros [H|H]; auto.
Qed.

(** C3.  A request whose algorithm name is neither ["dbscan"] nor
    ["kmeans"] is answered 422 by validation: the handler is not entered
    and no call into scikit-learn is made, so no labels are computed. *)
Theorem unknown_algorithm_rejected (body : RequestBody) (items : list Item)
    (embeddings : list (list R)) (algorithm_name : string) :
  body_algorithm body = Some algorithm_name ->
  algorithm_name <> "dbscan"%string ->
  algorithm_name <> "kmeans"%string ->
  compute_clusters_route body items embeddings = ([], Unprocessable).
Proof.
  intros Hname Hd Hk. unfold compute_clusters_route, validate.
  rewrite Hname. cbn [default from_option Datatypes.id].
  destruct (full_match algorithm_pattern algorithm_name) eqn:Hmatch.
  - apply full_match_algorithm in Hmatch as [?|?]; contradiction.
  - reflexivity.
Qed.

(** Only validation stands between an unknown name and a run: the service
    itself treats every name other than ["dbscan"] as k-means. *)
Lemma service_defaults_to_kmeans (self : ClusteringService) (items : list Item)
    (embeddings X_scaled : list (list R)) :
  algorithm self <> "dbscan"%string ->
  (2 <= length items)%nat -> (2 <= length embeddings)%nat ->
  fit_transform embeddings = Ok X_scaled ->
  exists k, fst (compute_clusters self items embeddings)
            = [StandardScaler_fit_transform; KMeans_fit_predict k].
Proof.
  intros Halg Hi He Hfit. unfold compute_clusters.
  destruct (Nat.ltb_spec (length items) 2); [lia|].
  destruct (Nat.ltb_spec (length embeddings) 2); [lia|].
  cbn [orb]. rewrite Hfit.
  apply String.eqb_neq in Halg. rewrite Halg.
  unfold _kmeans_cluster. simpl. eauto.
Qed.

(** *** Too few items *)

(** C6.  With fewer than two items, or fewer than two embeddings,
    [compute_clusters] returns the empty list: it does not raise, and it
    calls nothing. *)
Theorem compute_clusters_too_few (self : ClusteringService) (items : list Item)
    (embeddings : list (list R)) :
  (length items < 2)%nat \/ (length embeddings < 2)%nat ->
  compute_clusters self items embeddings = ([], Ok []).
Proof.
  intros H. unfold compute_clusters.
  destruct (Nat.ltb_spec (length items) 2); [reflexivity|].
  destruct (Nat.ltb_spec (length embeddings) 2); [reflexivity|].
  lia.
Qed.

(** *** Cluster geometry *)

Lemma max_from_spec (values : list R) :
  forall current, is_maximum (max_from current values) (current :: values).
Proof.
  induction values as [|v rest IH]; intros current; simpl.
  - split; [left; reflexivity|]. intros w [<-|[]]. lra.
  - destruct (IH (if Rgt_dec v current then v else current)) as [Hin Hmax].
    split.
    + destruct Hin as [Hin|Hin]; [|right; right; exact Hin].
      rewrite <- Hin. destruct (Rgt_dec v current); [right; left|left]; reflexivity.
    + intros w [<-|[<-|Hw]].
      * specialize (Hmax _ (or_introl eq_refl)).
        destruct (Rgt_dec v current); lra.
      * specialize (Hmax _ (or_introl eq_refl)).
        destruct (Rgt_dec v current); lra.
      * apply Hmax. right. exact Hw.
Qed.

Lemma py_max_spec (values : list R) (d : R) :
  py_max values = Ok d -> is_maximum d values.
Proof.
  destruct values as [|v rest]; simpl; [discriminate|].
  intros [= <-]. apply max_from_spec.
Qed.

Lemma build_cluster_inv (items : list Item) (labels : list Z) (label_idx : nat)
    (label : Z) (c : Cluster) :
  build_cluster items labels label_idx label = Ok (Some c) ->
  cluster_geometry items labels c.
Proof.
  unfold build_cluster. intros H.
  destruct (Z.eqb_spec label (-1)) as [|Hnoise]; [discriminate|].
  apply bind_Ok_inv in H as (members & Hsel & H).
  destruct (Nat.ltb_spec (length members) 2) as [|Hlen]; [discriminate|].
  apply bind_Ok_inv in H as (cx & Hcx & H).
  apply bind_Ok_inv in H as (cy & Hcy & H).
  apply bind_Ok_inv in H as (d & Hd & H).
  apply bind_Ok_inv in H as (kw & _ & [= <-]).
  exists label, members, d. simpl.
  repeat (split; [first [assumption | reflexivity]|]).
  split; [apply py_max_spec; exact Hd|].
  split; [reflexivity | lra].
Qed.

Lemma build_loop_inv (items : list Item) (labels : list Z) :
  forall (todo : list Z) (label_idx : nat) (acc clusters : list Cluster),
    build_loop items labels label_idx todo acc = Ok clusters ->
    forall c, In c clusters -> In c acc \/ cluster_geometry items labels c.
Proof.
  induction todo as [|label rest IH]; intros label_idx acc clusters H c Hc; simpl in H.
  - injection H as <-. left. exact Hc.
  - apply bind_Ok_inv in H as (built & Hbuilt & H).
    destruct (IH _ _ _ H c Hc) as [Hacc|Hgeo]; [|right; exact Hgeo].
    destruct built as [cluster|]; [|left; exact Hacc].
    apply in_app_or in Hacc as [Hacc|[<-|[]]]; [left; exact Hacc|].
    right. eapply build_cluster_inv. exact Hbuilt.
Qed.

(** C9.  Every cluster a run of [compute_clusters] returns has, for the
    labels the run computed, the geometry above: in particular its radius
    is the largest distance of a member's canvas position from the
    cluster's centre plus [100], and so at least that distance. *)
Theorem cluster_radius_max_distance_plus_padding (self : ClusteringService)
    (items : list Item) (embeddings : list (list R)) (calls : list call)
    (clusters : list Cluster) :
  compute_clusters self items embeddings = (calls, Ok clusters) ->
  forall c, In c clusters ->
    exists X_scaled labels,
      fit_transform embeddings = Ok X_scaled /\
      snd (if String.eqb (algorithm self) "dbscan" then _dbscan_cluster self X_scaled
           else _kmeans_cluster self X_scaled (length items)) = Ok labels /\
      cluster_geometry items labels c.
Proof.
  unfold compute_clusters. intros H c Hc.
  destruct ((length items <? 2)%nat || (length embeddings <? 2)%nat).
  { injection H as _ <-. destruct Hc. }
  destruct (fit_transform embeddings) as [X_scaled|e]; [|discriminate].
  destruct (if String.eqb (algorithm self) "dbscan" then _dbscan_cluster self X_scaled
            else _kmeans_cluster self X_scaled (length items)) as [calls' labels] eqn:Hrun.
  injection H as _ H.
  apply bind_Ok_inv in H as (computed & -> & Hbuild).
  exists X_scaled, computed.
  split; [reflexivity|]. split; [rewrite Hrun; reflexivity|].
  destruct (build_loop_inv _ _ _ _ _ _ Hbuild c Hc) as [[]|Hgeo]. exact Hgeo.
Qed.

(** *** The number of clusters k-means is asked for *)

(** X16.  When no cluster count is given ([n_clusters] is [None], or
    [0]), [_kmeans_cluster] asks k-means for [min(max(2, n_items // 5), 10)]
    clusters: always between [2] and [10], [2] below 15 items, a fifth of
    the items rounded down from 10 to 54 items, and [10] from 50 items
    on. *)
Theorem kmeans_auto_cluster_count (self : ClusteringService) (X : list (list R))
    (n_items : nat) :
  n_clusters self = None \/ n_clusters self = Some 0%Z ->
  exists k,
    _kmeans_cluster self X n_items = ([KMeans_fit_predict k], kmeans_fit_predict k X) /\
    (2 <= k <= 10)%Z /\
    ((n_items < 15)%nat -> k = 2%Z) /\
    ((10 <= n_items <= 54)%nat -> (5 * k <= Z.of_nat n_items < 5 * k + 5)%Z) /\
    ((50 <= n_items)%nat -> k = 10%Z).
Proof.
  intros Hauto. exists (Z.min (Z.max 2 (Z.of_nat n_items / 5)) 10). split.
  - unfold _kmeans_cluster. destruct Hauto as [-> | ->]; reflexivity.
  - pose proof (Z.div_mod (Z.of_nat n_items) 5 ltac:(lia)) as Hdiv.
    pose proof (Z.mod_pos_bound (Z.of_nat n_items) 5 ltac:(lia)) as Hmod.
    repeat split; intros; lia.
Qed.

Lemma kmeans_given_cluster_count (self : ClusteringService) (X : list (list R))
    (n_items : nat) (k : Z) :
  n_clusters self = Some k -> k <> 0%Z ->
  _kmeans_cluster self X n_items = ([KMeans_fit_predict k], kmeans_fit_predict k X).
Proof.
  intros Hk Hnz. unfold _kmeans_cluster. rewrite Hk.
  destruct (Z.eqb_spec k 0); [contradiction | reflexivity].
Qed.

(** *** What reaches scikit-learn through the endpoint *)

Lemma validate_inv (body : RequestBody) (request : ComputeClustersRequest) :
  validate body = Some request ->
  (req_algorithm request = "dbscan"%string \/ req_algorithm request = "kmeans"%string) /\
  0.1 <= req_eps request <= 2 /\
  (2 <= req_min_samples request <= 10)%Z /\
  match req_n_clusters request with
  | Some k => (2 <= k <= 20)%Z
  | None => True
  end.
Proof.
  unfold validate. intros H.
  destruct (full_match algorithm_pattern (default "dbscan"%string (body_algorithm body)))
    eqn:Halg; [|discriminate].
  destruct (Rle_dec 0.1 (default 0.5 (body_eps body))) as [Hlo|]; [|discriminate].
  destruct (Rle_dec (default 0.5 (body_eps body)) 2.0) as [Hhi|]; [|discriminate].
  destruct (Z.leb_spec 2 (default 2%Z (body_min_samples body))) as [Hmlo|]; [|discriminate].
  destruct (Z.leb_spec (default 2%Z (body_min_samples body)) 10) as [Hmhi|]; [|discriminate].
  cbn [andb] in H.
  destruct (body_n_clusters body) as [k|] eqn:Hk.
  - destruct (Z.leb_spec 2 k) as [Hklo|]; [|discriminate].
    destruct (Z.leb_spec k 20) as [Hkhi|]; [|discriminate].
    injection H as <-. cbn [req_algorithm req_eps req_min_samples req_n_clusters].
    split; [apply full_match_algorithm; exact Halg|].
    split; [lra|]. split; lia.
  - injection H as <-. cbn [req_algorithm req_eps req_min_samples req_n_clusters].
    split; [apply full_match_algorithm; exact Halg|].
    split; [lra|]. split; [lia | exact I].
Qed.

(** X17.  Whatever the request body, the items and the embeddings, every
    call the endpoint makes into scikit-learn has its arguments within
    the bounds of the request schema: DBSCAN gets [eps] between [0.1] and
    [2.0] and [min_samples] between [2] and [10], k-means a cluster count
    between [2] and [20]. *)
Theorem route_calls_within_bounds (body : RequestBody) (items : list Item)
    (embeddings : list (list R)) :
  Forall call_in_bounds (fst (compute_clusters_route body items embeddings)).
Proof.
  unfold compute_clusters_route.
  destruct (validate body) as [request|] eqn:Hvalid; [|constructor].
  apply validate_inv in Hvalid as (Halg & Heps & Hmin & Hk).
  unfold handler.
  destruct (length items <? 2)%nat; [constructor|].
  unfold compute_clusters.
  cbn [algorithm eps min_samples n_clusters].
  destruct ((length items <? 2)%nat || (length embeddings <? 2)%nat); [constructor|].
  destruct (fit_transform embeddings) as [X_scaled|e]; [|repeat constructor].
  destruct (String.eqb (req_algorithm request) "dbscan").
  - unfold _dbscan_cluster. cbn [fst eps min_samples].
    constructor; [exact I|]. constructor; [|constructor]. split; assumption.
  - unfold _kmeans_cluster. cbn [fst n_clusters].
    constructor; [exact I|]. constructor; [|constructor]. cbn [call_in_bounds].
    destruct (req_n_clusters request) as [k|].
    + destruct (Z.eqb_spec k 0); lia.
    + lia.
Qed.

(** X18.  For a body that passes validation, the endpoint answers 400
    exactly when fewer than two items have embeddings, and then without
    any call into scikit-learn. *)
Theorem route_bad_request_iff_too_few_items (body : RequestBody)
    (request : ComputeClustersRequest) (items : list Item) (embeddings : list (list R)) :
  validate body = Some request ->
  (compute_clusters_route body items embeddings = ([], BadRequest)
   <-> (length items < 2)%nat) /\
  (snd (compute_clusters_route body items embeddings) = BadRequest
   <-> (length items < 2)%nat).
Proof.
  intros Hvalid. unfold compute_clusters_route. rewrite Hvalid. unfold handler.
  destruct (Nat.ltb_spec (length items) 2) as [Hfew|Henough].
  - split; split; intros _; first [reflexivity | exact Hfew].
  - destruct (compute_clusters _ items embeddings) as [calls [clusters|e]];
      split; split; intros H; first [lia | discriminate].
Qed.

(** *** What [_build_clusters] builds *)

Lemma build_cluster_fields (items : list Item) (labels : list Z) (label_idx : nat)
    (label : Z) (c : Cluster) :
  build_cluster items labels label_idx label = Ok (Some c) ->
  exists members kws,
    label <> (-1)%Z /\
    select_items items labels label = Ok members /\
    _extract_keywords members = Ok kws /\
    id c = ("cluster-" +:+ pretty label)%string /\
    name c = _generate_cluster_name kws /\
    color c = nth (label_idx mod length CLUSTER_COLORS) CLUSTER_COLORS ""%string /\
    item_ids c = map item_id members /\
    keywords c = firstn 5 kws.
Proof.
  unfold build_cluster. intros H.
  destruct (Z.eqb_spec label (-1)) as [|Hnoise]; [discriminate|].
  apply bind_Ok_inv in H as (members & Hsel & H).
  destruct (length members <? 2)%nat; [discriminate|].
  apply bind_Ok_inv in H as (cx & _ & H).
  apply bind_Ok_inv in H as (cy & _ & H).
  apply bind_Ok_inv in H as (d & _ & H).
  apply bind_Ok_inv in H as (kws & Hkws & [= <-]).
  exists members, kws. cbn [id name color item_ids keywords].
  repeat (split; [first [assumption | reflexivity]|]). reflexivity.
Qed.

Lemma build_loop_built (items : list Item) (labels : list Z) :
  forall (todo : list Z) (label_idx : nat) (acc clusters : list Cluster),
    build_loop items labels label_idx todo acc = Ok clusters ->
    exists built : list (nat * Z * Cluster),
      clusters = acc ++ map snd built /\
      sublist (map (fun t => snd (fst t)) built) todo /\
      Forall (fun t => build_cluster items labels (fst (fst t)) (snd (fst t))
                       = Ok (Some (snd t))) built.
Proof.
  induction todo as [|label rest IH]; intros label_idx acc clusters H; cbn [build_loop] in H.
  - injection H as <-. exists []. rewrite app_nil_r.
    split; [reflexivity|]. split; constructor.
  - apply bind_Ok_inv in H as (c & Hc & H).
    apply IH in H as (built & -> & Hsub & Hall).
    destruct c as [cluster|].
    + exists ((label_idx, label, cluster) :: built). cbn [map fst snd].
      rewrite <- app_assoc. split; [reflexivity|].
      split; [apply sublist_skip; exact Hsub|].
      constructor; [exact Hc | exact Hall].
    + exists built. split; [reflexivity|]. split; [apply sublist_cons; exact Hsub | exact Hall].
Qed.

Lemma build_clusters_built (items : list Item) (labels : list Z) (clusters : list Cluster) :
  _build_clusters items labels = Ok clusters ->
  exists built : list (nat * Z * Cluster),
    clusters = map snd built /\
    sublist (map (fun t => snd (fst t)) built) (unique_labels labels) /\
    Forall (fun t => build_cluster items labels (fst (fst t)) (snd (fst t))
                     = Ok (Some (snd t))) built.
Proof. unfold _build_clusters. intros H. apply build_loop_built in H. exact H. Qed.

Lemma build_clusters_each (items : list Item) (labels : list Z) (clusters : list Cluster)
    (P : Cluster -> Prop) :
  (forall label_idx label c,
     build_cluster items labels label_idx label = Ok (Some c) -> P c) ->
  _build_clusters items labels = Ok clusters -> Forall P clusters.
Proof.
  intros HP H. apply build_clusters_built in H as (built & -> & _ & Hall).
  induction Hall as [|[[i l] c] rest Hhd _ IH]; cbn [map snd]; constructor; [|exact IH].
  eapply HP. exact Hhd.
Qed.

(** X19.  When every label is the noise label [-1], [_build_clusters]
    returns no cluster, and does not raise. *)
Theorem noise_only_gives_no_clusters (items : list Item) (labels : list Z) :
  is_set_of (unique_labels labels) labels ->
  Forall (fun l => l = (-1)%Z) labels ->
  _build_clusters items labels = Ok [].
Proof.
  intros [_ Hset] Hnoise. unfold _build_clusters.
  assert (Htodo : Forall (fun l => l = (-1)%Z) (unique_labels labels)).
  { apply List.Forall_forall. intros l Hl. apply Hset in Hl.
    rewrite List.Forall_forall in Hnoise. exact (Hnoise l Hl). }
  clear Hset Hnoise. generalize 0%nat as label_idx.
  induction Htodo as [|l rest -> _ IH]; intros label_idx; cbn [build_loop]; [reflexivity|].
  unfold build_cluster at 1. cbn [Z.eqb Pos.eqb bind]. apply IH.
Qed.

Lemma hex_palette : Forall (fun s => color_pattern s = true) CLUSTER_COLORS.
Proof. repeat constructor. Qed.

(** X20.  Every cluster [_build_clusters] returns has a colour of
    [CLUSTER_COLORS], and so one that satisfies the colour pattern of the
    [ClusterCreate] and [ClusterUpdate] schemas: a hash sign and six
    hexadecimal digits. *)
Theorem cluster_colors_from_palette (items : list Item) (labels : list Z)
    (clusters : list Cluster) :
  _build_clusters items labels = Ok clusters ->
  Forall (fun c => In (color c) CLUSTER_COLORS /\ color_pattern (color c) = true) clusters.
Proof.
  apply build_clusters_each. intros label_idx label c Hc.
  apply build_cluster_fields in Hc as (members & kws & _ & _ & _ & _ & _ & -> & _).
  assert (Hin : In (nth (label_idx mod length CLUSTER_COLORS) CLUSTER_COLORS ""%string)
                   CLUSTER_COLORS).
  { apply nth_In. apply Nat.mod_upper_bound. discriminate. }
  split; [exact Hin|].
  pose proof hex_palette as Hhex. rewrite List.Forall_forall in Hhex. apply Hhex, Hin.
Qed.

Lemma generate_cluster_name_firstn (kws : list string) :
  _generate_cluster_name (firstn 5 kws) = _generate_cluster_name kws.
Proof.
  destruct kws as [|k kws]; [reflexivity|].
  unfold _generate_cluster_name. cbn [firstn].
  do 2 f_equal. destruct kws as [|k1 [|k2 [|k3 rest]]]; reflexivity.
Qed.

(** X21.  Every cluster [_build_clusters] returns stores at most five
    keywords, and its name is the one [_generate_cluster_name] gives for
    the stored keywords: Miscellaneous without keywords, otherwise the
    first three, capitalised and joined by an ampersand. *)
Theorem cluster_name_from_keywords (items : list Item) (labels : list Z)
    (clusters : list Cluster) :
  _build_clusters items labels = Ok clusters ->
  Forall (fun c => (length (keywords c) <= 5)%nat /\
                   name c = _generate_cluster_name (keywords c)) clusters.
Proof.
  apply build_clusters_each. intros label_idx label c Hc.
  apply build_cluster_fields in Hc as (members & kws & _ & _ & _ & _ & -> & _ & _ & ->).
  split; [apply firstn_le_length|]. symmetry. apply generate_cluster_name_firstn.
Qed.

(** *** Clusters do not overlap *)

Lemma select_items_combine (items : list Item) :
  forall (labels : list Z) (label : Z) (members : list Item),
    select_items items labels label = Ok members ->
    sublist members items /\
    forall m, In m members -> In (m, label) (combine items labels).
Proof.
  induction items as [|item rest IH]; intros labels label members H; cbn [select_items] in H.
  - injection H as <-. split; [constructor | intros m []].
  - destruct labels as [|l labels]; [discriminate|].
    apply bind_Ok_inv in H as (found & Hfound & [= <-]).
    destruct (IH _ _ _ Hfound) as [Hsub Hin]. cbn [combine].
    destruct (Z.eqb_spec l label) as [->|Hother].
    + split; [apply sublist_skip; exact Hsub|].
      intros m [<-|Hm]; [left; reflexivity | right; exact (Hin m Hm)].
    + split; [apply sublist_cons; exact Hsub|].
      intros m Hm. right. exact (Hin m Hm).
Qed.

Lemma label_of_id_unique (items : list Item) :
  forall (labels : list Z) (a b : Item) (l1 l2 : Z),
    NoDup (map item_id items) ->
    In (a, l1) (combine items labels) -> In (b, l2) (combine items labels) ->
    item_id a = item_id b -> l1 = l2.
Proof.
  induction items as [|item rest IH]; intros labels a b l1 l2 Hnd Ha Hb Hid;
    [destruct Ha|].
  destruct labels as [|l labels]; [destruct Ha|].
  cbn [combine map] in *. apply NoDup_cons in Hnd as [Hfresh Hnd].
  assert (Hrest : forall c lc, In (c, lc) (combine rest labels) ->
                               item_id c <> item_id item).
  { intros c lc Hc Heq. apply Hfresh. rewrite <- Heq.
    apply list_elem_of_In, in_map. exact (in_combine_l _ _ _ _ Hc). }
  destruct Ha as [[= <- <-]|Ha], Hb as [[= <- <-]|Hb].
  - reflexivity.
  - exfalso. apply (Hrest _ _ Hb). symmetry. exact Hid.
  - exfalso. apply (Hrest _ _ Ha). exact Hid.
  - exact (IH _ _ _ _ _ Hnd Ha Hb Hid).
Qed.

Lemma built_members (items : list Item) (labels : list Z) (label_idx : nat) (label : Z)
    (c : Cluster) :
  NoDup (map item_id items) ->
  build_cluster items labels label_idx label = Ok (Some c) ->
  NoDup (item_ids c) /\
  forall i, In i (item_ids c) ->
    exists m, item_id m = i /\ In (m, label) (combine items labels).
Proof.
  intros Hnd Hc.
  apply build_cluster_fields in Hc as (members & kws & _ & Hsel & _ & _ & _ & _ & -> & _).
  apply select_items_combine in Hsel as [Hsub Hin]. split.
  - eapply sublist_NoDup; [exact Hnd|]. exact (fmap_sublist item_id _ _ Hsub).
  - intros i Hi. apply in_map_iff in Hi as (m & <- & Hm). exists m.
    split; [reflexivity | exact (Hin m Hm)].
Qed.

(** X22.  When the items have distinct ids, no item id occurs in two of
    the clusters [_build_clusters] returns, nor twice in one. *)
Theorem clusters_share_no_item (items : list Item) (labels : list Z)
    (clusters : list Cluster) :
  is_set_of (unique_labels labels) labels ->
  NoDup (map item_id items) ->
  _build_clusters items labels = Ok clusters ->
  NoDup (concat (map item_ids clusters)).
Proof.
  intros [Hset _] Hnd H.
  apply build_clusters_built in H as (built & -> & Hsub & Hall).
  apply (sublist_NoDup _ _ Hset) in Hsub. clear Hset.
  induction Hall as [|[[i l] c] rest Hhd Hall IH]; cbn [map snd concat]; [constructor|].
  cbn [map fst snd] in Hsub. apply NoDup_cons in Hsub as [Hfresh Hsub].
  cbn [fst snd] in Hhd.
  destruct (built_members _ _ _ _ _ Hnd Hhd) as [Hown Hlabel].
  apply NoDup_app. split; [exact Hown|]. split; [|exact (IH Hsub)].
  intros x Hx Hx'. apply list_elem_of_In in Hx, Hx'.
  destruct (Hlabel x Hx) as (m & Hm & Hml).
  apply in_concat in Hx' as (ids & Hids & Hx').
  apply in_map_iff in Hids as (c' & <- & Hc').
  apply in_map_iff in Hc' as ([[i' l'] c''] & Hsnd & Ht). cbn [snd] in Hsnd. subst c''.
  rewrite List.Forall_forall in Hall. pose proof (Hall _ Ht) as Hc'. cbn [fst snd] in Hc'.
  destruct (built_members _ _ _ _ _ Hnd Hc') as [_ Hlabel'].
  destruct (Hlabel' x Hx') as (m' & Hm' & Hml').
  assert (l = l') as <-.
  { eapply label_of_id_unique; [exact Hnd | exact Hml | exact Hml' | congruence]. }
  apply Hfresh. apply list_elem_of_In.
  apply (in_map (fun t : nat * Z * Cluster => snd (fst t))) in Ht. exact Ht.
Qed.

(** X23.  The clusters [_build_clusters] returns have distinct ids. *)
Theorem cluster_ids_distinct (items : list Item) (labels : list Z)
    (clusters : list Cluster) :
  is_set_of (unique_labels labels) labels ->
  _build_clusters items labels = Ok clusters ->
  NoDup (map id clusters).
Proof.
  intros [Hset _] H.
  apply build_clusters_built in H as (built & -> & Hsub & Hall).
  apply (sublist_NoDup _ _ Hset) in Hsub.
  assert (Hids : map id (map snd built)
                 = map (fun l => ("cluster-" +:+ pretty l)%string)
                       (map (fun t : nat * Z * Cluster => snd (fst t)) built)).
  { clear Hsub. induction Hall as [|[[i l] c] rest Hhd _ IH]; [reflexivity|].
    cbn [map fst snd] in *. rewrite IH. f_equal.
    apply build_cluster_fields in Hhd as (members & kws & _ & _ & _ & Hid & _). exact Hid. }
  rewrite Hids.
  assert (Hinj : Inj eq eq (fun l : Z => ("cluster-" +:+ pretty l)%string)).
  { intros l1 l2 Heq. apply String.app_inj in Heq. apply pretty_Z_inj in Heq. exact Heq. }
  exact (NoDup_fmap_2 _ _ Hsub).
Qed.

End Service.

(** *** Worked examples *)

(** C3, at a request for ["spectral"] clustering. *)
Lemma unknown_algorithm_rejected_witness :
  compute_clusters_route (env := stubs)
    (mkBody (Some "spectral"%string) None None None None) [item_1; item_2] [[1]; [1]]
  = ([], Unprocessable).
Proof.
  apply (unknown_algorithm_rejected (env := stubs) _ _ _ "spectral"%string).
  - reflexivity.
  - discriminate.
  - discriminate.
Defined.

(** C6, at the single item of the test suite. *)
Lemma compute_clusters_too_few_witness :
  compute_clusters (env := stubs)
    default_service [item_1] [[0.1; 0.2; 0.3]]
  = ([], Ok []).
Proof.
  apply (compute_clusters_too_few (env := stubs)).
  left. simpl. lia.
Defined.

Lemma mean_xs : mean [0; 6] = Ok 3.
Proof.
  unfold mean, pydiv. simpl.
  destruct (Req_dec_T (1 + 1) 0); [exfalso; lra|]. f_equal. lra.
Qed.

Lemma mean_ys : mean [0; 8] = Ok 4.
Proof.
  unfold mean, pydiv. simpl.
  destruct (Req_dec_T (1 + 1) 0); [exfalso; lra|]. f_equal. lra.
Qed.

Lemma distance_to_item_1 : distance_to 3 4 (0, 0) = 5.
Proof. unfold distance_to. simpl. apply sqrt_val; lra. Qed.

Lemma distance_to_item_2 : distance_to 3 4 (6, 8) = 5.
Proof. unfold distance_to. simpl. apply sqrt_val; lra. Qed.

Lemma build_cluster_example :
  build_cluster (env := stubs) [item_1; item_2] [0; 0]%Z 0 0%Z = Ok (Some cluster_0).
Proof.
  unfold build_cluster.
  change (select_items [item_1; item_2] [0; 0]%Z 0%Z) with (Ok [item_1; item_2]).
  cbn [Z.eqb bind length Nat.ltb Nat.leb].
  change (map fst (map position [item_1; item_2])) with [0; 6].
  change (map snd (map position [item_1; item_2])) with [0; 8].
  rewrite mean_xs, mean_ys. cbn [bind].
  change (map position [item_1; item_2]) with [(0, 0); (6, 8)].
  cbn [map py_max max_from]. rewrite distance_to_item_1, distance_to_item_2.
  destruct (Rgt_dec 5 5); [exfalso; lra|]. cbn [bind].
  cbn [_extract_keywords stubs keywords_stub bind].
  replace (5 + 100) with 105 by lra. reflexivity.
Qed.

Lemma compute_clusters_example :
  compute_clusters (env := stubs)
    (mkService "kmeans" 0.5 2 (Some 1%Z)) [item_1; item_2] [[1]; [1]]
  = ([StandardScaler_fit_transform; KMeans_fit_predict 1], Ok [cluster_0]).
Proof.
  unfold compute_clusters.
  cbn [length Nat.ltb Nat.leb orb fit_transform stubs scaler_stub algorithm].
  change (String.eqb "kmeans" "dbscan") with false. cbv iota.
  unfold _kmeans_cluster. cbn [kmeans_fit_predict stubs kmeans_stub n_clusters Z.eqb map bind].
  unfold _build_clusters.
  change (unique_labels [0; 0]%Z) with [0%Z].
  cbn [build_loop]. rewrite build_cluster_example. reflexivity.
Qed.

(** C9, at two items at [(0, 0)] and [(6, 8)]: centre [(3, 4)], both at
    distance [5], radius [105]. *)
Lemma cluster_radius_max_distance_plus_padding_witness :
  exists X_scaled labels,
    fit_transform (Environment := stubs) [[1]; [1]] = Ok X_scaled /\
    snd (_kmeans_cluster (env := stubs) (mkService "kmeans" 0.5 2 (Some 1%Z)) X_scaled 2)
    = Ok labels /\
    cluster_geometry [item_1; item_2] labels cluster_0.
Proof.
  exact (cluster_radius_max_distance_plus_padding (env := stubs) _ _ _ _ _ compute_clusters_example
           cluster_0 (or_introl eq_refl)).
Defined.

Lemma stubs_is_set_of (labels : list Z) :
  is_set_of (unique_labels (Environment := stubs) labels) labels.
Proof.
  split; [apply NoDup_remove_dups|].
  intros l. rewrite <- !list_elem_of_In. apply elem_of_remove_dups.
Qed.

Lemma build_clusters_example :
  _build_clusters (env := stubs) [item_1; item_2] [0; 0]%Z = Ok [cluster_0].
Proof.
  unfold _build_clusters.
  change (unique_labels [0; 0]%Z) with [0%Z].
  cbn [build_loop]. rewrite build_cluster_example. reflexivity.
Qed.

Lemma validate_defaults :
  validate (mkBody None None None None None) = Some (mkRequest "dbscan" 0.5 2 None false).
Proof.
  unfold validate. cbn [default from_option Datatypes.id body_algorithm body_eps
    body_min_samples body_n_clusters body_use_llm_naming].
  destruct (Rle_dec 0.1 0.5); [|exfalso; lra].
  destruct (Rle_dec 0.5 2.0); [|exfalso; lra]. reflexivity.
Qed.

(** X16, at two items. *)
Lemma kmeans_auto_cluster_count_witness :
  exists k,
    _kmeans_cluster (env := stubs) (mkService "kmeans" 0.5 2 None) [[1]; [1]] 2
    = ([KMeans_fit_predict k], kmeans_fit_predict (Environment := stubs) k [[1]; [1]]) /\
    (2 <= k <= 10)%Z /\
    ((2 < 15)%nat -> k = 2%Z) /\
    ((10 <= 2 <= 54)%nat -> (5 * k <= Z.of_nat 2 < 5 * k + 5)%Z) /\
    ((50 <= 2)%nat -> k = 10%Z).
Proof.
  apply (kmeans_auto_cluster_count (env := stubs) (mkService "kmeans" 0.5 2 None)).
  left. reflexivity.
Defined.

(** X18, at the empty body (all defaults) and one item. *)
Lemma route_bad_request_iff_too_few_items_witness :
  (compute_clusters_route (env := stubs) (mkBody None None None None None)
     [item_1] [[0.1; 0.2; 0.3]] = ([], BadRequest)
   <-> (length [item_1] < 2)%nat) /\
  (snd (compute_clusters_route (env := stubs) (mkBody None None None None None)
          [item_1] [[0.1; 0.2; 0.3]]) = BadRequest
   <-> (length [item_1] < 2)%nat).
Proof.
  apply (route_bad_request_iff_too_few_items (env := stubs) _ _ _ _ validate_defaults).
Defined.

(** X19, at two items labelled as noise. *)
Lemma noise_only_gives_no_clusters_witness :
  _build_clusters (env := stubs) [item_1; item_2] [-1; -1]%Z = Ok [].
Proof.
  apply (noise_only_gives_no_clusters (env := stubs)).
  - apply stubs_is_set_of.
  - repeat constructor.
Defined.

(** X20, at the cluster of the two example items. *)
Lemma cluster_colors_from_palette_witness :
  Forall (fun c => In (color c) CLUSTER_COLORS /\ color_pattern (color c) = true) [cluster_0].
Proof.
  exact (cluster_colors_from_palette (env := stubs) _ _ _ build_clusters_example).
Defined.

(** X21, at the cluster of the two example items. *)
Lemma cluster_name_from_keywords_witness :
  Forall (fun c => (length (keywords c) <= 5)%nat /\
                   name c = _generate_cluster_name (keywords c)) [cluster_0].
Proof.
  exact (cluster_name_from_keywords (env := stubs) _ _ _ build_clusters_example).
Defined.

Lemma items_distinct : NoDup (map item_id [item_1; item_2]).
Proof.
  cbn [map item_id item_1 item_2]. apply NoDup_cons. split; [|apply NoDup_singleton].
  intros H. apply list_elem_of_singleton in H. discriminate.
Qed.

(** X22, at the cluster of the two example items. *)
Lemma clusters_share_no_item_witness : NoDup (concat (map item_ids [cluster_0])).
Proof.
  exact (clusters_share_no_item (env := stubs) _ _ _ (stubs_is_set_of _) items_distinct
           build_clusters_example).
Defined.

(** X23, at the cluster of the two example items. *)
Lemma cluster_ids_distinct_witness : NoDup (map id [cluster_0]).
Proof.
  exact (cluster_ids_distinct (env := stubs) _ _ _ (stubs_is_set_of _) build_clusters_example).
Defined.

End ClusteringFacts.

(** ** The socket manager *)

Module SocketsFacts.
Import Sockets.
#[local] Set Warnings "-clear-no-such-hyp".

(** *** Joining without a workspace id *)

(** C10.  [join_workspace] with no [workspace_id] in [data] (or an empty
    one) replies with an error, sends nothing and returns the manager as
    it was: member sets, Socket.IO rooms and [user_info] are unchanged. *)
Theorem join_without_workspace_id (sid : string) (data : JoinData) (now : string)
    (self : SocketManager) :
  truthy (join_workspace_id data) = None ->
  join_workspace sid data now self = (self, [], Ok (JoinError "workspace_id required")).
Proof. intros H. unfold join_workspace. rewrite H. reflexivity. Qed.

(** C10, for the connection ["c1"] sending only a user name. *)
Lemma join_without_workspace_id_witness :
  join_workspace "c1" (mkJoinData None (Some (Some "Alice"%string))) "t0"
    (connect "c1" "t0" init)
  = (connect "c1" "t0" init, [], Ok (JoinError "workspace_id required")).
Proof.
  apply (join_without_workspace_id "c1" (mkJoinData None (Some (Some "Alice"%string))) "t0").
  reflexivity.
Defined.

(** *** Membership after each table operation *)

Lemma truthy_Some (o : option string) (w : string) :
  truthy o = Some w -> o = Some w /\ truthy (Some w) = Some w.
Proof.
  destruct o as [v|]; simpl; [|discriminate].
  destruct (String.eqb v "") eqn:Hv; [discriminate|].
  intros [= <-]. rewrite Hv. split; reflexivity.
Qed.

Lemma elem_of_discard_user (table : gmap string (gset string)) (sid w w' s : string) :
  s ∈ default ∅ (discard_user sid w table !! w') <->
  s ∈ default ∅ (table !! w') /\ ~ (w' = w /\ s = sid).
Proof.
  unfold discard_user. destruct (table !! w) as [users|] eqn:Hw.
  - destruct (decide (w' = w)) as [->|Hne].
    + rewrite lookup_insert_eq, Hw. simpl. set_solver.
    + rewrite lookup_insert_ne by done. naive_solver.
  - destruct (decide (w' = w)) as [->|Hne]; [|naive_solver].
    rewrite Hw. simpl. set_solver.
Qed.

Lemma elem_of_leave_room (table : gmap string (gset string)) (sid w w' s : string) :
  s ∈ default ∅ (leave_room sid w table !! w') <->
  s ∈ default ∅ (table !! w') /\ ~ (w' = w /\ s = sid).
Proof. apply elem_of_discard_user. Qed.

Lemma elem_of_add_user (table : gmap string (gset string)) (sid w w' s : string) :
  s ∈ default ∅ (add_user sid w table !! w') <->
  s ∈ default ∅ (table !! w') \/ (w' = w /\ s = sid).
Proof.
  unfold add_user. destruct (decide (w' = w)) as [->|Hne].
  - rewrite lookup_insert_eq. simpl. set_solver.
  - rewrite lookup_insert_ne by done. naive_solver.
Qed.

Lemma elem_of_enter_room (table : gmap string (gset string)) (sid w w' s : string) :
  s ∈ default ∅ (enter_room sid w table !! w') <->
  s ∈ default ∅ (table !! w') \/ (w' = w /\ s = sid).
Proof.
  unfold enter_room. destruct (decide (w' = w)) as [->|Hne].
  - rewrite lookup_insert_eq. simpl. set_solver.
  - rewrite lookup_insert_ne by done. naive_solver.
Qed.

Lemma elem_of_close_rooms (table : gmap string (gset string)) (sid w s : string) :
  s ∈ default ∅ (close_rooms sid table !! w) <->
  s ∈ default ∅ (table !! w) /\ s ≠ sid.
Proof.
  unfold close_rooms. rewrite lookup_fmap.
  destruct (table !! w) as [users|]; simpl; set_solver.
Qed.

Lemma members_is_Some (self : SocketManager) (w s : string) :
  s ∈ members self w -> is_Some (workspace_users self !! w).
Proof.
  unfold members. destruct (workspace_users self !! w); [eauto | simpl; set_solver].
Qed.

(** *** The manager stays consistent *)

Lemma leave_previous_members (sid : string) (self : SocketManager) (w s : string) :
  s ∈ default ∅ ((leave_previous sid self).1 !! w) <->
  s ∈ members self w /\ ~ (truthy (current_workspace self sid) = Some w /\ s = sid).
Proof.
  unfold leave_previous, members.
  destruct (truthy (current_workspace self sid)) as [old|]; [|naive_solver].
  destruct (decide (is_Some (workspace_users self !! old))) as [Hold|Hold]; simpl.
  - rewrite elem_of_discard_user. naive_solver.
  - apply eq_None_not_Some in Hold.
    split; [|naive_solver]. intros Hs. split; [exact Hs|].
    intros [[= ->] _]. rewrite Hold in Hs. set_solver.
Qed.

(** The room of the previous workspace is left only when that workspace
    is a key of [workspace_users]. *)
Lemma leave_previous_rooms (sid : string) (self : SocketManager) (w s : string) :
  s ∈ default ∅ ((leave_previous sid self).2 !! w) <->
  s ∈ room self w /\
  ~ (truthy (current_workspace self sid) = Some w /\
     is_Some (workspace_users self !! w) /\ s = sid).
Proof.
  unfold leave_previous, room.
  destruct (truthy (current_workspace self sid)) as [old|]; [|naive_solver].
  destruct (decide (is_Some (workspace_users self !! old))) as [Hold|Hold]; simpl.
  - rewrite elem_of_leave_room. naive_solver.
  - naive_solver.
Qed.

Lemma on_connect_consistent (sid now : string) (self : SocketManager) :
  fresh self sid -> consistent self -> consistent (on_connect sid now self).
Proof.
  intros [Hnew Hout] (Hin & Hroom & Hcur).
  assert (Hconn : forall s, connected self s -> connected (on_connect sid now self) s).
  { intros s [info Hs]. unfold connected, on_connect, connect. cbn [user_info].
    destruct (decide (s = sid)) as [->|Hne].
    - rewrite lookup_insert_eq. eauto.
    - rewrite lookup_insert_ne by done. eauto. }
  split; [|split].
  - intros w s [Hm Hc]. unfold room, on_connect, connect. cbn [rooms].
    apply elem_of_enter_room. left.
    change (s ∈ members self w) in Hm.
    destruct (decide (s = sid)) as [->|Hne].
    + destruct (Hout w) as [Hnot _]. contradiction.
    + apply Hin. split; [exact Hm|].
      unfold connected, on_connect, connect in Hc. cbn [user_info] in Hc.
      rewrite lookup_insert_ne in Hc by done. exact Hc.
  - intros w s Hs. unfold room, on_connect, connect in Hs. cbn [rooms] in Hs.
    apply elem_of_enter_room in Hs as [Hs|[-> ->]].
    + apply Hroom in Hs as [Hc Hm]. split; [apply Hconn; exact Hc | exact Hm].
    + split; [|right; reflexivity].
      unfold connected, on_connect, connect. cbn [user_info].
      rewrite lookup_insert_eq. eauto.
  - intros s w. unfold current_workspace, on_connect, connect. cbn [user_info].
    change (members (mkManager (workspace_users self)
                       (<[sid := mkInfo now None None]> (user_info self))
                       (enter_room sid sid (rooms self)) (is_running self)) w)
      with (members self w).
    destruct (decide (s = sid)) as [->|Hne].
    + rewrite lookup_insert_eq. simpl. discriminate.
    + rewrite lookup_insert_ne by done. apply Hcur.
Qed.

Lemma on_disconnect_user_info (sid : string) (self : SocketManager) :
  user_info (on_disconnect sid self).1 = delete sid (user_info self).
Proof.
  unfold on_disconnect, disconnect.
  destruct (truthy (current_workspace self sid)) as [old|]; simpl; [|done].
  destruct (decide (is_Some (workspace_users self !! old))); done.
Qed.

Lemma on_disconnect_members (sid : string) (self : SocketManager) (w s : string) :
  s ∈ members (on_disconnect sid self).1 w ->
  s ∈ members self w /\ ~ (truthy (current_workspace self sid) = Some w /\ s = sid).
Proof.
  intros Hs.
  assert (Hin : s ∈ members self w).
  { revert Hs. unfold on_disconnect, disconnect, members.
    destruct (truthy (current_workspace self sid)) as [old|]; simpl; [|done].
    destruct (decide (is_Some (workspace_users self !! old))); simpl; [|done].
    rewrite elem_of_discard_user. naive_solver. }
  split; [exact Hin|]. intros [Hold ->].
  revert Hs. unfold on_disconnect, disconnect, members. rewrite Hold.
  destruct (decide (is_Some (workspace_users self !! w))) as [Hdom|Hdom]; simpl.
  - rewrite elem_of_discard_user. naive_solver.
  - intros _. apply Hdom. eapply members_is_Some. exact Hin.
Qed.

Lemma on_disconnect_keeps_members (sid : string) (self : SocketManager) (w s : string) :
  s ≠ sid -> s ∈ members self w -> s ∈ members (on_disconnect sid self).1 w.
Proof.
  intros Hne. unfold on_disconnect, disconnect, members.
  destruct (truthy (current_workspace self sid)) as [old|]; simpl; [|done].
  destruct (decide (is_Some (workspace_users self !! old))); simpl; [|done].
  rewrite elem_of_discard_user. naive_solver.
Qed.

Lemma on_disconnect_room (sid : string) (self : SocketManager) (w s : string) :
  s ∈ room (on_disconnect sid self).1 w <-> s ∈ room self w /\ s ≠ sid.
Proof.
  unfold on_disconnect, disconnect, room.
  destruct (truthy (current_workspace self sid)) as [old|]; simpl.
  - destruct (decide (is_Some (workspace_users self !! old))); simpl;
      apply elem_of_close_rooms.
  - apply elem_of_close_rooms.
Qed.

Lemma on_disconnect_consistent (sid : string) (self : SocketManager) :
  consistent self -> consistent (on_disconnect sid self).1.
Proof.
  intros (Hin & Hroom & Hcur).
  assert (Hconn : forall s, connected (on_disconnect sid self).1 s <->
                            connected self s /\ s ≠ sid).
  { intros s. unfold connected. rewrite on_disconnect_user_info.
    destruct (decide (s = sid)) as [->|Hne].
    - rewrite lookup_delete_eq. split; [intros [? [=]] | intros [_ ?]; done].
    - rewrite lookup_delete_ne by done. naive_solver. }
  split; [|split].
  - intros w s [Hm Hc]. apply Hconn in Hc as [Hc Hne].
    apply on_disconnect_members in Hm as [Hm _].
    apply on_disconnect_room. split; [|exact Hne]. apply Hin. split; assumption.
  - intros w s Hs. apply on_disconnect_room in Hs as [Hs Hne].
    apply Hroom in Hs as [Hc Hm]. split; [apply Hconn; split; assumption|].
    destruct Hm as [Hm| ->]; [left | right; reflexivity].
    apply on_disconnect_keeps_members; assumption.
  - intros s w. unfold current_workspace. rewrite on_disconnect_user_info.
    destruct (decide (s = sid)) as [->|Hne].
    + rewrite lookup_delete_eq. discriminate.
    + rewrite lookup_delete_ne by done. intros H.
      apply on_disconnect_keeps_members; [done|]. apply Hcur. exact H.
Qed.

Lemma connected_insert (sid s : string) (info : UserInfo) (self : SocketManager) :
  connected self sid ->
  is_Some (<[sid := info]> (user_info self) !! s) <-> connected self s.
Proof.
  intros Hsid. unfold connected. destruct (decide (s = sid)) as [->|Hne].
  - rewrite lookup_insert_eq. naive_solver.
  - rewrite lookup_insert_ne by done. done.
Qed.

Lemma join_workspace_consistent (sid : string) (data : JoinData) (now : string)
    (self : SocketManager) :
  connected self sid -> consistent self ->
  consistent (join_workspace sid data now self).1.1.
Proof.
  intros Hsid Hcons. pose proof Hcons as (Hin & Hroom & Hcur).
  unfold join_workspace.
  destruct (truthy (join_workspace_id data)) as [w_new|] eqn:Hnew; [|exact Hcons].
  destruct Hsid as [info Hinfo]. rewrite Hinfo. cbv zeta. cbn [fst].
  apply truthy_Some in Hnew as [_ Hnew].
  assert (Hsid : connected self sid) by (exists info; exact Hinfo).
  split; [|split].
  - intros w s. unfold room, live_member, members, connected.
    cbn [rooms workspace_users user_info].
    rewrite elem_of_enter_room, elem_of_add_user.
    rewrite leave_previous_rooms, leave_previous_members.
    rewrite connected_insert by exact Hsid.
    intros [[[Hm Hn] | [-> ->]] Hc]; [left | right; done].
    split; [apply Hin; split; assumption|]. intros (Hw & _ & ->). apply Hn. done.
  - intros w s. unfold room, members, connected.
    cbn [rooms workspace_users user_info].
    rewrite elem_of_enter_room, elem_of_add_user.
    rewrite leave_previous_rooms, leave_previous_members.
    rewrite connected_insert by exact Hsid.
    intros [[Hs Hn] | [-> ->]]; [|split; [exact Hsid | left; right; done]].
    apply Hroom in Hs as [Hc [Hm| ->]]; (split; [exact Hc|]); [|right; reflexivity].
    left. left. split; [exact Hm|]. intros [Hw ->]. apply Hn.
    split; [exact Hw|]. split; [|reflexivity]. eapply members_is_Some. exact Hm.
  - intros s w. unfold current_workspace, members. cbn [user_info workspace_users].
    rewrite elem_of_add_user, leave_previous_members.
    destruct (decide (s = sid)) as [->|Hne].
    + rewrite lookup_insert_eq. cbn [workspace_id]. rewrite Hnew. intros [= <-]. right. done.
    + rewrite lookup_insert_ne by done. intros H. left.
      split; [apply Hcur; exact H | naive_solver].
Qed.

(** What [leave_workspace] does to the member sets and the rooms. *)
Lemma leave_workspace_members_iff (sid : string) (data : JoinData) (self : SocketManager)
    (w s : string) :
  s ∈ members (leave_workspace sid data self).1.1 w <->
  s ∈ members self w /\ ~ (truthy (join_workspace_id data) = Some w /\ s = sid).
Proof.
  assert (Hkey : forall w0, ~ is_Some (workspace_users self !! w0) ->
                 s ∈ members self w ->
                 ~ (Some w0 = Some w /\ s = sid)).
  { intros w0 Hw0 Hs [[= ->] _]. apply Hw0. eapply members_is_Some. exact Hs. }
  unfold leave_workspace.
  destruct (truthy (join_workspace_id data)) as [w0|].
  - destruct (decide (is_Some (workspace_users self !! w0))) as [Hw0|Hw0].
    + destruct (user_info self !! sid); unfold members; cbn [fst workspace_users];
        rewrite elem_of_discard_user; naive_solver.
    + destruct (user_info self !! sid); unfold members; cbn [fst workspace_users];
        (split; [intros Hs; split; [exact Hs | apply Hkey; assumption] | tauto]).
  - destruct (user_info self !! sid); unfold members; cbn [fst workspace_users];
      naive_solver.
Qed.

Lemma leave_workspace_rooms_iff (sid : string) (data : JoinData) (self : SocketManager)
    (w s : string) :
  s ∈ room (leave_workspace sid data self).1.1 w <->
  s ∈ room self w /\
  ~ (truthy (join_workspace_id data) = Some w /\
     is_Some (workspace_users self !! w) /\ s = sid).
Proof.
  unfold leave_workspace.
  destruct (truthy (join_workspace_id data)) as [w0|].
  - destruct (decide (is_Some (workspace_users self !! w0))) as [Hw0|Hw0].
    + destruct (user_info self !! sid); unfold room; cbn [fst rooms];
        rewrite elem_of_leave_room; naive_solver.
    + destruct (user_info self !! sid); unfold room; cbn [fst rooms]; naive_solver.
  - destruct (user_info self !! sid); unfold room; cbn [fst rooms]; naive_solver.
Qed.

Lemma leave_workspace_user_info (sid : string) (data : JoinData) (self : SocketManager)
    (info : UserInfo) :
  user_info self !! sid = Some info ->
  user_info (leave_workspace sid data self).1.1
  = <[sid := set_workspace None info]> (user_info self).
Proof. intros Hinfo. unfold leave_workspace. rewrite Hinfo. reflexivity. Qed.

Lemma leave_workspace_consistent (sid : string) (data : JoinData) (self : SocketManager) :
  connected self sid -> consistent self ->
  consistent (leave_workspace sid data self).1.1.
Proof.
  intros [info Hinfo] (Hin & Hroom & Hcur).
  assert (Hsid : connected self sid) by (exists info; exact Hinfo).
  assert (Hconn : forall s, connected (leave_workspace sid data self).1.1 s <->
                            connected self s).
  { intros s. unfold connected at 1. rewrite (leave_workspace_user_info _ _ _ _ Hinfo).
    apply connected_insert. exact Hsid. }
  split; [|split].
  - intros w s [Hm Hc]. apply Hconn in Hc. apply leave_workspace_members_iff in Hm as [Hm Hn].
    apply leave_workspace_rooms_iff. split; [apply Hin; split; assumption|].
    intros (Hw & _ & ->). apply Hn. done.
  - intros w s Hs. apply leave_workspace_rooms_iff in Hs as [Hs Hn].
    apply Hroom in Hs as [Hc Hm]. split; [apply Hconn; exact Hc|].
    destruct Hm as [Hm| ->]; [left | right; reflexivity].
    apply leave_workspace_members_iff. split; [exact Hm|]. intros [Hw ->]. apply Hn.
    split; [exact Hw|]. split; [|reflexivity]. eapply members_is_Some. exact Hm.
  - intros s w. unfold current_workspace.
    rewrite (leave_workspace_user_info _ _ _ _ Hinfo), leave_workspace_members_iff.
    destruct (decide (s = sid)) as [->|Hne].
    + rewrite lookup_insert_eq. simpl. discriminate.
    + rewrite lookup_insert_ne by done. intros H.
      split; [apply Hcur; exact H | naive_solver].
Qed.

Lemma step_consistent (o : op) (self : SocketManager) :
  allowed o self -> consistent self -> consistent (fst (step o self)).
Proof.
  destruct o as [sid now|sid|sid data now|sid data|ev sid data now];
    cbn [step allowed fst]; intros Hok Hcons.
  - apply on_connect_consistent; assumption.
  - apply on_disconnect_consistent; assumption.
  - apply join_workspace_consistent; assumption.
  - apply leave_workspace_consistent; assumption.
  - exact Hcons.
Qed.

Lemma init_consistent : consistent init.
Proof.
  split; [|split].
  - intros w s [Hm _]. unfold members in Hm. simpl in Hm.
    rewrite lookup_empty in Hm. set_solver.
  - intros w s Hs. unfold room in Hs. simpl in Hs. rewrite lookup_empty in Hs. set_solver.
  - intros s w. unfold current_workspace. simpl. rewrite lookup_empty. discriminate.
Qed.

Lemma reachable_consistent (self : SocketManager) : reachable self -> consistent self.
Proof.
  induction 1 as [|self o _ IH Hok]; [exact init_consistent|].
  apply step_consistent; assumption.
Qed.

(** *** Point events *)

Lemma emit_recipients (self : SocketManager) (event : string) (data : payload)
    (w sid r : string) :
  r ∈ em_to (emit self event data w (Some sid)) <-> r ∈ room self w /\ r ≠ sid.
Proof. unfold emit. cbn [em_to]. rewrite elem_of_difference, elem_of_singleton. done. Qed.

(** A point event is sent once, to the room named by the sender's
    recorded workspace, the sender skipped: it reaches every other live
    member of that workspace, and whoever it reaches is an open
    connection that is a member of the workspace or is the connection
    whose id the workspace id is. *)
Lemma relay_recipients (event : string) (data : payload) (sid w : string)
    (self : SocketManager) :
  consistent self ->
  truthy (current_workspace self sid) = Some w ->
  exists em,
    relay event data sid self = [em] /\
    em_room em = w /\
    em_skip_sid em = Some sid /\
    sid ∈ members self w /\
    (forall r, live_member self w r -> r ≠ sid -> r ∈ em_to em) /\
    (forall r, r ∈ em_to em ->
               r ≠ sid /\ connected self r /\ (r ∈ members self w \/ r = w)).
Proof.
  intros (Hin & Hroom & Hcur) Hw. unfold relay. rewrite Hw.
  eexists. split; [reflexivity|]. cbn [emit em_room em_skip_sid].
  split; [reflexivity|]. split; [reflexivity|].
  split; [apply Hcur; exact Hw|]. split.
  - intros r Hr Hne. apply emit_recipients. split; [apply Hin; exact Hr | exact Hne].
  - intros r Hr. apply emit_recipients in Hr as [Hr Hne]. split; [exact Hne|].
    apply Hroom. exact Hr.
Qed.

(** A sender with no recorded workspace relays nothing. *)
Lemma point_event_without_workspace (ev : point_event) (sid : string) (data : EventData)
    (now : string) (self : SocketManager) :
  truthy (current_workspace self sid) = None ->
  handle_point_event ev sid data now self = [].
Proof.
  intros Hcur.
  destruct ev; cbn [handle_point_event];
    unfold item_created, item_updated, item_deleted, item_moved, cursor_move, relay;
    rewrite Hcur; reflexivity.
Qed.

(** *** Runs the server can deliver *)

Lemma reachable_run (ops : list op) :
  forall self,
    reachable self ->
    (forall done o rest, ops = done ++ o :: rest -> allowed o (run done self)) ->
    reachable (run ops self).
Proof.
  induction ops as [|o ops IH]; intros self Hreach Hok; [exact Hreach|].
  simpl. apply IH.
  - apply reachable_step; [exact Hreach|]. apply (Hok [] o ops). reflexivity.
  - intros done o' rest Heq. apply (Hok (o :: done) o' rest). simpl. rewrite Heq. reflexivity.
Qed.

(** A connection id that occurs in neither table and has no entry in
    [user_info] is fresh. *)
Lemma fresh_in_no_table (sid : string) (self : SocketManager) :
  user_info self !! sid = None ->
  map_Forall (λ _ users, sid ∉ users) (workspace_users self) ->
  map_Forall (λ _ users, sid ∉ users) (rooms self) ->
  fresh self sid.
Proof.
  intros Hi Hu Hr. split; [exact Hi|]. intros w. unfold members, room. split.
  - destruct (workspace_users self !! w) as [users|] eqn:Hw; [|simpl; set_solver].
    exact (Hu w users Hw).
  - destruct (rooms self !! w) as [users|] eqn:Hw; [|simpl; set_solver].
    exact (Hr w users Hw).
Qed.

Lemma two_connections_reachable :
  reachable (run [Connect "c1" "t0"; Connect "c2" "t1"] init).
Proof.
  apply (reachable_step _ (Connect "c2" "t1")).
  apply (reachable_step _ (Connect "c1" "t0")).
  - exact reachable_init.
  - apply fresh_in_no_table; compute_done.
  - apply fresh_in_no_table; compute_done.
Qed.

Lemma stale_run_reachable : reachable (run stale_run init).
Proof.
  unfold stale_run.
  apply (reachable_step _ (Join "c1" (alice_joins "ws2") "t2")).
  apply (reachable_step _ (Leave "c1" (mkJoinData None None))).
  apply (reachable_step _ (Join "c1" (alice_joins "ws1") "t1")).
  apply (reachable_step _ (Connect "c1" "t0")).
  - exact reachable_init.
  - apply fresh_in_no_table; compute_done.
  - vm_compute. eauto.
  - vm_compute. eauto.
  - vm_compute. eauto.
Qed.

Lemma shared_run_reachable : reachable (run shared_run init).
Proof.
  unfold shared_run.
  apply (reachable_step _
           (Join "c2" (mkJoinData (Some "ws1"%string) (Some (Some "Bob"%string))) "t3")).
  apply (reachable_step _ (Join "c1" (alice_joins "ws1") "t2")).
  - exact two_connections_reachable.
  - vm_compute. eauto.
  - vm_compute. eauto.
Qed.

Lemma silent_run_reachable : reachable (run silent_run init).
Proof.
  unfold silent_run, run. rewrite fold_left_app.
  apply (reachable_step _ (Leave "c1" (mkJoinData None None))).
  - exact shared_run_reachable.
  - vm_compute. eauto.
Qed.

Lemma namesake_run_reachable : reachable (run namesake_run init).
Proof.
  unfold namesake_run.
  apply (reachable_step _ (Join "c1" (alice_joins "c2") "t2")).
  - exact two_connections_reachable.
  - vm_compute. eauto.
Qed.

(** C8.  The recipients of a point event are not always the other
    members of the sender's room.  After [silent_run] the connection
    ["c1"] is in the member set and in the Socket.IO room of ["ws1"]
    together with ["c2"], yet none of its point events is relayed to
    anyone, while an event of ["c2"] still reaches ["c1"]:
    [leave_workspace] cleared the workspace recorded for ["c1"] without
    taking it out of ["ws1"].  After [namesake_run] an event of ["c1"] is
    delivered to ["c2"], which is a member of no workspace: the workspace
    id ["c2"] names the room the server keeps for that connection. *)
Theorem point_event_misses_room_members :
  (reachable (run silent_run init) /\
   "c1" ∈ members (run silent_run init) "ws1" /\
   "c1" ∈ room (run silent_run init) "ws1" /\
   live_member (run silent_run init) "ws1" "c2" /\
   (forall ev data now,
      handle_point_event ev "c1" data now (run silent_run init) = []) /\
   (forall ev data now,
      exists em,
        handle_point_event ev "c2" data now (run silent_run init) = [em] /\
        "c1" ∈ em_to em)) /\
  (reachable (run namesake_run init) /\
   "c1" ∈ members (run namesake_run init) "c2" /\
   (forall w, "c2" ∉ members (run namesake_run init) w) /\
   (forall ev data now,
      exists em,
        handle_point_event ev "c1" data now (run namesake_run init) = [em] /\
        "c2" ∈ em_to em)).
Proof.
  split.
  - split; [exact silent_run_reachable|].
    split; [compute_done|]. split; [compute_done|].
    split; [split; [compute_done | vm_compute; eauto]|].
    split.
    + intros ev data now. apply point_event_without_workspace. reflexivity.
    + intros ev data now.
      destruct ev; cbn [handle_point_event];
        unfold item_created, item_updated, item_deleted, item_moved, cursor_move, relay;
        change (truthy (current_workspace (run silent_run init) "c2"))
          with (Some "ws1"%string);
        (eexists; split; [reflexivity|]); apply emit_recipients; split; compute_done.
  - split; [exact namesake_run_reachable|].
    split; [compute_done|].
    split.
    + intros w. unfold members.
      destruct (workspace_users (run namesake_run init) !! w) as [users|] eqn:Hw;
        [|simpl; set_solver].
      revert w users Hw.
      change (map_Forall (λ _ users, "c2" ∉ users)
                (workspace_users (run namesake_run init))).
      compute_done.
    + intros ev data now.
      destruct ev; cbn [handle_point_event];
        unfold item_created, item_updated, item_deleted, item_moved, cursor_move, relay;
        change (truthy (current_workspace (run namesake_run init) "c1"))
          with (Some "c2"%string);
        (eexists; split; [reflexivity|]); apply emit_recipients; split; compute_done.
Qed.

(** *** Rooms of a connection *)

(** Joining a second workspace takes the connection out of the first. *)
Lemma rejoin_leaves_previous_room (sid : string) (d1 d2 : JoinData) (t1 t2 w1 w2 : string)
    (self : SocketManager) :
  connected self sid ->
  truthy (join_workspace_id d1) = Some w1 ->
  truthy (join_workspace_id d2) = Some w2 ->
  w1 ≠ w2 ->
  sid ∉ members
          (join_workspace sid d2 t2 (join_workspace sid d1 t1 self).1.1).1.1 w1.
Proof.
  intros [info Hinfo] H1 H2 Hne.
  set (self1 := (join_workspace sid d1 t1 self).1.1).
  assert (Hcur : truthy (current_workspace self1 sid) = Some w1).
  { subst self1. unfold join_workspace. rewrite H1, Hinfo.
    unfold current_workspace. cbn [fst user_info].
    rewrite lookup_insert_eq. cbn [workspace_id].
    apply truthy_Some in H1 as [_ H1]. exact H1. }
  assert (Hinfo1 : is_Some (user_info self1 !! sid)).
  { subst self1. unfold join_workspace. rewrite H1, Hinfo.
    cbn [fst user_info]. rewrite lookup_insert_eq. eauto. }
  clearbody self1. destruct Hinfo1 as [info1 Hinfo1].
  unfold join_workspace. rewrite H2, Hinfo1. unfold members. cbn [fst workspace_users].
  rewrite elem_of_add_user, leave_previous_members. naive_solver.
Qed.

Lemma on_disconnect_recorded (sid : string) (self : SocketManager) :
  recorded self -> recorded (on_disconnect sid self).1.
Proof.
  intros Hrec s w Hs. apply on_disconnect_members in Hs as [Hs Hne].
  unfold current_workspace. rewrite on_disconnect_user_info.
  destruct (decide (s = sid)) as [->|Hsid].
  - exfalso. apply Hne. split; [apply Hrec; exact Hs | reflexivity].
  - rewrite lookup_delete_ne by done. apply Hrec. exact Hs.
Qed.

Lemma join_workspace_recorded (sid : string) (data : JoinData) (now : string)
    (self : SocketManager) :
  connected self sid -> recorded self ->
  recorded (join_workspace sid data now self).1.1.
Proof.
  intros [info Hinfo] Hrec. unfold join_workspace.
  destruct (truthy (join_workspace_id data)) as [w_new|] eqn:Hnew; [|exact Hrec].
  rewrite Hinfo. apply truthy_Some in Hnew as [_ Hnew].
  intros s w. unfold members. cbn [fst workspace_users].
  rewrite elem_of_add_user, leave_previous_members.
  unfold current_workspace at 2. cbn [user_info].
  destruct (decide (s = sid)) as [->|Hsid].
  - rewrite lookup_insert_eq. cbn [workspace_id].
    intros [[Hs Hne] | [-> _]]; [|exact Hnew].
    exfalso. apply Hne. split; [apply Hrec; exact Hs | reflexivity].
  - rewrite lookup_insert_ne by done. intros [[Hs _] | [_ ->]]; [|done].
    apply Hrec. exact Hs.
Qed.

Lemma leave_workspace_members (sid : string) (data : JoinData) (self : SocketManager)
    (w s : string) :
  s ∈ members (leave_workspace sid data self).1.1 w ->
  s ∈ members self w /\ ~ (truthy (join_workspace_id data) = Some w /\ s = sid).
Proof. apply leave_workspace_members_iff. Qed.

Lemma leave_workspace_recorded (sid : string) (data : JoinData) (self : SocketManager) :
  connected self sid ->
  truthy (join_workspace_id data) = truthy (current_workspace self sid) ->
  recorded self ->
  recorded (leave_workspace sid data self).1.1.
Proof.
  intros [info Hinfo] Hmatch Hrec s w Hs.
  apply leave_workspace_members in Hs as [Hs Hne].
  unfold leave_workspace, current_workspace. rewrite Hinfo. cbn [fst user_info].
  destruct (decide (s = sid)) as [->|Hsid].
  - exfalso. apply Hne. split; [|reflexivity]. rewrite Hmatch. apply Hrec. exact Hs.
  - rewrite lookup_insert_ne by done. apply Hrec. exact Hs.
Qed.

Lemma reachable_matching_recorded (self : SocketManager) :
  reachable_matching self -> recorded self.
Proof.
  induction 1 as [|self o _ IH Hok Hmatch].
  - intros s w. unfold members. simpl. rewrite lookup_empty. set_solver.
  - destruct o as [sid now|sid|sid data now|sid data|ev sid data now];
      cbn [step allowed leaves_match fst] in *.
    + destruct Hok as [_ Hout]. intros s w Hs.
      change (s ∈ members self w) in Hs.
      unfold current_workspace, on_connect, connect. cbn [user_info].
      destruct (decide (s = sid)) as [->|Hsid].
      * destruct (Hout w) as [Hm _]. contradiction.
      * rewrite lookup_insert_ne by done. apply IH. exact Hs.
    + apply on_disconnect_recorded. exact IH.
    + apply join_workspace_recorded; assumption.
    + apply leave_workspace_recorded; assumption.
    + exact IH.
Qed.

Lemma reachable_matching_reachable (self : SocketManager) :
  reachable_matching self -> reachable self.
Proof.
  induction 1 as [|self o _ IH Hok _]; [exact reachable_init|].
  apply reachable_step; assumption.
Qed.

(** With clients that leave only the workspace recorded for them, every
    connection is in at most one member set. *)
Lemma single_room_when_leaves_match (self : SocketManager) :
  reachable_matching self -> single_room self.
Proof.
  intros Hreach sid w1 w2 H1 H2. apply reachable_matching_recorded in Hreach.
  apply Hreach in H1, H2. congruence.
Qed.

(** With such clients, and a workspace id that is not the id of an open
    connection, a point event reaches exactly the other members of the
    sender's workspace. *)
Lemma point_event_recipients_when_leaves_match (ev : point_event) (sid : string)
    (data : EventData) (now w : string) (self : SocketManager) :
  reachable_matching self ->
  truthy (current_workspace self sid) = Some w ->
  ~ connected self w ->
  exists em,
    handle_point_event ev sid data now self = [em] /\
    em_room em = w /\
    em_skip_sid em = Some sid /\
    sid ∈ members self w /\
    forall r, r ∈ em_to em <-> r ∈ members self w /\ r ≠ sid.
Proof.
  intros Hmatch Hw Hfree.
  pose proof (reachable_matching_recorded _ Hmatch) as Hrec.
  pose proof (reachable_consistent _ (reachable_matching_reachable _ Hmatch)) as Hcons.
  assert (Hrelay : forall event payload,
             exists em,
               relay event payload sid self = [em] /\
               em_room em = w /\
               em_skip_sid em = Some sid /\
               sid ∈ members self w /\
               forall r, r ∈ em_to em <-> r ∈ members self w /\ r ≠ sid).
  { intros event payload.
    destruct (relay_recipients event payload sid w self Hcons Hw)
      as (em & Hem & Hroom & Hskip & Hsid & Hall & Honly).
    exists em. repeat (split; [assumption|]).
    intros r. split.
    - intros Hr. apply Honly in Hr as (Hne & Hc & [Hm| ->]); [done|]. contradiction.
    - intros [Hm Hne]. apply Hall; [|exact Hne]. split; [exact Hm|].
      apply Hrec in Hm. unfold connected, current_workspace in *.
      destruct (user_info self !! r); [eauto | discriminate]. }
  destruct ev; apply Hrelay.
Qed.

(** C7.  The run [stale_run] leaves connection ["c1"] in the member sets
    of both ["ws1"] and ["ws2"]: [leave_workspace] cleared the recorded
    workspace without taking the connection out of ["ws1"], so the second
    [join_workspace] found no previous workspace to leave. *)
Theorem connection_in_two_rooms :
  reachable (run stale_run init) /\
  "c1" ∈ members (run stale_run init) "ws1" /\
  "c1" ∈ members (run stale_run init) "ws2" /\
  ~ single_room (run stale_run init).
Proof.
  assert (H1 : "c1" ∈ members (run stale_run init) "ws1")
    by compute_done.
  assert (H2 : "c1" ∈ members (run stale_run init) "ws2")
    by compute_done.
  split; [exact stale_run_reachable|]. split; [exact H1|]. split; [exact H2|].
  intros Hsingle. specialize (Hsingle _ _ _ H1 H2). discriminate.
Qed.

(** *** The reply to a join *)

(** X24.  The reply to a successful [join_workspace] lists every other
    member of the workspace joined exactly once, never the joining
    connection itself, each with the user name recorded for it (Anonymous
    when none is). *)
Theorem join_reply_lists_other_members (sid : string) (data : JoinData) (now : string)
    (self self' : SocketManager) (sent : list emission) (w : string)
    (others : list (string * nullable)) :
  join_workspace sid data now self = (self', sent, Ok (JoinSuccess w others)) ->
  truthy (join_workspace_id data) = Some w /\
  NoDup (map fst others) /\
  (forall uid, In uid (map fst others) <-> uid ∈ members self' w /\ uid ≠ sid) /\
  Forall (fun p => snd p = name_of self' (fst p)) others.
Proof.
  unfold join_workspace.
  destruct (truthy (join_workspace_id data)) as [w0|]; [|discriminate].
  destruct (user_info self !! sid) as [info|]; [|discriminate].
  cbv zeta. intros [= <- <- <- <-]. split; [reflexivity|].
  set (self' := mkManager _ _ _ _).
  rewrite map_map. cbn [fst]. rewrite map_id.
  split; [apply NoDup_filter, NoDup_elements|]. split.
  - intros uid. rewrite <- list_elem_of_In, list_elem_of_filter, elem_of_elements. tauto.
  - apply List.Forall_forall. intros p Hp. apply in_map_iff in Hp as (uid & <- & _).
    reflexivity.
Qed.

(** X24, at the second connection joining a workspace. *)
Lemma join_reply_lists_other_members_witness :
  truthy (join_workspace_id (mkJoinData (Some "ws1"%string) (Some (Some "Bob"%string))))
  = Some "ws1"%string /\
  NoDup (map fst [("c1"%string, Some "Alice"%string)]) /\
  (forall uid,
     In uid (map fst [("c1"%string, Some "Alice"%string)]) <->
     uid ∈ members (run shared_run init) "ws1" /\ uid ≠ "c2"%string) /\
  Forall (fun p => snd p = name_of (run shared_run init) (fst p))
         [("c1"%string, Some "Alice"%string)].
Proof.
  apply (join_reply_lists_other_members "c2"
           (mkJoinData (Some "ws1"%string) (Some (Some "Bob"%string))) "t3"
           (run [Connect "c1" "t0"; Connect "c2" "t1"; Join "c1" (alice_joins "ws1") "t2"] init)
           (run shared_run init)
           (snd (step (Join "c2" (mkJoinData (Some "ws1"%string) (Some (Some "Bob"%string)))
                         "t3")
                   (run [Connect "c1" "t0"; Connect "c2" "t1";
                         Join "c1" (alice_joins "ws1") "t2"] init)))).
  vm_compute. reflexivity.
Defined.

(** *** Who receives what the handlers emit *)

Lemma emit_within_room (self self' : SocketManager) (event : string) (data : payload)
    (w sid : string) :
  consistent self' ->
  (forall r, r ∈ room self w -> r ≠ sid -> r ∈ room self' w /\ connected self' r) ->
  em_skip_sid (emit self event data w (Some sid)) = Some sid /\
  forall r, r ∈ em_to (emit self event data w (Some sid)) ->
    r ≠ sid /\
    (live_member self' (em_room (emit self event data w (Some sid))) r \/
     (r = em_room (emit self event data w (Some sid)) /\ connected self' r)).
Proof.
  intros (_ & Hroom & _) Hsub. split; [reflexivity|].
  intros r Hr. apply emit_recipients in Hr as [Hr Hne]. split; [exact Hne|].
  cbn [emit em_room]. destruct (Hsub r Hr Hne) as [Hr' Hc].
  apply Hroom in Hr' as [_ [Hm| ->]]; [left; split; assumption | right; done].
Qed.

(** X25.  In every state the server can reach, whatever a handler emits
    skips the connection the event came from, and every recipient is
    another connection that is still open and is in the member set of the
    workspace the emission is addressed to, or is the connection whose id
    that workspace id is. *)
Theorem emissions_reach_other_live_members (o : op) (self : SocketManager) :
  reachable self -> allowed o self ->
  Forall (fun em => em_skip_sid em = Some (actor o) /\
                    forall r, r ∈ em_to em ->
                      r ≠ actor o /\
                      (live_member (fst (step o self)) (em_room em) r \/
                       (r = em_room em /\ connected (fst (step o self)) r)))
         (snd (step o self)).
Proof.
  intros Hreach Hok. pose proof (reachable_consistent _ Hreach) as Hcons.
  pose proof (step_consistent o self Hok Hcons) as Hcons'.
  pose proof Hcons' as (_ & Hroom' & _).
  destruct o as [sid now|sid|sid data now|sid data|ev sid data now];
    cbn [step actor allowed fst snd] in *.
  - constructor.
  - unfold on_disconnect in *.
    destruct (disconnect sid self) as [self1 sent] eqn:Hdis. cbn [fst snd] in *.
    unfold disconnect in Hdis.
    destruct (truthy (current_workspace self sid)) as [w|];
      [|injection Hdis as <- <-; constructor].
    destruct (decide (is_Some (workspace_users self !! w)));
      [|injection Hdis as <- <-; constructor].
    injection Hdis as <- <-. constructor; [|constructor].
    apply emit_within_room; [exact Hcons'|].
    intros r Hr Hne.
    assert (Hr' : r ∈ room (mkManager (discard_user sid w (workspace_users self))
                              (delete sid (user_info self))
                              (close_rooms sid (rooms self)) (is_running self)) w).
    { unfold room in *. cbn [rooms] in *. apply elem_of_close_rooms. split; assumption. }
    split; [exact Hr'|]. apply Hroom' in Hr' as [Hc _]. exact Hc.
  - unfold join_workspace in *.
    destruct (truthy (join_workspace_id data)) as [w|]; [|constructor].
    destruct Hok as [info Hinfo]. rewrite Hinfo in *. cbn [fst snd] in *.
    constructor; [|constructor].
    apply emit_within_room; [exact Hcons'|].
    intros r Hr _. split; [exact Hr|]. apply Hroom' in Hr as [Hc _]. exact Hc.
  - unfold leave_workspace in *.
    destruct Hok as [info Hinfo]. rewrite Hinfo in *. cbn [fst snd] in *.
    destruct (truthy (join_workspace_id data)) as [w|]; [|constructor].
    destruct (decide (is_Some (workspace_users self !! w))); [|constructor].
    cbn [fst snd] in *.
    constructor; [|constructor].
    apply emit_within_room; [exact Hcons'|].
    intros r Hr _. split; [exact Hr|]. apply Hroom' in Hr as [Hc _]. exact Hc.
  - assert (Hrelay : forall event payload,
               Forall (fun em => em_skip_sid em = Some sid /\
                                 forall r, r ∈ em_to em ->
                                   r ≠ sid /\
                                   (live_member self (em_room em) r \/
                                    (r = em_room em /\ connected self r)))
                      (relay event payload sid self)).
    { intros event payload. unfold relay.
      destruct (truthy (current_workspace self sid)) as [w|]; [|constructor].
      constructor; [|constructor].
      apply emit_within_room; [exact Hcons|].
      intros r Hr _. split; [exact Hr|]. apply Hroom' in Hr as [Hc _]. exact Hc. }
    destruct ev; apply Hrelay.
Qed.

(** X25, at an [item_moved] event in a workspace of two connections. *)
Lemma emissions_reach_other_live_members_witness :
  Forall (fun em =>
            em_skip_sid em = Some "c1"%string /\
            forall r, r ∈ em_to em ->
              r ≠ "c1"%string /\
              (live_member (run shared_run init) (em_room em) r \/
               (r = em_room em /\ connected (run shared_run init) r)))
         (item_moved "c1" (mkEventData None (Some "i1"%string) None (Some "3"%string)
                             (Some "4"%string)) "t4" (run shared_run init)).
Proof.
  apply (emissions_reach_other_live_members
           (Point OnItemMoved "c1"
              (mkEventData None (Some "i1"%string) None (Some "3"%string) (Some "4"%string))
              "t4")
           (run shared_run init)).
  - exact shared_run_reachable.
  - vm_compute. eauto.
Defined.

(** *** The keys of [workspace_users] *)

Lemma dom_discard_user (sid w : string) (table : gmap string (gset string)) :
  dom table ⊆ dom (discard_user sid w table).
Proof.
  unfold discard_user. destruct (table !! w); [|done]. apply dom_insert_subseteq.
Qed.

Lemma step_workspaces (o : op) (self : SocketManager) :
  workspaces self ⊆ workspaces (fst (step o self)).
Proof.
  unfold workspaces.
  destruct o as [sid now|sid|sid data now|sid data|ev sid data now]; cbn [step fst].
  - done.
  - unfold on_disconnect, disconnect.
    destruct (truthy (current_workspace self sid)) as [w|]; [|done].
    destruct (decide (is_Some (workspace_users self !! w))); [|done].
    cbn [fst workspace_users]. apply dom_discard_user.
  - unfold join_workspace.
    destruct (truthy (join_workspace_id data)) as [w|]; [|done].
    assert (Hprev : dom (workspace_users self) ⊆ dom (leave_previous sid self).1).
    { unfold leave_previous.
      destruct (truthy (current_workspace self sid)) as [old|]; [|done].
      destruct (decide (is_Some (workspace_users self !! old))); [|done].
      apply dom_discard_user. }
    destruct (user_info self !! sid); cbn [fst workspace_users]; unfold add_user;
      (etrans; [exact Hprev | apply dom_insert_subseteq]).
  - unfold leave_workspace.
    destruct (user_info self !! sid); cbn [fst];
      destruct (truthy (join_workspace_id data)) as [w|]; try done;
      destruct (decide (is_Some (workspace_users self !! w))); try done;
      cbn [fst workspace_users]; apply dom_discard_user.
  - done.
Qed.

(** X26.  A workspace id that is a key of [workspace_users] stays one for
    ever: no handler removes a key, also not when the last member leaves
    or disconnects. *)
Theorem workspaces_never_forgotten (ops : list op) (self : SocketManager) :
  workspaces self ⊆ workspaces (run ops self).
Proof.
  revert self. induction ops as [|o ops IH]; intros self; [done|].
  cbn [run fold_left]. etrans; [apply (step_workspaces o)|]. apply IH.
Qed.

(** *** Membership and the recorded workspace *)




(** *** What the three room handlers leave behind *)

(** X28.  After a disconnection the connection has no entry in
    [user_info], is in no Socket.IO room, and is not in the member set of
    the workspace recorded for it; the other connections keep their
    entries and memberships; and [disconnect] for an unknown connection
    changes nothing and emits nothing. *)
Theorem disconnect_forgets_connection (sid : string) (self : SocketManager) :
  user_info (on_disconnect sid self).1 !! sid = None /\
  (forall w, sid ∉ room (on_disconnect sid self).1 w) /\
  (forall w, truthy (current_workspace self sid) = Some w ->
             sid ∉ members (on_disconnect sid self).1 w) /\
  (forall s, s ≠ sid ->
             user_info (on_disconnect sid self).1 !! s = user_info self !! s /\
             forall w, s ∈ members (on_disconnect sid self).1 w <-> s ∈ members self w) /\
  (user_info self !! sid = None -> disconnect sid self = (self, [])).
Proof.
  split; [rewrite on_disconnect_user_info; apply lookup_delete_eq|].
  split.
  { intros w Hin. apply on_disconnect_room in Hin as [_ Hne]. apply Hne. reflexivity. }
  split.
  { intros w Hw Hin. apply on_disconnect_members in Hin as [_ Hnot].
    apply Hnot. split; [exact Hw | reflexivity]. }
  split.
  { intros s Hne. split; [rewrite on_disconnect_user_info; apply lookup_delete_ne; done|].
    intros w. split; [intros Hin; apply on_disconnect_members in Hin as [Hin _]; exact Hin|].
    apply on_disconnect_keeps_members. exact Hne. }
  intros Hunknown. unfold disconnect, current_workspace. rewrite Hunknown. cbn [truthy].
  rewrite delete_id by exact Hunknown. destruct self. reflexivity.
Qed.

(** X28, at a connection id the manager has never seen. *)
Lemma disconnect_forgets_connection_witness :
  disconnect "c9" (run shared_run init) = (run shared_run init, []).
Proof.
  apply (proj2 (proj2 (proj2 (proj2
           (disconnect_forgets_connection "c9" (run shared_run init)))))).
  vm_compute. reflexivity.
Defined.

(** X29.  In a state the server can reach, [leave_workspace] naming the
    workspace [w] succeeds for an open connection; afterwards the
    connection is not in the member set of [w] and has no workspace
    recorded, it is not in the Socket.IO room of [w] when [w] is a key of
    [workspace_users] or is not the connection's own id (a connection
    that names its own id, never joined as a workspace, stays in the room
    the server keeps for it), and the member sets of all other workspaces
    are as they were. *)
Theorem leave_workspace_leaves_named_room (sid : string) (data : JoinData)
    (self : SocketManager) (w : string) :
  reachable self -> connected self sid ->
  truthy (join_workspace_id data) = Some w ->
  snd (leave_workspace sid data self) = Ok tt /\
  (sid ∉ members (leave_workspace sid data self).1.1 w) /\
  (w ∈ workspaces self \/ w ≠ sid -> sid ∉ room (leave_workspace sid data self).1.1 w) /\
  current_workspace (leave_workspace sid data self).1.1 sid = None /\
  (forall w' s, w' ≠ w ->
     (s ∈ members (leave_workspace sid data self).1.1 w' <-> s ∈ members self w')).
Proof.
  intros Hreach Hsid Hw.
  pose proof (reachable_consistent _ Hreach) as (_ & Hroom & _).
  split.
  { unfold leave_workspace. destruct Hsid as [info ->]. reflexivity. }
  split.
  { intros Hin. apply leave_workspace_members_iff in Hin as [_ Hnot].
    apply Hnot. split; [exact Hw | reflexivity]. }
  split.
  { intros Hor Hin. apply leave_workspace_rooms_iff in Hin as [Hin Hnot].
    assert (Hkey : is_Some (workspace_users self !! w)).
    { destruct Hor as [Hkey|Hne]; [apply elem_of_dom; exact Hkey|].
      apply Hroom in Hin as [_ [Hm|Heq]]; [|congruence].
      eapply members_is_Some. exact Hm. }
    apply Hnot. split; [exact Hw|]. split; [exact Hkey | reflexivity]. }
  split.
  { unfold leave_workspace, current_workspace. destruct Hsid as [info ->].
    cbn [fst user_info]. rewrite lookup_insert_eq. reflexivity. }
  intros w' s Hne. rewrite leave_workspace_members_iff. split; [tauto|].
  intros Hin. split; [exact Hin|]. rewrite Hw. intros [[= ->] _]. done.
Qed.

(** X29, at a connection leaving the workspace it shares with another. *)
Lemma leave_workspace_leaves_named_room_witness :
  snd (leave_workspace "c1" (alice_joins "ws1") (run shared_run init)) = Ok tt /\
  ("c1" ∉ members (leave_workspace "c1" (alice_joins "ws1") (run shared_run init)).1.1 "ws1") /\
  ("ws1" ∈ workspaces (run shared_run init) \/ "ws1"%string ≠ "c1"%string ->
   "c1" ∉ room (leave_workspace "c1" (alice_joins "ws1") (run shared_run init)).1.1 "ws1") /\
  current_workspace (leave_workspace "c1" (alice_joins "ws1") (run shared_run init)).1.1 "c1"
  = None /\
  (forall w' s, w' ≠ "ws1"%string ->
     (s ∈ members (leave_workspace "c1" (alice_joins "ws1") (run shared_run init)).1.1 w'
      <-> s ∈ members (run shared_run init) w')).
Proof.
  apply (leave_workspace_leaves_named_room "c1" (alice_joins "ws1") (run shared_run init) "ws1").
  - exact shared_run_reachable.
  - vm_compute. eauto.
  - reflexivity.
Defined.

(** X30.  [join_workspace] with a workspace id succeeds for an open
    connection: afterwards the connection is in the member set and in the
    Socket.IO room of that workspace, the workspace is recorded for it
    and so is the user name the client sent ([null] if it sent [null],
    Anonymous if it sent none), the workspace is a key of
    [workspace_users], and the connection is out of the member set of the
    workspace recorded before, if that was another one. *)
Theorem join_workspace_enters_room (sid : string) (data : JoinData) (now : string)
    (self : SocketManager) (w : string) :
  connected self sid ->
  truthy (join_workspace_id data) = Some w ->
  (exists others, snd (join_workspace sid data now self) = Ok (JoinSuccess w others)) /\
  sid ∈ members (join_workspace sid data now self).1.1 w /\
  sid ∈ room (join_workspace sid data now self).1.1 w /\
  current_workspace (join_workspace sid data now self).1.1 sid = Some w /\
  name_of (join_workspace sid data now self).1.1 sid
  = default (Some "Anonymous"%string) (join_user_name data) /\
  w ∈ workspaces (join_workspace sid data now self).1.1 /\
  (forall old, truthy (current_workspace self sid) = Some old -> old ≠ w ->
               sid ∉ members (join_workspace sid data now self).1.1 old).
Proof.
  intros [info Hinfo] Hw. unfold join_workspace. rewrite Hw, Hinfo. cbv zeta.
  cbn [fst snd].
  split; [eexists; reflexivity|].
  split; [unfold members; cbn [workspace_users]; apply elem_of_add_user; right; done|].
  split; [unfold room; cbn [rooms]; apply elem_of_enter_room; right; done|].
  split; [unfold current_workspace; cbn [user_info]; rewrite lookup_insert_eq; reflexivity|].
  split; [unfold name_of; cbn [user_info]; rewrite lookup_insert_eq; reflexivity|].
  split.
  { unfold workspaces. cbn [workspace_users]. unfold add_user.
    apply elem_of_dom. rewrite lookup_insert_eq. eauto. }
  intros old Hold Hne. unfold members. cbn [workspace_users].
  rewrite elem_of_add_user, leave_previous_members.
  intros [[_ Hnot]|[Heq _]]; [|done]. apply Hnot. split; [exact Hold | reflexivity].
Qed.

(** X30, at a connection that moves from one workspace to another and
    sends [null] for its user name. *)
Lemma join_workspace_enters_room_witness :
  (exists others,
     snd (join_workspace "c1" (mkJoinData (Some "ws2"%string) (Some None)) "t4"
            (run shared_run init))
     = Ok (JoinSuccess "ws2" others)) /\
  "c1" ∈ members (join_workspace "c1" (mkJoinData (Some "ws2"%string) (Some None)) "t4"
                    (run shared_run init)).1.1 "ws2" /\
  "c1" ∈ room (join_workspace "c1" (mkJoinData (Some "ws2"%string) (Some None)) "t4"
                 (run shared_run init)).1.1 "ws2" /\
  current_workspace
    (join_workspace "c1" (mkJoinData (Some "ws2"%string) (Some None)) "t4"
       (run shared_run init)).1.1 "c1"
  = Some "ws2"%string /\
  name_of (join_workspace "c1" (mkJoinData (Some "ws2"%string) (Some None)) "t4"
             (run shared_run init)).1.1 "c1"
  = None /\
  "ws2" ∈ workspaces
            (join_workspace "c1" (mkJoinData (Some "ws2"%string) (Some None)) "t4"
               (run shared_run init)).1.1 /\
  (forall old,
     truthy (current_workspace (run shared_run init) "c1") = Some old ->
     old ≠ "ws2"%string ->
     "c1" ∉ members
              (join_workspace "c1" (mkJoinData (Some "ws2"%string) (Some None)) "t4"
                 (run shared_run init)).1.1 old).
Proof.
  apply (join_workspace_enters_room "c1" (mkJoinData (Some "ws2"%string) (Some None)) "t4"
           (run shared_run init) "ws2").
  - vm_compute. eauto.
  - reflexivity.
Defined.

End SocketsFacts.
